(** * Daily planner: state normalisation, task operations and timers

    A shallow embedding of the planner's server-side normaliser
    ([server.js]) and of the client-side state logic (the React [App]
    component): the client normaliser, category and task operations, the task
    form, the next day of a date, manual reordering, the view with its sort
    modes and groups, and the pomodoro timers with their clock and progress
    bar.

    Conventions of the embedding.
    - A JavaScript value that reaches the normalisers is a JSON value, or the
      number [NaN] that [Number(..)] can produce; the fields of an object
      are its own properties, each listed once, in the order in which
      [Object.keys] lists them.  Numbers are modelled on
      the integers (what [Date.now()], timer seconds and [order] ranks are),
      below [2^53] in size, where binary64 holds them exactly and [String]
      prints them in decimal; other numbers are outside the model, and of
      the strings that [Number(..)] and [parseInt] read as numbers only the
      decimal integers are read as such: what is proved of a number read
      from a string is proved of these.  The one place where the planner
      divides, the progress percentage, is modelled in binary64 ([Float]).
    - A string is the sequence of its code units, taken below 256.
    - An object used as a dictionary ([categoryColors], [pomodoroTimers],
      [PRIORITY_ORDER], the groups of the task list) is a finite map of its
      own properties, and its prototype is [Object.prototype]: a name that
      is no own property but a member of [Object.prototype]
      ([Js.inherited]) reads as that member, and writing to "__proto__"
      adds no own property ([Js.assign]).
    - A date of [Date] is a day number, counted from 1970-01-01 in the
      proleptic Gregorian calendar; it is valid within 100,000,000 days of
      that day.
    - What the host supplies ([getTodayDateIST()], [Date.now()],
      [randomUUID()], [String.prototype.localeCompare],
      [String.prototype.toLowerCase]) is a parameter. *)

From Stdlib Require Import ZArith String Ascii List Lia Floats Uint63.
From stdpp Require Import base option list strings pretty gmap fin_maps sorting.

Set Warnings "-register-all".
Open Scope string_scope.
Open Scope Z_scope.

(** ** JavaScript values and coercions *)

Module Js.

(** A JavaScript number: an integer, or [NaN]. *)
Inductive num := NaN | Num (z : Z).

Inductive jval :=
| JNull
| JBool (b : bool)
| JNum (n : num)
| JStr (s : string)
| JArr (items : list jval)
| JObj (fields : list (string * jval)).

#[global] Instance num_eq_dec : EqDecision num.
Proof. solve_decision. Defined.

(** Own property lookup in an object literal. *)
Fixpoint assoc {A} (k : string) (l : list (string * A)) : option A :=
  match l with
  | [] => None
  | (k', v) :: l' => if String.eqb k k' then Some v else assoc k l'
  end.

(** [v?.k] for the property names the planner reads (none of them is a
    property of arrays, strings, numbers or booleans): [None] is
    [undefined]. *)
Definition prop (k : string) (v : jval) : option jval :=
  match v with
  | JObj fields => assoc k fields
  | _ => None
  end.

(** [Boolean(v)]. *)
Definition truthy (v : jval) : bool :=
  match v with
  | JNull => false
  | JBool b => b
  | JNum NaN => false
  | JNum (Num z) => negb (z =? 0)
  | JStr s => negb (String.eqb s "")
  | JArr _ | JObj _ => true
  end.

(** [Boolean(o)] of a possibly missing property. *)
Definition truthy_opt (o : option jval) : bool :=
  match o with Some v => truthy v | None => false end.

(** [typeof v === "object"] (which holds of [null] too). *)
Definition is_object (v : jval) : bool :=
  match v with
  | JNull | JArr _ | JObj _ => true
  | _ => false
  end.

Definition num_to_string (n : num) : string :=
  match n with NaN => "NaN" | Num z => pretty z end.

Definition join (sep : string) (l : list string) : string :=
  match l with
  | [] => ""
  | s :: l' => fold_left (fun acc t => acc +:+ sep +:+ t) l' s
  end.

(** [String(v)]; an array is joined with commas, its [null] items printing
    as the empty string; an object, which is taken not to redefine [toString]
    or [valueOf], prints as "[object Object]". *)
Fixpoint to_string (v : jval) : string :=
  match v with
  | JNull => "null"
  | JBool true => "true"
  | JBool false => "false"
  | JNum n => num_to_string n
  | JStr s => s
  | JArr items =>
      join "," ((fun x => match x with JNull => "" | _ => to_string x end) <$> items)
  | JObj _ => "[object Object]"
  end.

(** [String(o || d)]. *)
Definition string_or (d : string) (o : option jval) : string :=
  match o with
  | Some v => if truthy v then to_string v else d
  | None => d
  end.

(** White space and line terminators ([String.prototype.trim]). *)
Definition is_space (c : ascii) : bool :=
  match N_of_ascii c with
  | 9 | 10 | 11 | 12 | 13 | 32 | 160 => true
  | _ => false
  end%N.

Fixpoint trimStart (s : string) : string :=
  match s with
  | EmptyString => EmptyString
  | String c s' => if is_space c then trimStart s' else s
  end.

Fixpoint trimEnd (s : string) : string :=
  match s with
  | EmptyString => EmptyString
  | String c s' =>
      match trimEnd s' with
      | EmptyString => if is_space c then EmptyString else String c EmptyString
      | t => String c t
      end
  end.

Definition trim (s : string) : string := trimEnd (trimStart s).

Definition is_hex_digit (c : ascii) : bool :=
  let n := N_of_ascii c in
  ((48 <=? n) && (n <=? 57) || (65 <=? n) && (n <=? 70) || (97 <=? n) && (n <=? 102))%N.

(** [/^#[0-9a-fA-F]{6}$/.test(s)]. *)
Definition is_hex_color (s : string) : bool :=
  match s with
  | String "#" (String a (String b (String c (String d (String e (String f EmptyString)))))) =>
      is_hex_digit a && is_hex_digit b && is_hex_digit c
      && is_hex_digit d && is_hex_digit e && is_hex_digit f
  | _ => false
  end.

Definition digit_of (c : ascii) : option Z :=
  let n := N_of_ascii c in
  if ((48 <=? n) && (n <=? 57))%N then Some (Z.of_N n - 48) else None.

(** Value of a string made of decimal digits only. *)
Fixpoint digits_value (acc : Z) (s : string) : option Z :=
  match s with
  | EmptyString => Some acc
  | String c s' =>
      match digit_of c with
      | Some d => digits_value (10 * acc + d) s'
      | None => None
      end
  end.

Definition unsigned_literal (s : string) : num :=
  match s with
  | EmptyString => NaN
  | _ => match digits_value 0 s with Some z => Num z | None => NaN end
  end.

(** [Number(s)] of a string, on decimal integer literals: white space is
    trimmed, the empty string is 0, a sign may precede the digits.  The other
    numeric literals (a fraction, an exponent, a radix prefix, [Infinity]) are
    not told from the strings that are no number: all give [NaN] here. *)
Definition string_to_number (s : string) : num :=
  match trim s with
  | EmptyString => Num 0
  | String "+" r => unsigned_literal r
  | String "-" r =>
      match unsigned_literal r with Num z => Num (- z) | NaN => NaN end
  | t => unsigned_literal t
  end.

(** [Number(v)]. *)
Definition to_number (v : jval) : num :=
  match v with
  | JNull => Num 0
  | JBool b => Num (if b then 1 else 0)
  | JNum n => n
  | JStr s => string_to_number s
  | JArr _ => string_to_number (to_string v)
  | JObj _ => NaN
  end.

(** [Number(o)] of a possibly missing property ([Number(undefined)] is
    [NaN]). *)
Definition to_number_opt (o : option jval) : num :=
  match o with Some v => to_number v | None => NaN end.

(** The longest prefix of decimal digits, read as a number. *)
Fixpoint digit_prefix (acc : option Z) (s : string) : option Z :=
  match s with
  | EmptyString => acc
  | String c s' =>
      match digit_of c with
      | Some d => digit_prefix (Some (10 * default 0 acc + d)) s'
      | None => acc
      end
  end.

(** [Number.parseInt(s, 10)]: the digits are read exactly, which is what
    binary64 gives for a number below [2^53]; a longer number, which
    [parseInt] rounds, and from 309 digits on reads as [Infinity], is outside
    the model. *)
Definition parseInt10 (s : string) : num :=
  let digits r := match digit_prefix None r with Some z => Num z | None => NaN end in
  match trimStart s with
  | String "+" r => digits r
  | String "-" r => match digits r with Num z => Num (- z) | NaN => NaN end
  | t => digits t
  end.

(** [Object.entries(v)] of an object, whose fields are held in this
    order, or an array (whose keys are its indices). *)
Definition entries (v : jval) : list (string * jval) :=
  match v with
  | JObj fields => fields
  | JArr items => imap (fun i x => (pretty i, x)) items
  | _ => []
  end.

(** [Array.from(new Set(l))]: duplicates are dropped, the first occurrence
    stays in place. *)
Fixpoint dedupe_from (seen l : list string) : list string :=
  match l with
  | [] => []
  | x :: l' =>
      if bool_decide (x ∈ seen) then dedupe_from seen l'
      else x :: dedupe_from (x :: seen) l'
  end.

Definition dedupe (l : list string) : list string := dedupe_from [] l.

(** The members of [Object.prototype], which every object literal
    inherits.  Read from an object without an own property of the name, each
    of them is a function, and "__proto__" the prototype itself: a value that
    is truthy, that is no number and no array, and that has none of the
    properties the planner reads. *)
Definition inherited (key : string) : bool :=
  bool_decide
    (key ∈ ["constructor"; "hasOwnProperty"; "isPrototypeOf"; "propertyIsEnumerable";
            "toLocaleString"; "toString"; "valueOf"; "__proto__"; "__defineGetter__";
            "__defineSetter__"; "__lookupGetter__"; "__lookupSetter__"]).

(** [!map[key]]: the own property holds the empty string, or there is no
    own property and nothing is inherited under the name. *)
Definition lacks (map : gmap string string) (key : string) : bool :=
  match map !! key with
  | Some v => String.eqb v ""
  | None => negb (inherited key)
  end.

(** [map[key] = value]: the own property is set or created.  Only
    "__proto__", where it is no own property, reaches the setter that
    [Object.prototype] has for it: a string is ignored there, and an object
    becomes the prototype; no own property is created. *)
Definition assign {V} (key : string) (value : V) (map : gmap string V) : gmap string V :=
  if String.eqb key "__proto__" && negb (bool_decide (is_Some (map !! key))) then map
  else <[key := value]> map.

(** [Math.floor(z)] of a whole number. *)
Definition floor (z : Z) : Z := z.

(** [s.padStart(n, c)] for a one-character [c]. *)
Definition padStart (n : nat) (c : ascii) (s : string) : string :=
  string_of_list_ascii (replicate (n - String.length s) c) +:+ s.

(** [s.split(sep)] for a one-character [sep]. *)
Fixpoint split (sep : ascii) (s : string) : list string :=
  match s with
  | EmptyString => [EmptyString]
  | String c s' =>
      if Ascii.eqb c sep then EmptyString :: split sep s'
      else match split sep s' with
           | part :: parts => String c part :: parts
           | [] => [String c EmptyString]
           end
  end.

(** [s.slice(0, n)]. *)
Fixpoint slice0 (n : nat) (s : string) : string :=
  match n, s with
  | S n', String c s' => String c (slice0 n' s')
  | _, _ => EmptyString
  end.

End Js.

(** ** What the host supplies *)

Record Host := {
  (** [getTodayDateIST()] *)
  today : string;
  (** [Date.now()] *)
  now : Z;
  (** [randomUUID()], by the position of the task that asks for it *)
  randomUUID : nat -> string;
  (** [a.localeCompare(b)] *)
  localeCompare : string -> string -> Z;
  (** [s.toLowerCase()] *)
  toLowerCase : string -> string
}.

Definition DEFAULT_CATEGORY_COLOR : string := "#4f8dfd".
Definition DEFAULT_POMODORO_SECONDS : Z := 30 * 60.

(** ** Tasks *)

Module Task.

(** A task as the server normaliser builds it; [order] is the rank that only
    the client's manual reordering adds ([None]: no such property). *)
Record t := mk {
  id : string;
  name : string;
  description : string;
  priority : string;
  category : string;
  taskType : string;
  meetingTime : string;
  date : string;
  done : bool;
  hidden : bool;
  createdAt : Js.num;
  order : option Z
}.

Definition to_json (k : t) : Js.jval :=
  Js.JObj
    ([("id", Js.JStr (id k)); ("name", Js.JStr (name k));
      ("description", Js.JStr (description k)); ("priority", Js.JStr (priority k));
      ("category", Js.JStr (category k)); ("taskType", Js.JStr (taskType k));
      ("meetingTime", Js.JStr (meetingTime k)); ("date", Js.JStr (date k));
      ("done", Js.JBool (done k)); ("hidden", Js.JBool (hidden k));
      ("createdAt", Js.JNum (createdAt k))]
     ++ match order k with Some z => [("order", Js.JNum (Js.Num z))] | None => [] end).

End Task.

(** ** The server: [normalizeState] of [server.js] *)

Module Server.

Record State := {
  tasks : list Task.t;
  categories : list string;
  categoryColors : gmap string string;
  selectedDate : string
}.

(** [categoriesInput.map((x) => String(x || "").trim()).filter(Boolean)],
    through [new Set], with "General" put in front when it is missing. *)
Definition clean_categories (categoriesInput : list Js.jval) : list string :=
  Js.dedupe
    (filter (fun s => s <> "")
       ((fun x => Js.trim (Js.string_or "" (Some x))) <$> categoriesInput)).

Definition with_general (categories : list string) : list string :=
  if bool_decide ("General" ∈ categories) then categories else "General" :: categories.

(** The loop over [Object.entries(rawColors)]. *)
Definition collect_colors (rawColors : option Js.jval) : gmap string string :=
  match rawColors with
  | Some raw =>
      if Js.truthy raw && Js.is_object raw then
        fold_left
          (fun categoryColors '(key, value) =>
             let category := Js.trim key in
             let color := Js.trim (Js.string_or "" (Some value)) in
             if negb (String.eqb category "") && Js.is_hex_color color
             then Js.assign category color categoryColors
             else categoryColors)
          (Js.entries raw) ∅
      else ∅
  | None => ∅
  end.

(** The loop [for (const category of categories)] giving the default
    colour. *)
Definition fill_defaults (categories : list string) (categoryColors : gmap string string)
  : gmap string string :=
  fold_left
    (fun m category =>
       if Js.lacks m category then Js.assign category DEFAULT_CATEGORY_COLOR m else m)
    categories categoryColors.

Definition safeTask (h : Host) (categories : list string) (index : nat) (task : Js.jval)
  : Task.t :=
  {| Task.id := Js.string_or (randomUUID h index) (Js.prop "id" task);
     Task.name := Js.string_or "" (Js.prop "name" task);
     Task.description := Js.string_or "" (Js.prop "description" task);
     Task.priority := Js.string_or "Medium" (Js.prop "priority" task);
     Task.category :=
       if bool_decide (Js.string_or "" (Js.prop "category" task) ∈ categories)
       then match Js.prop "category" task with
            | Some c => Js.to_string c
            | None => "undefined"
            end
       else "General";
     Task.taskType := Js.string_or "Work" (Js.prop "taskType" task);
     Task.meetingTime := Js.string_or "" (Js.prop "meetingTime" task);
     Task.date := Js.string_or (today h) (Js.prop "date" task);
     Task.done := Js.truthy_opt (Js.prop "done" task);
     Task.hidden := Js.truthy_opt (Js.prop "hidden" task);
     Task.createdAt :=
       if Js.truthy_opt (Js.prop "createdAt" task)
       then Js.to_number_opt (Js.prop "createdAt" task)
       else Js.Num (now h);
     Task.order := None |}.

Definition normalizeState (h : Host) (payload : Js.jval) : State :=
  let categoriesInput :=
    match Js.prop "categories" payload with
    | Some (Js.JArr items) => items
    | _ => [Js.JStr "General"]
    end in
  let categories := with_general (clean_categories categoriesInput) in
  let categoryColors :=
    fill_defaults categories (collect_colors (Js.prop "categoryColors" payload)) in
  let tasks :=
    match Js.prop "tasks" payload with
    | Some (Js.JArr items) => items
    | _ => []
    end in
  let safeTasks :=
    imap (safeTask h categories)
      (List.filter (fun task => Js.truthy task && Js.is_object task) tasks) in
  {| tasks := safeTasks;
     categories := categories;
     categoryColors := categoryColors;
     selectedDate := Js.string_or (today h) (Js.prop "selectedDate" payload) |}.

(** The document the server stores and serves: the state as a value.  The
    colours are listed in the order of [map_to_list]; the normalisers do not
    depend on the order, the keys being different after trimming. *)
Definition to_json (s : State) : Js.jval :=
  Js.JObj
    [("tasks", Js.JArr (Task.to_json <$> tasks s));
     ("categories", Js.JArr (Js.JStr <$> categories s));
     ("categoryColors",
       Js.JObj ((fun '(k, v) => (k, Js.JStr v)) <$> map_to_list (categoryColors s)));
     ("selectedDate", Js.JStr (selectedDate s))].

End Server.

(** ** The client: state logic of the [App] component *)

Module Timer.

Record t := mk {
  remainingSeconds : Z;
  durationSeconds : Z;
  isRunning : bool
}.

End Timer.

(** [Array.prototype.sort(cmp)]: a stable sort; [x] goes before the first
    element that [cmp] does not put before it.  For a comparator that is a
    consistent order on the elements every stable sort returns this list.
    For another comparator the order that [Array.prototype.sort] returns is
    left to the implementation, and only the elements of the result are
    known: what is proved of the order of a sorted list below is proved
    under the hypothesis that the comparator is consistent, or for a
    comparator that is consistent by its form. *)
Fixpoint sort_insert {A} (cmp : A -> A -> Z) (x : A) (l : list A) : list A :=
  match l with
  | [] => [x]
  | y :: l' => if cmp x y <=? 0 then x :: l else y :: sort_insert cmp x l'
  end.

Definition sort {A} (cmp : A -> A -> Z) (l : list A) : list A :=
  foldr (sort_insert cmp) [] l.

(** ** Binary64 arithmetic

    The quotient and the product of [getPomodoroProgressPercent] are
    IEEE 754 binary64 operations.  A finite number that is not negative is
    kept as [mantissa * 2 ^ exponent]; an operation rounds its exact
    rational result to 53 bits, to nearest, ties to even.  The exponent
    range is not modelled: the numbers met here lie between [2^-53] and
    [2^53]. *)

Module Float.

Record t := mk { mantissa : Z; exponent : Z }.

(** [2 ^ e], and 1 for a negative [e]. *)
Definition pow2 (e : Z) : Z := 2 ^ Z.max e 0.

(** The number as the fraction [num / den]. *)
Definition num (x : t) : Z := mantissa x * pow2 (exponent x).
Definition den (x : t) : Z := pow2 (- exponent x).

(** The integer nearest to [n / d], the even one of two that are equally
    near. *)
Definition nearest_even (n d : Z) : Z :=
  let q := n / d in
  let r := n mod d in
  if 2 * r <? d then q
  else if d <? 2 * r then q + 1
  else if Z.even q then q else q + 1.

(** The binary64 number nearest to [n / d], for [n >= 0] and [d > 0]: the
    exponent [e] is the one with [2^52 <= n / d / 2^e < 2^53]. *)
Definition round (n d : Z) : t :=
  if n <=? 0 then mk 0 0
  else
    let e0 := Z.log2 n - Z.log2 d - 53 in
    let e := if n * pow2 (- e0) <? 2 ^ 53 * (d * pow2 e0) then e0 else e0 + 1 in
    mk (nearest_even (n * pow2 (- e)) (d * pow2 e)) e.

(** An integer below [2^53] is a binary64 number. *)
Definition of_Z (z : Z) : t := mk z 0.

Definition div (x y : t) : t := round (num x * den y) (den x * num y).

Definition mul (x y : t) : t := round (num x * num y) (den x * den y).

(** [Math.round(x)]: the nearest integer, the greater one of two that are
    equally near. *)
Definition Math_round (x : t) : Z := (2 * num x + den x) / (2 * den x).

(** The machine's float [f] is the number [x]. *)
Definition same (x : t) (f : float) : bool :=
  match Prim2SF f with
  | S754_zero false => num x =? 0
  | S754_finite false m e => num x * pow2 (- e) =? Zpos m * pow2 e * den x
  | _ => false
  end.

End Float.

Module Client.

(** The planner document held by the component; [T] is what a task is: a
    raw value as loaded, or a [Task.t] once it came through the server. *)
Record State {T : Type} := {
  tasks : list T;
  categories : list string;
  categoryColors : gmap string string;
  selectedDate : string;
  sortBy : string;
  pomodoroTimers : gmap string Timer.t
}.
Arguments State : clear implicits.

Definition PRIORITY_ORDER (p : string) : option Z :=
  if String.eqb p "High" then Some 0
  else if String.eqb p "Medium" then Some 1
  else if String.eqb p "Low" then Some 2
  else None.

Definition ALLOWED_SORT_BY : list string :=
  ["priority"; "category"; "taskType"; "createdAt"; "manual"].

(** [timeLabel.match(/^(\d{2}):(\d{2})\s(AM|PM)/)] and the minutes of the
    day it stands for; 9999 when the label does not match. *)
Definition parseMeetingMinutes (timeLabel : string) : Z :=
  match timeLabel with
  | String h1 (String h2 (String colon (String m1 (String m2
      (String sp (String ap (String m _))))))) =>
      match Js.digit_of h1, Js.digit_of h2, Js.digit_of m1, Js.digit_of m2 with
      | Some a, Some b, Some c, Some d =>
          if Ascii.eqb colon ":" && Js.is_space sp
             && (Ascii.eqb ap "A" || Ascii.eqb ap "P") && Ascii.eqb m "M"
          then
            let hour := (10 * a + b) mod 12 in
            let hour := if Ascii.eqb ap "P" then hour + 12 else hour in
            hour * 60 + (10 * c + d)
          else 9999
      | _, _, _, _ => 9999
      end
  | _ => 9999
  end.

(** The timer [normalizePomodoroTimers] builds from a stored one.  The
    stored seconds are whole numbers here, which [Math.floor] leaves as they
    are; a fraction below 1, which passes the test [> 0] and is then floored
    to 0, is outside the model. *)
Definition normalizeTimer (timer : Js.jval) : Timer.t :=
  let durationSeconds :=
    match Js.to_number_opt (Js.prop "durationSeconds" timer) with
    | Js.Num z => if 0 <? z then Js.floor z else DEFAULT_POMODORO_SECONDS
    | Js.NaN => DEFAULT_POMODORO_SECONDS
    end in
  let remainingSeconds :=
    match Js.to_number_opt (Js.prop "remainingSeconds" timer) with
    | Js.Num z => Z.max 0 (Z.min durationSeconds (Js.floor z))
    | Js.NaN => durationSeconds
    end in
  {| Timer.remainingSeconds := remainingSeconds;
     Timer.durationSeconds := durationSeconds;
     Timer.isRunning :=
       Js.truthy_opt (Js.prop "isRunning" timer) && (0 <? remainingSeconds) |}.

(** [normalizePomodoroTimers(rawTimers)], as the own properties of the
    object it returns (a stored timer under "__proto__" becomes the prototype
    of that object, until the next operation copies the timers). *)
Definition normalizePomodoroTimers (rawTimers : option Js.jval) : gmap string Timer.t :=
  match rawTimers with
  | Some raw =>
      if negb (Js.truthy raw) || negb (Js.is_object raw) then ∅
      else
        fold_left
          (fun normalized '(taskId, timer) =>
             if String.eqb taskId "" || negb (Js.truthy timer) || negb (Js.is_object timer)
             then normalized
             else Js.assign taskId (normalizeTimer timer) normalized)
          (Js.entries raw) ∅
  | None => ∅
  end.

Definition createDefaultState {T} (h : Host) : State T :=
  {| tasks := [];
     categories := ["General"];
     categoryColors := {[ "General" := DEFAULT_CATEGORY_COLOR ]};
     selectedDate := today h;
     sortBy := "priority";
     pomodoroTimers := ∅ |}.

Definition buildCategoryColors (rawCategoryColors : option Js.jval) (categories : list string)
  : gmap string string :=
  let map :=
    match rawCategoryColors with
    | Some raw =>
        if Js.truthy raw && Js.is_object raw then
          fold_left
            (fun map key =>
               let value := Js.trim (Js.string_or "" (Js.assoc key (Js.entries raw))) in
               if Js.is_hex_color value then Js.assign key value map else map)
            (fst <$> Js.entries raw) ∅
        else ∅
    | None => ∅
    end in
  fold_left
    (fun map category =>
       if Js.lacks map category then Js.assign category DEFAULT_CATEGORY_COLOR map else map)
    (match categories with [] => ["General"] | _ => categories end) map.

Definition normalizeState (h : Host) (raw : Js.jval) : State Js.jval :=
  let fallback : State Js.jval := createDefaultState h in
  if negb (Js.truthy raw) || negb (Js.is_object raw) then fallback
  else
    let tasks :=
      match Js.prop "tasks" raw with
      | Some (Js.JArr items) => items
      | _ => []
      end in
    let categories :=
      match Js.prop "categories" raw with
      | Some (Js.JArr items) => Server.clean_categories items
      | _ => categories fallback
      end in
    {| tasks := tasks;
       categories := match categories with [] => Client.categories fallback | _ => categories end;
       categoryColors := buildCategoryColors (Js.prop "categoryColors" raw) categories;
       selectedDate :=
         match Js.prop "selectedDate" raw with
         | Some (Js.JStr s) => if String.eqb s "" then selectedDate fallback else s
         | _ => selectedDate fallback
         end;
       sortBy :=
         match Js.prop "sortBy" raw with
         | Some (Js.JStr s) => if bool_decide (s ∈ ALLOWED_SORT_BY) then s else sortBy fallback
         | _ => sortBy fallback
         end;
       pomodoroTimers := normalizePomodoroTimers (Js.prop "pomodoroTimers" raw) |}.

(** From here on the tasks are [Task.t]: the component's tasks are those the
    server normaliser served, and those [submitTask] and the operations
    below build.  An operation returns the document it persists, or the
    document unchanged when it returns without persisting. *)

Definition with_tasks (data : State Task.t) (tasks : list Task.t) : State Task.t :=
  {| tasks := tasks;
     categories := categories data;
     categoryColors := categoryColors data;
     selectedDate := selectedDate data;
     sortBy := sortBy data;
     pomodoroTimers := pomodoroTimers data |}.

Definition set_flags (done hidden : bool) (task : Task.t) : Task.t :=
  Task.mk (Task.id task) (Task.name task) (Task.description task) (Task.priority task)
    (Task.category task) (Task.taskType task) (Task.meetingTime task) (Task.date task)
    done hidden (Task.createdAt task) (Task.order task).

Definition set_category (category : string) (task : Task.t) : Task.t :=
  Task.mk (Task.id task) (Task.name task) (Task.description task) (Task.priority task)
    category (Task.taskType task) (Task.meetingTime task) (Task.date task)
    (Task.done task) (Task.hidden task) (Task.createdAt task) (Task.order task).

Definition set_order (order : Z) (task : Task.t) : Task.t :=
  Task.mk (Task.id task) (Task.name task) (Task.description task) (Task.priority task)
    (Task.category task) (Task.taskType task) (Task.meetingTime task) (Task.date task)
    (Task.done task) (Task.hidden task) (Task.createdAt task) (Some order).

Definition addCategory (h : Host) (data : State Task.t) (newCategory newCategoryColor : string)
  : State Task.t :=
  let name := Js.trim newCategory in
  if String.eqb name "" then data
  else if existsb (fun cat => String.eqb (toLowerCase h cat) (toLowerCase h name))
            (categories data)
  then data
  else
    {| tasks := tasks data;
       categories := sort (localeCompare h) (categories data ++ [name]);
       categoryColors := <[name := newCategoryColor]> (categoryColors data);
       selectedDate := selectedDate data;
       sortBy := sortBy data;
       pomodoroTimers := pomodoroTimers data |}.

(** When no category is left [categories[0]] is [undefined]; the empty
    string, which is no category, stands for it. *)
Definition deleteCategory (data : State Task.t) (categoryName : string) : State Task.t :=
  if String.eqb categoryName "General" then data
  else
    let categories := filter (fun item => item <> categoryName) (categories data) in
    let fallbackCategory :=
      if bool_decide ("General" ∈ categories) then "General" else default "" (head categories) in
    let tasks :=
      (fun task =>
         if String.eqb (Task.category task) categoryName
         then set_category fallbackCategory task else task)
      <$> tasks data in
    {| tasks := tasks;
       categories := categories;
       categoryColors := delete categoryName (categoryColors data);
       selectedDate := selectedDate data;
       sortBy := sortBy data;
       pomodoroTimers := pomodoroTimers data |}.

Definition toggleDone (data : State Task.t) (taskId : string) : State Task.t :=
  with_tasks data
    ((fun task =>
        if negb (String.eqb (Task.id task) taskId) then task
        else if Task.done task || Task.hidden task then set_flags false false task
        else set_flags true true task)
     <$> tasks data).

Definition hideTask (data : State Task.t) (taskId : string) : State Task.t :=
  with_tasks data
    ((fun task =>
        if String.eqb (Task.id task) taskId then set_flags false true task else task)
     <$> tasks data).

(** [Number.isFinite(task.order) ? Number(task.order) : index]. *)
Definition orderValue (index : nat) (task : Task.t) : Z :=
  default (Z.of_nat index) (Task.order task).

(** [.map((task, index) => ({task, orderValue})).sort(..).map((entry) =>
    entry.task)]. *)
Definition by_order (tasks : list Task.t) : list Task.t :=
  fst <$>
    sort (fun a b => snd a - snd b) (imap (fun index task => (task, orderValue index task)) tasks).

(** [l.findIndex((task) => task.id === taskId)], [None] for -1. *)
Definition findIndex (taskId : string) (l : list Task.t) : option nat :=
  fst <$> list_find (fun task => Task.id task = taskId) l.

(** [l.splice(index, 0, x)]. *)
Definition splice_in {A} (index : nat) (x : A) (l : list A) : list A :=
  take index l ++ x :: drop index l.

(** [sourceId] is the id being dragged; [null], when nothing is dragged, is
    as falsy as the empty string, which stands for it. *)
Definition reorderTasksWithinDay (data : State Task.t) (sourceId targetId : string)
  : State Task.t :=
  if String.eqb sourceId "" || String.eqb targetId "" || String.eqb sourceId targetId
  then data
  else
    let sameDateTasks := filter (fun task => Task.date task = selectedDate data) (tasks data) in
    let otherTasks := filter (fun task => Task.date task <> selectedDate data) (tasks data) in
    let ordered := by_order sameDateTasks in
    match findIndex sourceId ordered, findIndex targetId ordered with
    | Some fromIndex, Some toIndex =>
        match ordered !! fromIndex with
        | Some moved =>
            let reordered := splice_in toIndex moved (delete fromIndex ordered) in
            let reindexed := imap (fun index task => set_order (Z.of_nat index) task) reordered in
            {| tasks := otherTasks ++ reindexed;
               categories := categories data;
               categoryColors := categoryColors data;
               selectedDate := selectedDate data;
               sortBy := "manual";
               pomodoroTimers := pomodoroTimers data |}
        | None => data
        end
    | _, _ => data
    end.

(** The filters of the view. *)
Record View := {
  filterType : string;
  filterCategory : string;
  filterStatus : string;
  showAllTasks : bool
}.

Definition shown (data : State Task.t) (v : View) (task : Task.t) : bool :=
  if negb (String.eqb (Task.date task) (selectedDate data)) then false
  else if negb (showAllTasks v) && Task.hidden task then false
  else if negb (String.eqb (filterType v) "All")
          && negb (String.eqb (Task.taskType task) (filterType v)) then false
  else if negb (String.eqb (filterCategory v) "All")
          && negb (String.eqb (Task.category task) (filterCategory v)) then false
  else if String.eqb (filterStatus v) "Pending" && Task.done task then false
  else if String.eqb (filterStatus v) "Completed" && negb (Task.done task) then false
  else true.

(** [PRIORITY_ORDER[task.priority] ?? 99] as an operand of the
    subtraction: the rank of a listed priority; [NaN] for a priority named
    like a member of [Object.prototype], which is read in its place and is no
    number; 99 for every other priority. *)
Definition rank (task : Task.t) : Js.num :=
  match PRIORITY_ORDER (Task.priority task) with
  | Some r => Js.Num r
  | None => if Js.inherited (Task.priority task) then Js.NaN else Js.Num 99
  end.

(** [n || 0]. *)
Definition or_zero (n : Js.num) : Z :=
  match n with Js.Num z => z | Js.NaN => 0 end.

(** The comparator of [visibleTasks], as [sort] reads its result: a
    [rankDiff] that is [NaN] differs from 0 and is returned, and [sort] takes
    [NaN] for 0. *)
Definition compareTasks (h : Host) (sortBy : string) (a b : Task.t) : Z :=
  if String.eqb sortBy "priority" then
    match rank a, rank b with
    | Js.Num rankA, Js.Num rankB =>
        let rankDiff := rankA - rankB in
        if negb (rankDiff =? 0) then rankDiff
        else if String.eqb (Task.taskType a) "Meeting" && String.eqb (Task.taskType b) "Meeting"
        then parseMeetingMinutes (Task.meetingTime a) - parseMeetingMinutes (Task.meetingTime b)
        else localeCompare h (Task.name a) (Task.name b)
    | _, _ => 0
    end
  else if String.eqb sortBy "category" then
    let diff := localeCompare h (Task.category a) (Task.category b) in
    if negb (diff =? 0) then diff else localeCompare h (Task.name a) (Task.name b)
  else if String.eqb sortBy "taskType" then
    let diff := localeCompare h (Task.taskType a) (Task.taskType b) in
    if negb (diff =? 0) then diff else localeCompare h (Task.name a) (Task.name b)
  else or_zero (Task.createdAt b) - or_zero (Task.createdAt a).

Definition visibleTasks (h : Host) (data : State Task.t) (sortBy : string) (v : View)
  : list Task.t :=
  let filtered := List.filter (shown data v) (tasks data) in
  if String.eqb sortBy "manual" then by_order filtered
  else sort (compareTasks h sortBy) filtered.

(** *** Pomodoro timers *)

(** [input] is what [window.prompt] returns: [None] when it is
    cancelled. *)
Definition startPomodoro (pomodoroTimers : gmap string Timer.t) (taskId : string)
    (input : option string) : gmap string Timer.t :=
  let fresh :=
    match input with
    | None => pomodoroTimers
    | Some text =>
        let safeMinutes :=
          match Js.parseInt10 text with
          | Js.Num minutes => if 0 <? minutes then minutes else 30
          | Js.NaN => 30
          end in
        let durationSeconds := safeMinutes * 60 in
        <[taskId := Timer.mk durationSeconds durationSeconds true]> pomodoroTimers
    end in
  match pomodoroTimers !! taskId with
  | Some existing =>
      if 0 <? Timer.remainingSeconds existing then
        <[taskId := Timer.mk (Timer.remainingSeconds existing)
                      (Timer.durationSeconds existing) true]> pomodoroTimers
      else fresh
  | None => fresh
  end.

(** [pausePomodoro(taskId)], which the interface calls for a running
    timer of the task; for a task without one the default timer is paused
    (unless the id is a name the timers inherit: the timer stored then has
    no seconds, which [Timer.t] does not hold). *)
Definition pausePomodoro (pomodoroTimers : gmap string Timer.t) (taskId : string)
  : gmap string Timer.t :=
  let current :=
    default (Timer.mk DEFAULT_POMODORO_SECONDS DEFAULT_POMODORO_SECONDS false)
      (pomodoroTimers !! taskId) in
  <[taskId := Timer.mk (Timer.remainingSeconds current) (Timer.durationSeconds current) false]>
    pomodoroTimers.

Definition resetPomodoro (pomodoroTimers : gmap string Timer.t) (taskId : string)
  : gmap string Timer.t :=
  delete taskId pomodoroTimers.

(** The state update of the one-second interval. *)
Definition tick (prev : gmap string Timer.t) : gmap string Timer.t :=
  map_fold
    (fun taskId timer next =>
       if negb (Timer.isRunning timer) then next
       else
         let current := Timer.remainingSeconds timer in
         let durationSeconds := Timer.durationSeconds timer in
         let remainingSeconds := Z.max (current - 1) 0 in
         let isRunning := 0 <? remainingSeconds in
         if negb (remainingSeconds =? current) || negb (Bool.eqb isRunning (Timer.isRunning timer))
         then <[taskId := Timer.mk remainingSeconds durationSeconds isRunning]> next
         else next)
    prev prev.

(** The arguments are the numbers [getPomodoroTimer] returns. *)
Definition getPomodoroProgressPercent (remainingSeconds durationSeconds : Z) : Z :=
  let safeDuration :=
    Z.max 1 (if durationSeconds =? 0 then DEFAULT_POMODORO_SECONDS else durationSeconds) in
  let remaining := Z.max 0 (Z.min safeDuration remainingSeconds) in
  let elapsed := safeDuration - remaining in
  Float.Math_round
    (Float.mul (Float.div (Float.of_Z elapsed) (Float.of_Z safeDuration)) (Float.of_Z 100)).

(** [getPomodoroTimer(taskId)]: the timer shown for a task, the default one
    when it has none. *)
Definition getPomodoroTimer (pomodoroTimers : gmap string Timer.t) (taskId : string)
  : Timer.t :=
  match pomodoroTimers !! taskId with
  | Some timer => timer
  | None => Timer.mk DEFAULT_POMODORO_SECONDS DEFAULT_POMODORO_SECONDS false
  end.

(** [Boolean(pomodoroTimers[taskId])]: a timer of the task, or what the
    timers inherit under the name. *)
Definition hasPomodoroStarted (pomodoroTimers : gmap string Timer.t) (taskId : string) : bool :=
  bool_decide (is_Some (pomodoroTimers !! taskId)) || Js.inherited taskId.


(** *** Dates *)

(** The day number (days since 1970-01-01) of a date of the proleptic
    Gregorian calendar, for a month from 1 to 12 and any day offset. *)
Definition days_from_civil (y m d : Z) : Z :=
  let y := if m <=? 2 then y - 1 else y in
  let era := y / 400 in
  let yoe := y - era * 400 in
  let doy := (153 * (if 2 <? m then m - 3 else m + 9) + 2) / 5 + d - 1 in
  let doe := yoe * 365 + yoe / 4 - yoe / 100 + doy in
  era * 146097 + doe - 719468.

(** The year, month and day of a day number. *)
Definition civil_from_days (z : Z) : Z * Z * Z :=
  let z := z + 719468 in
  let era := z / 146097 in
  let doe := z - era * 146097 in
  let yoe := (doe - doe / 1460 + doe / 36524 - doe / 146096) / 365 in
  let y := yoe + era * 400 in
  let doy := doe - (365 * yoe + yoe / 4 - yoe / 100) in
  let mp := (5 * doy + 2) / 153 in
  let d := doy - (153 * mp + 2) / 5 + 1 in
  let m := if mp <? 10 then mp + 3 else mp - 9 in
  (if m <=? 2 then y + 1 else y, m, d).

(** The day number of the time value [Date.UTC(year, month - 1, day)];
    [None] is the invalid date.  A year from 0 to 99 counts from 1900, a
    month outside 1..12 carries into the year, the day is an offset from the
    first of the month, and a time value beyond 100,000,000 days from the
    epoch is invalid. *)
Definition utc_day (year month day : Js.num) : option Z :=
  match year, month, day with
  | Js.Num y, Js.Num m, Js.Num d =>
      let yr := if (0 <=? y) && (y <=? 99) then 1900 + y else y in
      let ym := yr + (m - 1) / 12 in
      let mn := (m - 1) mod 12 in
      let t := days_from_civil ym (mn + 1) 1 + (d - 1) in
      if Z.abs t <=? 100000000 then Some t else None
  | _, _, _ => None
  end.

(** The first ten characters of [toISOString()] for a day number: a year
    from 0 to 9999 has four digits, another one a sign and six. *)
Definition iso_prefix (t : Z) : string :=
  let '(y, m, d) := civil_from_days t in
  let year :=
    if (0 <=? y) && (y <=? 9999) then Js.padStart 4 "0" (pretty y)
    else (if y <? 0 then "-" else "+") +:+ Js.padStart 6 "0" (pretty (Z.abs y)) in
  Js.slice0 10
    (year +:+ "-" +:+ Js.padStart 2 "0" (pretty m) +:+ "-" +:+ Js.padStart 2 "0" (pretty d)
     +:+ "T00:00:00.000Z").

(** [getNextDate(dateStr)]; [None] when [toISOString] throws a
    [RangeError], the date being invalid.  The fields are read by
    [Js.string_to_number], as decimal integers. *)
Definition getNextDate (dateStr : string) : option string :=
  let field (i : nat) : Js.num :=
    match Js.split "-" dateStr !! i with
    | Some part => Js.string_to_number part
    | None => Js.NaN
    end in
  match utc_day (field 0%nat) (field 1%nat) (field 2%nat) with
  | Some t => if Z.abs (t + 1) <=? 100000000 then Some (iso_prefix (t + 1)) else None
  | None => None
  end.

(** *** The task form and the remaining task operations *)

Record Form := {
  taskName : string;
  taskDescription : string;
  priority : string;
  category : string;
  taskType : string;
  taskDate : string;
  meetingHour : string;
  meetingMinute : string;
  meetingAmPm : string
}.

Definition buildMeetingTime (form : Form) : string :=
  if negb (String.eqb (taskType form) "Meeting") then ""
  else if String.eqb (meetingHour form) "" || String.eqb (meetingMinute form) ""
          || String.eqb (meetingAmPm form) "" then ""
  else meetingHour form +:+ ":" +:+ meetingMinute form +:+ " " +:+ meetingAmPm form +:+ " IST".

(** [submitTask]; the new task takes the identifier the host hands out for
    its position. *)
Definition submitTask (h : Host) (data : State Task.t) (form : Form) : State Task.t :=
  let name := Js.trim (taskName form) in
  let date := taskDate form in
  if String.eqb name "" || String.eqb date "" then data
  else
    let meetingTime := buildMeetingTime form in
    if String.eqb (taskType form) "Meeting" && String.eqb meetingTime "" then data
    else
      let newTask :=
        {| Task.id := randomUUID h (length (tasks data));
           Task.name := name;
           Task.description := Js.trim (taskDescription form);
           Task.priority := priority form;
           Task.category := category form;
           Task.taskType := taskType form;
           Task.meetingTime := meetingTime;
           Task.date := date;
           Task.done := false;
           Task.hidden := false;
           Task.createdAt := Js.Num (now h);
           Task.order := None |} in
      {| tasks := tasks data ++ [newTask];
         categories := categories data;
         categoryColors := categoryColors data;
         selectedDate := date;
         sortBy := sortBy data;
         pomodoroTimers := pomodoroTimers data |}.

Definition restoreTask (data : State Task.t) (taskId : string) : State Task.t :=
  with_tasks data
    ((fun task =>
        if String.eqb (Task.id task) taskId then set_flags (Task.done task) false task
        else task)
     <$> tasks data).

Definition set_date (date : string) (task : Task.t) : Task.t :=
  Task.mk (Task.id task) (Task.name task) (Task.description task) (Task.priority task)
    (Task.category task) (Task.taskType task) (Task.meetingTime task) date
    (Task.done task) (Task.hidden task) (Task.createdAt task) (Task.order task).

(** [moveTaskToNextDay]; [None] when [getNextDate] throws on the date of a
    task with the given id, and nothing is persisted. *)
Definition moveTaskToNextDay (data : State Task.t) (taskId : string)
  : option (State Task.t) :=
  with_tasks data <$>
    mapM (fun task =>
            if String.eqb (Task.id task) taskId then
              (fun date => set_flags false false (set_date date task))
                <$> getNextDate (Task.date task)
            else Some task)
         (tasks data).

(** [cloneTaskToNextDay]; the clone takes the identifier the host hands out
    for its position.  [None] when [getNextDate] throws. *)
Definition cloneTaskToNextDay (h : Host) (data : State Task.t) (taskId : string)
  : option (State Task.t) :=
  match List.find (fun task => String.eqb (Task.id task) taskId) (tasks data) with
  | None => Some data
  | Some source =>
      (fun date =>
         let clone :=
           Task.mk (randomUUID h (length (tasks data))) (Task.name source)
             (Task.description source) (Task.priority source) (Task.category source)
             (Task.taskType source) (Task.meetingTime source) date false false
             (Js.Num (now h)) (Task.order source) in
         with_tasks data (tasks data ++ [clone]))
        <$> getNextDate (Task.date source)
  end.

Definition updateSortBy (data : State Task.t) (value : string) : State Task.t :=
  let safeValue := if bool_decide (value ∈ ALLOWED_SORT_BY) then value else "priority" in
  {| tasks := tasks data;
     categories := categories data;
     categoryColors := categoryColors data;
     selectedDate := selectedDate data;
     sortBy := safeValue;
     pomodoroTimers := pomodoroTimers data |}.

(** [changeSelectedDate(value)]: an empty value selects today. *)
Definition changeSelectedDate (h : Host) (data : State Task.t) (value : string)
  : State Task.t :=
  {| tasks := tasks data;
     categories := categories data;
     categoryColors := categoryColors data;
     selectedDate := if String.eqb value "" then today h else value;
     sortBy := sortBy data;
     pomodoroTimers := pomodoroTimers data |}.


(** *** The groups of the task list *)

(** A property name that is an array index, [0] to [2^32 - 2] written
    without leading zeros.  Such properties come first, in ascending order,
    when the properties of an object are listed; the others follow in the
    order of their creation. *)
Definition array_index (key : string) : option Z :=
  match key with
  | EmptyString => None
  | String c rest =>
      if Ascii.eqb c "0" && negb (String.eqb rest "") then None
      else match Js.digits_value 0 key with
           | Some n => if n <=? 4294967294 then Some n else None
           | None => None
           end
  end.

(** [Object.entries] of an object whose properties were created in the
    given order. *)
Definition own_entries {A} (created : list (string * A)) : list (string * A) :=
  (sort (fun a b => default 0 (array_index (fst a)) - default 0 (array_index (fst b)))
     (List.filter (fun entry => bool_decide (is_Some (array_index (fst entry)))) created)
   ++ List.filter (fun entry => negb (bool_decide (is_Some (array_index (fst entry)))))
        created)%list.

(** [if (!groups[task.category]) groups[task.category] = [];
    groups[task.category].push(task)], on the groups in the order of their
    creation.  For a category named like a member of [Object.prototype] no
    group is created, the member being truthy, and [push], which the member
    does not have, throws a [TypeError]: [None]. *)
Definition push_group (groups : list (string * list Task.t)) (task : Task.t)
  : option (list (string * list Task.t)) :=
  if existsb (fun group => String.eqb (fst group) (Task.category task)) groups
  then Some ((fun group =>
                if String.eqb (fst group) (Task.category task)
                then (fst group, (snd group ++ [task])%list)
                else group) <$> groups)
  else if Js.inherited (Task.category task) then None
  else Some (groups ++ [(Task.category task, [task])])%list.

(** [groupedTasks], of the tasks shown; [None] when the loop throws, and
    with it the rendering of the component. *)
Definition groupedTasks (h : Host) (visibleTasks : list Task.t)
  : option (list (string * list Task.t)) :=
  (fun groups => sort (fun a b => localeCompare h (fst a) (fst b)) (own_entries groups))
  <$> fold_left (fun groups task => groups ≫= fun groups => push_group groups task)
        visibleTasks (Some []).

End Client.

(** ** A concrete host, for the examples *)

Definition compare_units (a b : string) : Z :=
  match String.compare a b with
  | Eq => 0
  | Lt => -1
  | Gt => 1
  end.

Definition lower_unit (c : ascii) : ascii :=
  let n := N_of_ascii c in
  if ((65 <=? n) && (n <=? 90))%N then ascii_of_N (n + 32) else c.

Fixpoint lower_units (s : string) : string :=
  match s with
  | EmptyString => EmptyString
  | String c s' => String (lower_unit c) (lower_units s')
  end.

Definition sample_host : Host :=
  {| today := "2026-03-01";
     now := 1772323200000;
     randomUUID := fun index => "00000000-0000-4000-8000-" +:+ pretty index;
     localeCompare := compare_units;
     toLowerCase := lower_units |}.

(** ** Properties of states *)

(** [done = true] implies [hidden = true]. *)
Definition done_hidden (task : Task.t) : Prop :=
  Task.done task = true -> Task.hidden task = true.

(** The three category invariants: every task's category is listed,
    "General" is listed, every listed category has a six-hex-digit
    colour. *)
Definition categories_ok (tasks : list Task.t) (categories : list string)
    (categoryColors : gmap string string) : Prop :=
  Forall (fun task => Task.category task ∈ categories) tasks
  /\ "General" ∈ categories
  /\ Forall (fun category =>
               exists color, categoryColors !! category = Some color
                             /\ Js.is_hex_color color = true) categories.

(** The same, but that a category named like a member of
    [Object.prototype] may be without a colour. *)
Definition categories_ok_apart (tasks : list Task.t) (categories : list string)
    (categoryColors : gmap string string) : Prop :=
  Forall (fun task => Task.category task ∈ categories) tasks
  /\ "General" ∈ categories
  /\ Forall (fun category =>
               Js.inherited category = false ->
               exists color, categoryColors !! category = Some color
                             /\ Js.is_hex_color color = true) categories.

(** Every colour of the map is six hex digits after a [#]. *)
Definition colors_valid (m : gmap string string) : Prop :=
  map_Forall (fun _ color => Js.is_hex_color color = true) m.

(** The task objects the server normaliser keeps from a payload. *)
Definition task_objects (payload : Js.jval) : list Js.jval :=
  match Js.prop "tasks" payload with
  | Some (Js.JArr items) => List.filter (fun task => Js.truthy task && Js.is_object task) items
  | _ => []
  end.

(** The string does not begin with white space. *)
Definition starts_clean (s : string) : Prop :=
  match s with
  | EmptyString => True
  | String c _ => Js.is_space c = false
  end.

(** A string without white space is its own trimming. *)
Fixpoint no_space (s : string) : bool :=
  match s with
  | EmptyString => true
  | String c s' => negb (Js.is_space c) && no_space s'
  end.

(** A category name as the normaliser leaves it: trimmed and not empty. *)
Definition trimmed (s : string) : Prop := Js.trim s = s /\ s <> "".

(** Every key of the map is a trimmed name, every colour six hex digits. *)
Definition colors_wf (m : gmap string string) : Prop :=
  forall key color, m !! key = Some color -> trimmed key /\ Js.is_hex_color color = true.

(** The shape of every state the server normaliser returns. *)
Record canonical (s : Server.State) : Prop := {
  categories_trimmed : Forall trimmed (Server.categories s);
  categories_nodup : NoDup (Server.categories s);
  categories_general : "General" ∈ Server.categories s;
  colors_trimmed :
    forall key color, Server.categoryColors s !! key = Some color ->
                      trimmed key /\ Js.is_hex_color color = true;
  colors_cover :
    forall category, category ∈ Server.categories s ->
                     is_Some (Server.categoryColors s !! category)
                     \/ Js.inherited category = true;
  colors_own : Server.categoryColors s !! "__proto__" = None;
  tasks_listed :
    Forall (fun task => Task.category task ∈ Server.categories s /\ Task.order task = None)
      (Server.tasks s)
}.

(** No defaulted field of the task came out blank: a second pass keeps
    it. *)
Definition task_settled (task : Task.t) : Prop :=
  Task.id task <> "" /\ Task.priority task <> "" /\ Task.taskType task <> ""
  /\ Task.date task <> "" /\ Js.truthy (Js.JNum (Task.createdAt task)) = true.

Definition settled (s : Server.State) : Prop :=
  Server.selectedDate s <> "" /\ Forall task_settled (Server.tasks s).

(** One timer after one second. *)
Definition tick_timer (timer : Timer.t) : Timer.t :=
  if Timer.isRunning timer then
    let remainingSeconds := Z.max (Timer.remainingSeconds timer - 1) 0 in
    Timer.mk remainingSeconds (Timer.durationSeconds timer) (0 <? remainingSeconds)
  else timer.

(** The tasks of the selected day, and the others. *)
Definition same_day (data : Client.State Task.t) : list Task.t :=
  filter (fun task => Task.date task = Client.selectedDate data) (Client.tasks data).

Definition other_days (data : Client.State Task.t) : list Task.t :=
  filter (fun task => Task.date task <> Client.selectedDate data) (Client.tasks data).





(** The comparator is a consistent order on the elements of the list, which
    is what [Array.prototype.sort] asks of it for the sorted order to be
    determined: swapping the arguments swaps the sign, and "no later than"
    is transitive. *)
Definition consistent {A} (cmp : A -> A -> Z) (l : list A) : bool :=
  forallb
    (fun a =>
       forallb
         (fun b =>
            Bool.eqb (cmp a b <? 0) (0 <? cmp b a)
            && forallb
                 (fun c => implb ((cmp a b <=? 0) && (cmp b c <=? 0)) (cmp a c <=? 0))
                 l)
         l)
    l.




(** [round(n / d)] in exact arithmetic, halves going up. *)
Definition round_half_up (n d : Z) : Z := (2 * n + d) / (2 * d).

(** The percentage as the specification gives it:
    [round(100 * (duration - remaining) / max(1, duration))]. *)
Definition claimed_percent (remainingSeconds durationSeconds : Z) : Z :=
  round_half_up (100 * (durationSeconds - remainingSeconds)) (Z.max 1 durationSeconds).

(** The quotient and the product of the percentage, by the machine and by
    [Float], are the same numbers. *)
Definition machine_agrees (elapsed safeDuration : Z) : bool :=
  let machine z := PrimFloat.of_uint63 (Uint63.of_Z z) in
  let q := Float.div (Float.of_Z elapsed) (Float.of_Z safeDuration) in
  let qf := PrimFloat.div (machine elapsed) (machine safeDuration) in
  Float.same q qf
  && Float.same (Float.mul q (Float.of_Z 100)) (PrimFloat.mul qf (machine 100)).

(** ** Sample documents and states *)

(** One task, done and hidden as asked. *)
Definition one_task (done hidden : bool) : Task.t :=
  Task.mk "t1" "Write report" "" "Medium" "General" "Work" "" "2026-03-01" done hidden
    (Js.Num 1772323200000) None.

Definition one_task_state (done hidden : bool) : Client.State Task.t :=
  {| Client.tasks := [one_task done hidden];
     Client.categories := ["General"];
     Client.categoryColors := {[ "General" := DEFAULT_CATEGORY_COLOR ]};
     Client.selectedDate := "2026-03-01";
     Client.sortBy := "priority";
     Client.pomodoroTimers := ∅ |}.

(** Two tasks in the category "Research". *)
Definition research_state : Client.State Task.t :=
  {| Client.tasks :=
       [Task.mk "t1" "Read papers" "" "High" "Research" "Learning" "" "2026-03-01" false false
          (Js.Num 1772323200000) None;
        Task.mk "t2" "Write notes" "" "Low" "Research" "Work" "" "2026-03-01" false false
          (Js.Num 1772323200001) None];
     Client.categories := ["General"; "Research"];
     Client.categoryColors := {[ "General" := DEFAULT_CATEGORY_COLOR; "Research" := "#aa33cc" ]};
     Client.selectedDate := "2026-03-01";
     Client.sortBy := "priority";
     Client.pomodoroTimers := ∅ |}.

(** Two tasks on the selected day and one on the next. *)
Definition day_task (id date : string) (order : option Z) : Task.t :=
  Task.mk id "Task" "" "Medium" "General" "Work" "" date false false (Js.Num 1772323200000) order.

Definition three_tasks (first_id : string) : Client.State Task.t :=
  {| Client.tasks :=
       [day_task first_id "2026-03-01" None; day_task "t2" "2026-03-01" None;
        day_task "t3" "2026-03-02" None];
     Client.categories := ["General"];
     Client.categoryColors := {[ "General" := DEFAULT_CATEGORY_COLOR ]};
     Client.selectedDate := "2026-03-01";
     Client.sortBy := "priority";
     Client.pomodoroTimers := ∅ |}.

(** A timer that ran out. *)
Definition expired_timers : gmap string Timer.t := {[ "t1" := Timer.mk 0 300 false ]}.

(** No filter set. *)
Definition all_view : Client.View :=
  {| Client.filterType := "All";
     Client.filterCategory := "All";
     Client.filterStatus := "All";
     Client.showAllTasks := false |}.

Definition named_task (name priority taskType meetingTime : string) : Task.t :=
  Task.mk name name "" priority "General" taskType meetingTime "2026-03-01" false false
    (Js.Num 1772323200000) None.

Definition state_of (tasks : list Task.t) : Client.State Task.t :=
  {| Client.tasks := tasks;
     Client.categories := ["General"];
     Client.categoryColors := {[ "General" := DEFAULT_CATEGORY_COLOR ]};
     Client.selectedDate := "2026-03-01";
     Client.sortBy := "priority";
     Client.pomodoroTimers := ∅ |}.




(** A priority named like a member of [Object.prototype], between a low and
    a high one. *)
Definition unranked_between : Client.State Task.t :=
  state_of [named_task "l" "Low" "Work" ""; named_task "z" "toString" "Work" "";
            named_task "a" "High" "Work" ""].

(** A document with untrimmed and repeated categories, a colour that is no
    colour and a task with few fields. *)
Definition untidy_document : Js.jval :=
  Js.JObj
    [("tasks",
       Js.JArr [Js.JObj [("id", Js.JStr "t1"); ("name", Js.JStr "Read papers");
                         ("category", Js.JStr "Research"); ("done", Js.JBool true)];
                Js.JStr "no task"]);
     ("categories", Js.JArr [Js.JStr " Research "; Js.JNull; Js.JStr "Research"]);
     ("categoryColors", Js.JObj [(" Research", Js.JStr "#ABCDEF"); ("Idle", Js.JStr "red")]);
     ("selectedDate", Js.JStr "2026-03-02")].

(** A document whose [selectedDate] is an empty array. *)
Definition empty_array_date : Js.jval := Js.JObj [("selectedDate", Js.JArr [])].

(** A document with a category named like a member of [Object.prototype]. *)
Definition constructor_category : Js.jval :=
  Js.JObj [("categories", Js.JArr [Js.JStr "constructor"])].

(** A document whose categories lack "General". *)
Definition work_only : Js.jval := Js.JObj [("categories", Js.JArr [Js.JStr "Work"])].

(** ** Timers, dates, the form and the view *)

(** A timer as the planner keeps it: a positive duration, the remaining
    time within it, and running only with time left. *)
Definition timer_ok (timer : Timer.t) : Prop :=
  0 < Timer.durationSeconds timer
  /\ 0 <= Timer.remainingSeconds timer <= Timer.durationSeconds timer
  /\ (Timer.isRunning timer = true -> 0 < Timer.remainingSeconds timer).

Definition timers_ok (timers : gmap string Timer.t) : Prop :=
  map_Forall (fun _ timer => timer_ok timer) timers.

(** A stored value that is no text.  [Number(..)] of it is a whole number
    or no number at all; of a string, or of an array, which is read through
    its text, it may be a fraction. *)
Definition no_text (o : option Js.jval) : bool :=
  match o with
  | Some (Js.JStr _) | Some (Js.JArr _) => false
  | _ => true
  end.

(** The seconds of the stored timers are no text. *)
Definition whole_seconds (rawTimers : option Js.jval) : bool :=
  match rawTimers with
  | Some raw =>
      forallb
        (fun entry =>
           no_text (Js.prop "durationSeconds" (snd entry))
           && no_text (Js.prop "remainingSeconds" (snd entry)))
        (Js.entries raw)
  | None => true
  end.

(** Stored timers: one with more time left than its duration, one with few
    fields, one under the empty key and one that is no object. *)
Definition stored_timers : Js.jval :=
  Js.JObj
    [("t1", Js.JObj [("remainingSeconds", Js.JNum (Js.Num 90));
                     ("durationSeconds", Js.JNum (Js.Num 60));
                     ("isRunning", Js.JBool true)]);
     ("t2", Js.JObj [("remainingSeconds", Js.JNull); ("isRunning", Js.JStr "yes")]);
     ("", Js.JObj []);
     ("t3", Js.JBool true)].

(** A stored document with these timers and a category named like a member
    of [Object.prototype]. *)
Definition stored_document : Js.jval :=
  Js.JObj
    [("tasks", Js.JArr []);
     ("categories", Js.JArr [Js.JStr "Home"; Js.JStr "constructor"]);
     ("categoryColors", Js.JObj [("Home", Js.JStr "#112233"); ("__proto__", Js.JStr "#445566")]);
     ("sortBy", Js.JStr "manual");
     ("pomodoroTimers", stored_timers)].

(** Strings of decimal digits. *)
Fixpoint digits (s : string) : bool :=
  match s with
  | EmptyString => true
  | String c s' => match Js.digit_of c with Some _ => digits s' | None => false end
  end.

(** The calendar. *)
Definition leap (y : Z) : bool :=
  (y mod 4 =? 0) && (negb (y mod 100 =? 0) || (y mod 400 =? 0)).

Definition days_in_month (y m : Z) : Z :=
  if m =? 2 then (if leap y then 29 else 28)
  else if (m =? 4) || (m =? 6) || (m =? 9) || (m =? 11) then 30
  else 31.

Definition valid_date (y m d : Z) : Prop := 1 <= m <= 12 /\ 1 <= d <= days_in_month y m.

Definition next_day (y m d : Z) : Z * Z * Z :=
  if d <? days_in_month y m then (y, m, d + 1)
  else if m <? 12 then (y, m + 1, 1)
  else (y + 1, 1, 1).

(** A date as the date input and [getTodayDateIST] write it. *)
Definition iso (date : Z * Z * Z) : string :=
  let '(y, m, d) := date in
  Js.padStart 4 "0" (pretty y) +:+ "-" +:+ Js.padStart 2 "0" (pretty m) +:+ "-"
  +:+ Js.padStart 2 "0" (pretty d).

(** The day after a date, computed through day numbers, agrees with the
    calendar. *)
Definition day_agrees (y m d : Z) : bool :=
  if d <=? days_in_month y m then
    bool_decide (Client.civil_from_days (Client.days_from_civil y m d + 1) = next_day y m d)
  else true.

(** What [submitTask] asks of the form: a name, a date and, for a meeting,
    its time. *)
Definition submittable (form : Client.Form) : Prop :=
  Js.trim (Client.taskName form) <> "" /\ Client.taskDate form <> ""
  /\ (Client.taskType form = "Meeting" ->
      Client.meetingHour form <> "" /\ Client.meetingMinute form <> ""
      /\ Client.meetingAmPm form <> "").

(** What passes the filters of a view. *)
Definition passes (data : Client.State Task.t) (v : Client.View) (task : Task.t) : Prop :=
  Task.date task = Client.selectedDate data
  /\ (Client.showAllTasks v = false -> Task.hidden task = false)
  /\ (Client.filterType v <> "All" -> Task.taskType task = Client.filterType v)
  /\ (Client.filterCategory v <> "All" -> Task.category task = Client.filterCategory v)
  /\ (Client.filterStatus v = "Pending" -> Task.done task = false)
  /\ (Client.filterStatus v = "Completed" -> Task.done task = true).

(** An option of the hour and minute selects: two digits. *)
Definition two_digits (n : Z) : string := Js.padStart 2 "0" (pretty n).

Definition meeting_form (hour minute : Z) (pm : bool) : Client.Form :=
  {| Client.taskName := "Stand-up";
     Client.taskDescription := "";
     Client.priority := "Medium";
     Client.category := "General";
     Client.taskType := "Meeting";
     Client.taskDate := "2026-03-01";
     Client.meetingHour := two_digits hour;
     Client.meetingMinute := two_digits minute;
     Client.meetingAmPm := if pm then "PM" else "AM" |}.

(** A view that hides nothing. *)
Definition whole_day : Client.View :=
  {| Client.filterType := "All";
     Client.filterCategory := "All";
     Client.filterStatus := "All";
     Client.showAllTasks := true |}.

(** The manual ranks of two tasks go up. *)
Definition ranked_before (a b : Task.t) : Prop :=
  exists x y, Task.order a = Some x /\ Task.order b = Some y /\ x < y.

(** The task is of the category. *)
Definition of_category (key : string) (task : Task.t) : bool :=
  String.eqb (Task.category task) key.

(** The task joins the group of its category, a new one when there is
    none. *)
Definition add_to_group (groups : list (string * list Task.t)) (task : Task.t)
  : list (string * list Task.t) :=
  if existsb (fun group => String.eqb (fst group) (Task.category task)) groups
  then (fun group =>
          if String.eqb (fst group) (Task.category task)
          then (fst group, (snd group ++ [task])%list)
          else group) <$> groups
  else (groups ++ [(Task.category task, [task])])%list.

(** A task of a category named "constructor", in a planner that has the
    category. *)
Definition constructor_task : Client.State Task.t :=
  {| Client.tasks :=
       [Task.mk "t1" "Build" "" "Medium" "constructor" "Work" "" "2026-03-01" false false
          (Js.Num 1772323200000) None];
     Client.categories := ["General"; "constructor"];
     Client.categoryColors :=
       {[ "General" := DEFAULT_CATEGORY_COLOR; "constructor" := "#aa33cc" ]};
     Client.selectedDate := "2026-03-01";
     Client.sortBy := "priority";
     Client.pomodoroTimers := ∅ |}.

(** The document as the value that is stored and loaded again. *)
Definition timer_json (timer : Timer.t) : Js.jval :=
  Js.JObj [("remainingSeconds", Js.JNum (Js.Num (Timer.remainingSeconds timer)));
           ("durationSeconds", Js.JNum (Js.Num (Timer.durationSeconds timer)));
           ("isRunning", Js.JBool (Timer.isRunning timer))].

Definition client_json (s : Client.State Js.jval) : Js.jval :=
  Js.JObj
    [("tasks", Js.JArr (Client.tasks s));
     ("categories", Js.JArr (Js.JStr <$> Client.categories s));
     ("categoryColors",
       Js.JObj ((fun '(k, v) => (k, Js.JStr v)) <$> map_to_list (Client.categoryColors s)));
     ("selectedDate", Js.JStr (Client.selectedDate s));
     ("sortBy", Js.JStr (Client.sortBy s));
     ("pomodoroTimers",
       Js.JObj ((fun '(k, timer) => (k, timer_json timer))
                  <$> map_to_list (Client.pomodoroTimers s)))].

(** ** Saving and loading

    [persist] sends the document to [PUT /api/state], which stores the text
    of its normalised form; when it starts, the component fetches
    [GET /api/state], which serves the normalised form of the stored text,
    normalises what it receives and opens on today. *)


(** The document the component holds, as the value [saveStateToDb] writes. *)
Definition document (data : Client.State Task.t) : Js.jval :=
  client_json
    {| Client.tasks := Task.to_json <$> Client.tasks data;
       Client.categories := Client.categories data;
       Client.categoryColors := Client.categoryColors data;
       Client.selectedDate := Client.selectedDate data;
       Client.sortBy := Client.sortBy data;
       Client.pomodoroTimers := Client.pomodoroTimers data |}.






(** [a] may stand before [b] when the tasks are sorted by a key and then by
    name. *)
Definition keyed_before (h : Host) (key : Task.t -> string) (a b : Task.t) : Prop :=
  localeCompare h (key a) (key b) < 0
  \/ (localeCompare h (key a) (key b) = 0
      /\ localeCompare h (Task.name a) (Task.name b) <= 0).

(** * Theorems *)

(** ** Completion and hiding flags *)

Section Flags.

Implicit Types (data : Client.State Task.t) (task : Task.t).

Lemma toggleDone_lookup data taskId i :
  Client.tasks (Client.toggleDone data taskId) !! i
  = (fun task =>
       if negb (String.eqb (Task.id task) taskId) then task
       else if Task.done task || Task.hidden task then Client.set_flags false false task
       else Client.set_flags true true task) <$> Client.tasks data !! i.
Proof. unfold Client.toggleDone. simpl. apply (list_lookup_fmap _ (Client.tasks data) i). Qed.

Lemma hideTask_lookup data taskId i :
  Client.tasks (Client.hideTask data taskId) !! i
  = (fun task =>
       if String.eqb (Task.id task) taskId then Client.set_flags false true task else task)
    <$> Client.tasks data !! i.
Proof. unfold Client.hideTask. simpl. apply (list_lookup_fmap _ (Client.tasks data) i). Qed.

Lemma toggleDone_targets data taskId task' :
  task' ∈ Client.tasks (Client.toggleDone data taskId) ->
  Task.id task' = taskId -> Task.done task' = Task.hidden task'.
Proof.
  intros [i Hi]%list_elem_of_lookup Hid. rewrite toggleDone_lookup in Hi.
  destruct (Client.tasks data !! i) as [task|]; [|discriminate].
  injection Hi as <-. revert Hid.
  destruct (String.eqb_spec (Task.id task) taskId) as [_|Hne]; simpl.
  - destruct (Task.done task || Task.hidden task); reflexivity.
  - intros Hid. contradiction.
Qed.

Lemma toggleDone_preserves data taskId :
  Forall done_hidden (Client.tasks data) ->
  Forall done_hidden (Client.tasks (Client.toggleDone data taskId)).
Proof.
  intros H. unfold Client.toggleDone. simpl. apply Forall_fmap.
  eapply Forall_impl; [exact H|]. intros task Ht. simpl.
  destruct (negb _); [exact Ht|].
  destruct (Task.done task || Task.hidden task); unfold done_hidden; simpl; congruence.
Qed.

Lemma hideTask_preserves data taskId :
  Forall done_hidden (Client.tasks data) ->
  Forall done_hidden (Client.tasks (Client.hideTask data taskId)).
Proof.
  intros H. unfold Client.hideTask. simpl. apply Forall_fmap.
  eapply Forall_impl; [exact H|]. intros task Ht. simpl.
  destruct (String.eqb _ _); [|exact Ht]. unfold done_hidden. reflexivity.
Qed.

Lemma hideTask_targets data taskId task' :
  task' ∈ Client.tasks (Client.hideTask data taskId) ->
  Task.id task' = taskId -> Task.done task' = false /\ Task.hidden task' = true.
Proof.
  intros [i Hi]%list_elem_of_lookup Hid. rewrite hideTask_lookup in Hi.
  destruct (Client.tasks data !! i) as [task|]; [|discriminate].
  injection Hi as <-. revert Hid.
  destruct (String.eqb_spec (Task.id task) taskId) as [_|Hne]; simpl; [auto|].
  intros Hid. contradiction.
Qed.

End Flags.

(** The server normaliser builds one task per task object of the payload,
    in order. *)
Lemma server_tasks h payload :
  exists categories,
    Server.tasks (Server.normalizeState h payload)
    = imap (Server.safeTask h categories) (task_objects payload).
Proof.
  eexists. unfold Server.normalizeState, task_objects. simpl.
  destruct (Js.prop "tasks" payload) as [[]|]; reflexivity.
Qed.

Lemma Forall_imap_iff {A B} (P : B -> Prop) (Q : A -> Prop) (f : nat -> A -> B) (l : list A) :
  (forall i x, P (f i x) <-> Q x) -> Forall P (imap f l) <-> Forall Q l.
Proof.
  revert f. induction l as [|x l IH]; intros f Hf; simpl.
  - split; constructor.
  - rewrite !Forall_cons, Hf. rewrite (IH (f ∘ S)); [tauto|].
    intros i y. apply Hf.
Qed.

(** C4 (as amended). The server normaliser coerces [done] and [hidden]
    independently of each other, so its output has [done -> hidden] on
    every task exactly when the task objects of the payload have it;
    [toggleDone] and [hideTask] keep the invariant on every task, and
    every task they are aimed at satisfies it afterwards. *)
Theorem done_implies_hidden :
  (forall h payload,
      Forall done_hidden (Server.tasks (Server.normalizeState h payload))
      <-> Forall (fun raw => Js.truthy_opt (Js.prop "done" raw) = true ->
                             Js.truthy_opt (Js.prop "hidden" raw) = true)
            (task_objects payload))
  /\ (forall data taskId,
        Forall done_hidden (Client.tasks data) ->
        Forall done_hidden (Client.tasks (Client.toggleDone data taskId))
        /\ Forall done_hidden (Client.tasks (Client.hideTask data taskId)))
  /\ (forall data taskId task,
        Task.id task = taskId ->
        (task ∈ Client.tasks (Client.toggleDone data taskId) -> done_hidden task)
        /\ (task ∈ Client.tasks (Client.hideTask data taskId) -> done_hidden task)).
Proof.
  split; [|split].
  - intros h payload. destruct (server_tasks h payload) as [categories ->].
    apply Forall_imap_iff. intros i raw. unfold done_hidden. simpl. tauto.
  - intros data taskId H. split.
    + by apply toggleDone_preserves.
    + by apply hideTask_preserves.
  - intros data taskId task Hid. split; intros Hin Hdone.
    + rewrite <- (toggleDone_targets data taskId task Hin Hid). exact Hdone.
    + by destruct (hideTask_targets data taskId task Hin Hid).
Qed.

Lemma done_implies_hidden_witness :
  Forall done_hidden (Client.tasks (Client.toggleDone (one_task_state false false) "t1"))
  /\ done_hidden (Client.set_flags true true (one_task false false)).
Proof.
  split.
  - apply (proj1 (proj2 done_implies_hidden) (one_task_state false false) "t1").
    repeat constructor. unfold done_hidden. simpl. discriminate.
  - apply (proj1 (proj2 (proj2 done_implies_hidden) (one_task_state false false) "t1"
                    (Client.set_flags true true (one_task false false)) eq_refl)).
    simpl. left.
Defined.

(** C4 (as stated) fails on the server normaliser: a task object with a
    truthy [done] and no [hidden] comes out done and not hidden. *)
Lemma done_not_hidden_after_normalize :
  ~ Forall done_hidden
      (Server.tasks
         (Server.normalizeState sample_host
            (Js.JObj [("tasks", Js.JArr [Js.JObj [("id", Js.JStr "t1"); ("done", Js.JBool true)]])]))).
Proof.
  intros H. apply Forall_inv in H. unfold done_hidden in H. simpl in H.
  specialize (H eq_refl). discriminate.
Qed.

(** C10. [toggleDone] on a hidden, not done task gives a task that is
    neither done nor hidden; the task comes out done and hidden exactly when
    it was neither done nor hidden. *)
Theorem toggleDone_hidden_pending (data : Client.State Task.t) (taskId : string) (i : nat)
    (task : Task.t) :
  Client.tasks data !! i = Some task ->
  Task.id task = taskId ->
  exists task',
    Client.tasks (Client.toggleDone data taskId) !! i = Some task'
    /\ (Task.hidden task = true -> Task.done task = false ->
        Task.done task' = false /\ Task.hidden task' = false)
    /\ (Task.done task' = true /\ Task.hidden task' = true
        <-> Task.done task = false /\ Task.hidden task = false).
Proof.
  intros Hi Hid. rewrite toggleDone_lookup, Hi. simpl.
  apply String.eqb_eq in Hid. rewrite Hid. simpl.
  eexists. split; [reflexivity|].
  destruct (Task.done task), (Task.hidden task); simpl; split; intros; intuition congruence.
Qed.

Lemma toggleDone_hidden_pending_witness :
  exists task',
    Client.tasks (Client.toggleDone (one_task_state false true) "t1") !! 0%nat = Some task'
    /\ (true = true -> false = false -> Task.done task' = false /\ Task.hidden task' = false)
    /\ (Task.done task' = true /\ Task.hidden task' = true <-> false = false /\ true = false).
Proof.
  exact (toggleDone_hidden_pending (one_task_state false true) "t1" 0 (one_task false true)
           eq_refl eq_refl).
Defined.

(** ** Pomodoro timers *)

Section Timers.

Implicit Types (timers prev next : gmap string Timer.t) (timer : Timer.t).

(** One tick updates every timer on its own. *)
Lemma tick_lookup prev k : Client.tick prev !! k = tick_timer <$> prev !! k.
Proof.
  unfold Client.tick.
  set (f := fun (taskId : string) timer next => _).
  enough (H : forall m, m ⊆ prev ->
              forall k, map_fold f prev m !! k
                        = match m !! k with
                          | Some _ => tick_timer <$> prev !! k
                          | None => prev !! k
                          end).
  { rewrite (H prev) by reflexivity. destruct (prev !! k) eqn:E; rewrite ?E; reflexivity. }
  clear k. intros m.
  apply (map_fold_weak_ind
           (fun r m => m ⊆ prev ->
                       forall k, r !! k = match m !! k with
                                          | Some _ => tick_timer <$> prev !! k
                                          | None => prev !! k
                                          end)); clear m.
  - intros _ k. rewrite lookup_empty. reflexivity.
  - intros i x m r Hi IH Hsub k.
    assert (Hx : prev !! i = Some x).
    { eapply lookup_weaken; [|exact Hsub]. apply lookup_insert_eq. }
    assert (Hm : m ⊆ prev).
    { etrans; [|exact Hsub]. by apply insert_subseteq. }
    specialize (IH Hm).
    assert (Hf : f i x r !! i = Some (tick_timer x)).
    { unfold f, tick_timer. destruct x as [rem d run]. simpl. destruct run; simpl.
      - destruct (Z.eqb_spec (Z.max (rem - 1) 0) rem); simpl.
        + destruct (Z.ltb_spec 0 (Z.max (rem - 1) 0)); simpl; [exfalso; lia|].
          apply lookup_insert_eq.
        + apply lookup_insert_eq.
      - rewrite IH, Hi. exact Hx. }
    destruct (decide (k = i)) as [->|Hne].
    + rewrite lookup_insert_eq, Hx. exact Hf.
    + rewrite lookup_insert_ne by congruence. rewrite <- IH.
      unfold f. destruct (negb _); [reflexivity|].
      simpl. destruct (_ || _); [|reflexivity]. by rewrite lookup_insert_ne.
Qed.



(** What [startPomodoro] does when the timer is absent or expired: it asks
    for a duration. *)
Lemma start_prompts timers taskId input :
  (forall existing, timers !! taskId = Some existing -> Timer.remainingSeconds existing <= 0) ->
  Client.startPomodoro timers taskId input
  = match input with
    | None => timers
    | Some text =>
        let minutes :=
          match Js.parseInt10 text with
          | Js.Num minutes => if 0 <? minutes then minutes else 30
          | Js.NaN => 30
          end in
        <[taskId := Timer.mk (minutes * 60) (minutes * 60) true]> timers
    end.
Proof.
  intros H. unfold Client.startPomodoro.
  destruct (timers !! taskId) as [existing|] eqn:E; [|reflexivity].
  specialize (H existing eq_refl).
  destruct (Z.ltb_spec 0 (Timer.remainingSeconds existing)); [lia|reflexivity].
Qed.

End Timers.



(** C5 (as amended). Starting an expired timer is starting an absent one:
    the duration is asked for; when the prompt is cancelled the timers are
    left as they are, otherwise the entry is replaced by a running timer of
    the minutes typed, for a positive number of minutes that makes fewer than
    [2^53] seconds (which binary64 holds exactly), and of 30 minutes when
    what is typed is not a positive number. *)
Theorem start_expired (timers : gmap string Timer.t) (taskId : string) (existing : Timer.t) :
  timers !! taskId = Some existing ->
  Timer.remainingSeconds existing = 0 ->
  Client.startPomodoro timers taskId None = timers
  /\ (forall text minutes,
        Js.parseInt10 text = Js.Num minutes -> 0 < minutes -> minutes * 60 < 2 ^ 53 ->
        Client.startPomodoro timers taskId (Some text)
        = <[taskId := Timer.mk (minutes * 60) (minutes * 60) true]> timers)
  /\ (forall text,
        (Js.parseInt10 text = Js.NaN
         \/ exists minutes, Js.parseInt10 text = Js.Num minutes /\ minutes <= 0) ->
        Client.startPomodoro timers taskId (Some text)
        = <[taskId := Timer.mk 1800 1800 true]> timers).
Proof.
  intros Hk Hr.
  assert (H : forall e, timers !! taskId = Some e -> Timer.remainingSeconds e <= 0).
  { intros e He. rewrite Hk in He. injection He as <-. lia. }
  split; [|split].
  - by rewrite start_prompts.
  - intros text minutes Hp Hpos _. rewrite start_prompts by exact H. simpl. rewrite Hp.
    destruct (Z.ltb_spec 0 minutes); [reflexivity|lia].
  - intros text Hp. rewrite start_prompts by exact H. simpl.
    destruct Hp as [->|(minutes & -> & Hle)]; [reflexivity|].
    destruct (Z.ltb_spec 0 minutes); [lia|reflexivity].
Qed.

Lemma start_expired_witness :
  Client.startPomodoro expired_timers "t1" None = expired_timers
  /\ Client.startPomodoro expired_timers "t1" (Some "25")
     = <[ "t1" := Timer.mk 1500 1500 true ]> expired_timers.
Proof.
  split.
  - exact (proj1 (start_expired expired_timers "t1" (Timer.mk 0 300 false) eq_refl eq_refl)).
  - refine (proj1 (proj2 (start_expired expired_timers "t1" (Timer.mk 0 300 false)
                            eq_refl eq_refl)) "25" 25 eq_refl _ _); lia.
Defined.

(** C5 (as stated) fails: with 5 typed at the prompt, starting the expired
    timer replaces it by a running one of 300 seconds. *)
Lemma start_expired_restarts :
  expired_timers !! "t1" = Some (Timer.mk 0 300 false)
  /\ Client.startPomodoro expired_timers "t1" (Some "5") !! "t1" = Some (Timer.mk 300 300 true)
  /\ Client.startPomodoro expired_timers "t1" (Some "5") <> expired_timers.
Proof.
  split; [reflexivity|]. split; [reflexivity|].
  intros H. apply (f_equal (fun m => m !! "t1")) in H. discriminate.
Qed.

(** ** Sorting *)

Section Sort.

Context {A : Type} (cmp : A -> A -> Z).

Lemma sort_insert_perm x l : sort_insert cmp x l ≡ₚ x :: l.
Proof.
  induction l as [|y l IH]; simpl; [reflexivity|].
  destruct (cmp x y <=? 0); [reflexivity|].
  rewrite IH. apply Permutation_swap.
Qed.

Lemma sort_perm l : sort cmp l ≡ₚ l.
Proof.
  induction l as [|x l IH]; simpl; [reflexivity|].
  rewrite sort_insert_perm. by constructor.
Qed.

End Sort.

(** ** Manual reordering *)

Section Reorder.

Implicit Types (data : Client.State Task.t) (task : Task.t) (l : list Task.t).

Lemma by_order_perm l : Client.by_order l ≡ₚ l.
Proof.
  unfold Client.by_order. rewrite sort_perm.
  rewrite fmap_imap. rewrite (imap_ext _ (fun _ task => task)); [|done].
  rewrite (imap_const id). by rewrite list_fmap_id.
Qed.

Lemma findIndex_Some taskId l :
  taskId ∈ Task.id <$> l -> exists i task, Client.findIndex taskId l = Some i /\ l !! i = Some task.
Proof.
  intros (task & -> & Hin)%list_elem_of_fmap. unfold Client.findIndex.
  destruct (list_find (fun t => Task.id t = Task.id task) l) as [[i x]|] eqn:E.
  - apply list_find_Some in E as (Hi & _). exists i, x. by rewrite Hi.
  - apply list_find_None in E. rewrite Forall_forall in E.
    exfalso. by apply (E task).
Qed.

Lemma findIndex_None taskId l :
  taskId ∉ Task.id <$> l -> Client.findIndex taskId l = None.
Proof.
  intros Hnot. unfold Client.findIndex.
  destruct (list_find (fun t => Task.id t = taskId) l) as [[i x]|] eqn:E; [|reflexivity].
  apply list_find_Some in E as (Hi & Hx & _). exfalso. apply Hnot.
  apply list_elem_of_fmap. exists x. split; [done|]. by eapply list_elem_of_lookup_2.
Qed.

Lemma splice_in_perm {A} i (x : A) (k : list A) : Client.splice_in i x k ≡ₚ x :: k.
Proof.
  unfold Client.splice_in. rewrite <- Permutation_middle. by rewrite take_drop.
Qed.

Lemma filter_all {A} (P : A -> Prop) `{!forall x, Decision (P x)} (k : list A) :
  Forall P k -> filter P k = k.
Proof.
  induction 1 as [|x k Hx _ IH]; [reflexivity|].
  by rewrite filter_cons_True, IH.
Qed.

Lemma filter_none {A} (P : A -> Prop) `{!forall x, Decision (P x)} (k : list A) :
  Forall (fun x => ~ P x) k -> filter P k = [].
Proof.
  induction 1 as [|x k Hx _ IH]; [reflexivity|].
  by rewrite filter_cons_False.
Qed.

Lemma reindexed_ids l :
  Task.id <$> imap (fun index task => Client.set_order (Z.of_nat index) task) l = Task.id <$> l.
Proof.
  rewrite fmap_imap. rewrite (imap_ext _ (fun _ => Task.id)); [|done]. apply imap_const.
Qed.

Lemma reindexed_dates l :
  Task.date <$> imap (fun index task => Client.set_order (Z.of_nat index) task) l
  = Task.date <$> l.
Proof.
  rewrite fmap_imap. rewrite (imap_ext _ (fun _ => Task.date)); [|done]. apply imap_const.
Qed.

Lemma reindexed_orders l :
  Task.order <$> imap (fun index task => Client.set_order (Z.of_nat index) task) l
  = (fun index => Some (Z.of_nat index)) <$> seq 0 (length l).
Proof.
  rewrite fmap_imap.
  rewrite (imap_ext _ (fun index _ => Some (Z.of_nat index))); [|done].
  apply imap_seq_0.
Qed.

Lemma ids_by_order taskId data :
  taskId ∈ Task.id <$> Client.by_order (same_day data) <-> taskId ∈ Task.id <$> same_day data.
Proof. by rewrite by_order_perm. Qed.

(** The document after a reordering that goes through. *)
Lemma reorder_moves data sourceId targetId :
  sourceId <> "" -> targetId <> "" -> sourceId <> targetId ->
  sourceId ∈ Task.id <$> same_day data ->
  targetId ∈ Task.id <$> same_day data ->
  exists reordered,
    reordered ≡ₚ same_day data
    /\ Client.reorderTasksWithinDay data sourceId targetId
       = {| Client.tasks :=
              other_days data
              ++ imap (fun index task => Client.set_order (Z.of_nat index) task) reordered;
            Client.categories := Client.categories data;
            Client.categoryColors := Client.categoryColors data;
            Client.selectedDate := Client.selectedDate data;
            Client.sortBy := "manual";
            Client.pomodoroTimers := Client.pomodoroTimers data |}.
Proof.
  intros Ha Hb Hab Hina Hinb. unfold Client.reorderTasksWithinDay.
  apply String.eqb_neq in Ha, Hb, Hab. rewrite Ha, Hb, Hab. simpl.
  fold (same_day data). fold (other_days data).
  apply ids_by_order, findIndex_Some in Hina as (i & moved & -> & Hi).
  apply ids_by_order, findIndex_Some in Hinb as (j & target & -> & Hj).
  rewrite Hi. eexists. split; [|reflexivity].
  rewrite splice_in_perm, <- delete_Permutation by exact Hi. apply by_order_perm.
Qed.

Lemma same_day_dates data : Forall (fun task => Task.date task = Client.selectedDate data) (same_day data).
Proof. apply Forall_forall. intros task Hin. by apply list_elem_of_filter in Hin as [? _]. Qed.

Lemma other_days_dates data :
  Forall (fun task => Task.date task <> Client.selectedDate data) (other_days data).
Proof. apply Forall_forall. intros task Hin. by apply list_elem_of_filter in Hin as [? _]. Qed.

Lemma days_of_append data next (k : list Task.t) :
  Client.selectedDate next = Client.selectedDate data ->
  Client.tasks next = (other_days data ++ k)%list ->
  Forall (fun task => Task.date task = Client.selectedDate data) k ->
  same_day next = k /\ other_days next = other_days data.
Proof.
  intros Hd Ht Hk. unfold same_day at 1, other_days at 1. rewrite Hd, Ht, !filter_app.
  rewrite (filter_none _ (other_days data)).
  2:{ eapply Forall_impl; [apply other_days_dates|]. intros task H; exact H. }
  rewrite (filter_all _ k) by exact Hk.
  rewrite (filter_all _ (other_days data)) by apply other_days_dates.
  rewrite (filter_none _ k).
  2:{ eapply Forall_impl; [exact Hk|]. intros task H Hn. by apply Hn. }
  by rewrite app_nil_r.
Qed.

End Reorder.

(** C6 (as amended: the ids are not empty). After
    [reorder(state, a, b)] with [a] and [b] two different, non-empty ids of
    tasks of the selected day: the ids of the tasks of that day are the same
    multiset, these tasks carry the orders 0, 1, 2, ... in sequence, the tasks
    of the other days are unchanged, and [sortBy] is "manual".  When [a = b]
    or one of them is no id of a task of the day, the state is unchanged. *)
Theorem reorder_within_day (data : Client.State Task.t) (a b : string) :
  (a <> "" -> b <> "" -> a <> b ->
   a ∈ Task.id <$> same_day data -> b ∈ Task.id <$> same_day data ->
   let next := Client.reorderTasksWithinDay data a b in
   Client.selectedDate next = Client.selectedDate data
   /\ Task.id <$> same_day next ≡ₚ Task.id <$> same_day data
   /\ Task.order <$> same_day next
      = (fun index => Some (Z.of_nat index)) <$> seq 0 (length (same_day data))
   /\ other_days next = other_days data
   /\ Client.sortBy next = "manual")
  /\ (a = b \/ a ∉ Task.id <$> same_day data \/ b ∉ Task.id <$> same_day data ->
      Client.reorderTasksWithinDay data a b = data).
Proof.
  split.
  - intros Ha Hb Hab Hina Hinb next.
    destruct (reorder_moves data a b Ha Hb Hab Hina Hinb) as (reordered & Hperm & Hnext).
    unfold next. rewrite Hnext. clear next Hnext.
    set (reindexed := imap (fun index task => Client.set_order (Z.of_nat index) task) reordered).
    assert (Hsame : Forall (fun task => Task.date task = Client.selectedDate data) reindexed).
    { apply (Forall_fmap Task.date (fun d => d = Client.selectedDate data)).
      unfold reindexed. rewrite reindexed_dates, Hperm. apply Forall_fmap, same_day_dates. }
    destruct (days_of_append data
                {| Client.tasks := other_days data ++ reindexed;
                   Client.categories := Client.categories data;
                   Client.categoryColors := Client.categoryColors data;
                   Client.selectedDate := Client.selectedDate data;
                   Client.sortBy := "manual";
                   Client.pomodoroTimers := Client.pomodoroTimers data |}
                reindexed eq_refl eq_refl Hsame) as [-> ->].
    unfold reindexed. rewrite reindexed_ids, reindexed_orders.
    rewrite (Permutation_length Hperm). simpl.
    repeat split. by rewrite Hperm.
  - intros H. unfold Client.reorderTasksWithinDay.
    destruct (_ || _ || _) eqn:Hguard; [reflexivity|].
    apply orb_false_elim in Hguard as [_ Hab]. apply String.eqb_neq in Hab.
    fold (same_day data).
    destruct H as [H|[H|H]]; [contradiction| |].
    + rewrite <- ids_by_order in H. by rewrite (findIndex_None _ _ H).
    + rewrite <- ids_by_order in H. rewrite (findIndex_None b _ H).
      by destruct (Client.findIndex a _).
Qed.

Lemma reorder_within_day_witness :
  Client.sortBy (Client.reorderTasksWithinDay (three_tasks "t1") "t1" "t2") = "manual"
  /\ Client.reorderTasksWithinDay (three_tasks "t1") "t1" "t1" = three_tasks "t1".
Proof.
  split.
  - apply (proj1 (reorder_within_day (three_tasks "t1") "t1" "t2")); try discriminate.
    + vm_compute. repeat constructor.
    + vm_compute. repeat constructor.
  - apply (proj2 (reorder_within_day (three_tasks "t1") "t1" "t1")). left. reflexivity.
Defined.

(** C6 (as stated) fails on an empty id: the guard [!sourceId || !targetId]
    returns before anything is reordered, so the state keeps its [sortBy]. *)
Lemma reorder_empty_id :
  "" <> "t2"
  /\ "" ∈ Task.id <$> same_day (three_tasks "")
  /\ "t2" ∈ Task.id <$> same_day (three_tasks "")
  /\ Client.reorderTasksWithinDay (three_tasks "") "" "t2" = three_tasks ""
  /\ Client.sortBy (Client.reorderTasksWithinDay (three_tasks "") "" "t2") <> "manual".
Proof.
  split; [discriminate|].
  split; [vm_compute; repeat constructor|].
  split; [vm_compute; repeat constructor|].
  split; [reflexivity|]. simpl. discriminate.
Qed.

Example reorder_example :
  (fun task => (Task.id task, Task.order task))
    <$> Client.tasks (Client.reorderTasksWithinDay (three_tasks "t1") "t2" "t1")
  = [("t3", None); ("t2", Some 0); ("t1", Some 1)].
Proof. vm_compute. reflexivity. Qed.

(** ** The priority sort *)

Section SortOrder.

Context {A : Type} (cmp : A -> A -> Z) (R : A -> A -> Prop).
Hypothesis before : forall x y, cmp x y <= 0 -> R x y.
Hypothesis after : forall x y, 0 < cmp x y -> R y x.

Lemma sort_insert_HdRel a x l :
  R a x -> HdRel R a l -> HdRel R a (sort_insert cmp x l).
Proof.
  intros Hax Hal. destruct l as [|y l]; simpl; [by constructor|].
  destruct (cmp x y <=? 0); constructor; [done|]. by inversion Hal.
Qed.

Lemma sort_insert_Sorted x l : Sorted R l -> Sorted R (sort_insert cmp x l).
Proof.
  induction 1 as [|y l Hl IH Hy]; simpl; [by repeat constructor|].
  destruct (Z.leb_spec (cmp x y) 0) as [Hle|Hgt].
  - constructor; [by constructor|]. constructor. by apply before.
  - constructor; [exact IH|]. apply sort_insert_HdRel; [|exact Hy]. by apply after.
Qed.

(** Neighbours in the sorted list are in the order of the comparator. *)
Lemma sort_Sorted l : Sorted R (sort cmp l).
Proof. induction l as [|x l IH]; simpl; [constructor|]. by apply sort_insert_Sorted. Qed.

End SortOrder.

Section Consistent.

Context {A : Type} (cmp : A -> A -> Z) (l : list A).
Hypothesis Hcons : consistent cmp l = true.





End Consistent.



Section Priority.

Variable h : Host.






End Priority.




Lemma compare_units_antisym s t : 0 < compare_units s t -> compare_units t s < 0.
Proof.
  unfold compare_units. rewrite (String.compare_antisym t s).
  destruct (String.compare s t); simpl; lia.
Qed.





(** A priority named like a member of [Object.prototype] has no rank: the
    comparator finds the task equal to every other one, so three tasks with
    such a one in the middle are in order for it as they stand, the low
    priority before the high one. *)
Example unranked_priority_stays :
  (forall task, task ∈ Client.tasks unranked_between ->
                Client.compareTasks sample_host "priority" task
                  (named_task "z" "toString" "Work" "") = 0
                /\ Client.compareTasks sample_host "priority"
                     (named_task "z" "toString" "Work" "") task = 0)
  /\ consistent (Client.compareTasks sample_host "priority") (Client.tasks unranked_between)
     = false.
Proof.
  split; [|reflexivity].
  intros task Hin. unfold unranked_between, state_of in Hin. simpl in Hin.
  repeat (apply elem_of_cons in Hin as [->|Hin]; [split; reflexivity|]).
  by apply elem_of_nil in Hin.
Qed.

Example parseMeetingMinutes_examples :
  Client.parseMeetingMinutes "09:30 AM IST" = 570
  /\ Client.parseMeetingMinutes "12:15 PM IST" = 735
  /\ Client.parseMeetingMinutes "12:05 AM IST" = 5
  /\ Client.parseMeetingMinutes "11:59 PM IST" = 1439
  /\ Client.parseMeetingMinutes "9:30 AM" = 9999
  /\ Client.parseMeetingMinutes "" = 9999.
Proof. repeat split; reflexivity. Qed.

(** ** Categories and their colours *)

Section Categories.

Implicit Types (l seen categories : list string) (m : gmap string string).

Lemma dedupe_from_elem seen l x :
  x ∈ Js.dedupe_from seen l <-> x ∈ l /\ x ∉ seen.
Proof.
  revert seen. induction l as [|y l IH]; intros seen; simpl.
  - rewrite elem_of_nil. tauto.
  - case_bool_decide as Hy.
    + rewrite IH, elem_of_cons. split; [tauto|].
      intros [[->|H] Hn]; [contradiction|tauto].
    + rewrite elem_of_cons, IH, !elem_of_cons.
      destruct (decide (x = y)) as [->|Hne]; [tauto|]. tauto.
Qed.

Lemma dedupe_elem l x : x ∈ Js.dedupe l <-> x ∈ l.
Proof. unfold Js.dedupe. rewrite dedupe_from_elem, elem_of_nil. tauto. Qed.

Lemma dedupe_from_NoDup seen l : NoDup (Js.dedupe_from seen l).
Proof.
  revert seen. induction l as [|y l IH]; intros seen; simpl; [constructor|].
  case_bool_decide; [apply IH|]. constructor; [|apply IH].
  rewrite dedupe_from_elem, elem_of_cons. tauto.
Qed.

Lemma dedupe_from_id seen l :
  NoDup l -> (forall x, x ∈ l -> x ∉ seen) -> Js.dedupe_from seen l = l.
Proof.
  intros Hl. revert seen. induction Hl as [|y l Hy Hl IH]; intros seen Hs; simpl; [done|].
  rewrite bool_decide_eq_false_2 by (apply Hs; left). f_equal. apply IH.
  intros x Hx [->|?]%elem_of_cons; [done|]. apply (Hs x); [by right|done].
Qed.

Lemma clean_categories_elem items x :
  x ∈ Server.clean_categories items ->
  x <> "" /\ exists raw, x = Js.trim raw.
Proof.
  unfold Server.clean_categories. rewrite dedupe_elem, list_elem_of_filter.
  intros [Hne (raw & -> & _)%list_elem_of_fmap]. eauto.
Qed.

Lemma with_general_elem categories x :
  x ∈ Server.with_general categories <-> x = "General" \/ x ∈ categories.
Proof.
  unfold Server.with_general. case_bool_decide as H.
  - split; [tauto|]. by intros [->|?].
  - apply elem_of_cons.
Qed.

Lemma with_general_has categories : "General" ∈ Server.with_general categories.
Proof. apply with_general_elem. by left. Qed.

Lemma fold_left_invariant {A B} (P : A -> Prop) (f : A -> B -> A) (k : list B) (a : A) :
  P a -> (forall x b, b ∈ k -> P x -> P (f x b)) -> P (fold_left f k a).
Proof.
  revert a. induction k as [|b k IH]; intros a Ha Hf; simpl; [done|].
  apply IH; [apply Hf; [left|done]|]. intros x b' Hb. apply Hf. by right.
Qed.

Lemma colors_valid_insert m key color :
  colors_valid m -> Js.is_hex_color color = true -> colors_valid (<[key := color]> m).
Proof. intros Hm Hc. by apply map_Forall_insert_2. Qed.

(** An assignment creates or sets the property, or, for "__proto__", does
    nothing. *)
Lemma assign_cases {V} key (value : V) (map : gmap string V) :
  Js.assign key value map = <[key := value]> map
  \/ (key = "__proto__" /\ map !! key = None /\ Js.assign key value map = map).
Proof.
  unfold Js.assign. destruct (String.eqb_spec key "__proto__") as [->|Hne]; [|by left].
  cbn [andb]. case_bool_decide as H; cbn [negb]; [by left|].
  right. split; [done|]. split; [|done]. by apply eq_None_not_Some.
Qed.

Lemma assign_other {V} key (value : V) (map : gmap string V) :
  key <> "__proto__" -> Js.assign key value map = <[key := value]> map.
Proof. intros Hne. by destruct (assign_cases key value map) as [?|[? _]]. Qed.

(** No assignment creates a property "__proto__". *)
Lemma assign_proto {V} key (value : V) (map : gmap string V) :
  map !! "__proto__" = None -> Js.assign key value map !! "__proto__" = None.
Proof.
  intros Hm. unfold Js.assign.
  destruct (String.eqb_spec key "__proto__") as [->|Hne]; cbn [andb].
  - by rewrite bool_decide_eq_false_2 by (rewrite Hm; by intros [? ?]).
  - by rewrite lookup_insert_ne.
Qed.

Lemma assign_invariant {V} (P : gmap string V -> Prop) key (value : V) (map : gmap string V) :
  P map -> P (<[key := value]> map) -> P (Js.assign key value map).
Proof. intros Hm Hi. by destruct (assign_cases key value map) as [->|(_ & _ & ->)]. Qed.

(** Where a colour is lacking the default is stored. *)
Lemma lacks_assign m key color :
  Js.lacks m key = true -> Js.assign key color m = <[key := color]> m.
Proof.
  unfold Js.lacks. intros H. destruct (assign_cases key color m) as [?|(-> & Hm & _)]; [done|].
  by rewrite Hm in H.
Qed.

Lemma valid_not_lacking m key color :
  m !! key = Some color -> Js.is_hex_color color = true -> Js.lacks m key = false.
Proof. unfold Js.lacks. intros -> H. by destruct color. Qed.

Lemma collect_colors_valid rawColors : colors_valid (Server.collect_colors rawColors).
Proof.
  unfold Server.collect_colors.
  destruct rawColors as [raw|]; [|apply map_Forall_empty].
  destruct (_ && _); [|apply map_Forall_empty].
  apply (fold_left_invariant colors_valid); [apply map_Forall_empty|].
  intros m [key value] _ Hm.
  destruct (negb _ && Js.is_hex_color _) eqn:E; [|done].
  apply andb_prop in E as [_ E]. apply assign_invariant; [done|].
  by apply colors_valid_insert.
Qed.

Lemma collect_colors_proto rawColors : Server.collect_colors rawColors !! "__proto__" = None.
Proof.
  unfold Server.collect_colors.
  destruct rawColors as [raw|]; [|done].
  destruct (_ && _); [|done].
  apply (fold_left_invariant (fun m : gmap string string => m !! "__proto__" = None)); [done|].
  intros m [key value] _ Hm.
  destruct (negb _ && Js.is_hex_color _); [|done]. by apply assign_proto.
Qed.

Lemma fill_defaults_proto categories m :
  m !! "__proto__" = None -> Server.fill_defaults categories m !! "__proto__" = None.
Proof.
  intros Hm. unfold Server.fill_defaults.
  apply (fold_left_invariant (fun m : gmap string string => m !! "__proto__" = None)); [done|].
  intros m' category _ Hm'. destruct (Js.lacks m' category); [|done]. by apply assign_proto.
Qed.

(** The loop of the defaults keeps the colours there are and gives one to
    every category under whose name nothing is inherited. *)
Lemma fill_defaults_valid categories m :
  colors_valid m ->
  colors_valid (Server.fill_defaults categories m)
  /\ (forall key color, m !! key = Some color ->
                        Server.fill_defaults categories m !! key = Some color)
  /\ forall category, category ∈ categories -> Js.inherited category = false ->
       exists color, Server.fill_defaults categories m !! category = Some color
                     /\ Js.is_hex_color color = true.
Proof.
  unfold Server.fill_defaults. revert m.
  induction categories as [|c categories IH]; intros m Hm; simpl.
  - split; [done|]. split; [done|]. by intros ? ?%elem_of_nil.
  - set (m' := if Js.lacks m c then Js.assign c DEFAULT_CATEGORY_COLOR m else m).
    assert (Hm'eq : m' = if Js.lacks m c then <[c := DEFAULT_CATEGORY_COLOR]> m else m).
    { unfold m'. destruct (Js.lacks m c) eqn:E; [|done]. by apply lacks_assign. }
    clearbody m'. subst m'.
    set (m' := if Js.lacks m c then <[c := DEFAULT_CATEGORY_COLOR]> m else m).
    assert (Hm' : colors_valid m').
    { unfold m'. destruct (Js.lacks m c); [|done]. by apply colors_valid_insert. }
    assert (Hkeep : forall key color, m !! key = Some color -> m' !! key = Some color).
    { intros key color Hk. unfold m'. destruct (Js.lacks m c) eqn:E; [|done].
      destruct (decide (c = key)) as [->|]; [|by rewrite lookup_insert_ne].
      by rewrite (valid_not_lacking _ _ _ Hk (Hm _ _ Hk)) in E. }
    assert (Hc : Js.inherited c = false -> exists color, m' !! c = Some color).
    { intros Hown. unfold m'. destruct (Js.lacks m c) eqn:E.
      - eexists. apply lookup_insert_eq.
      - unfold Js.lacks in E. destruct (m !! c); [eauto|]. by rewrite Hown in E. }
    destruct (IH m' Hm') as (Hv & Hk & Hin).
    split; [done|]. split; [by eauto|].
    intros category [->|H]%elem_of_cons Hown; [|by apply Hin].
    destruct (Hc Hown) as [color Hcolor]. exists color. split; [by apply Hk|].
    by apply (Hm' _ _ Hcolor).
Qed.

End Categories.

Section CategoryInvariant.

Lemma safeTask_category h categories index task :
  "General" ∈ categories -> "" ∉ categories ->
  Task.category (Server.safeTask h categories index task) ∈ categories.
Proof.
  intros Hg He. simpl. case_bool_decide as Hin; [|done].
  unfold Js.string_or in Hin. destruct (Js.prop "category" task) as [c|]; [|done].
  destruct (Js.truthy c); done.
Qed.

Lemma server_categories_clean h payload :
  "General" ∈ Server.categories (Server.normalizeState h payload)
  /\ "" ∉ Server.categories (Server.normalizeState h payload).
Proof.
  simpl. split; [apply with_general_has|].
  intros [H|H]%with_general_elem; [discriminate|].
  by apply clean_categories_elem in H as [H _].
Qed.

Lemma normalize_categories_ok h payload :
  let s := Server.normalizeState h payload in
  categories_ok_apart (Server.tasks s) (Server.categories s) (Server.categoryColors s).
Proof.
  intros s. destruct (server_categories_clean h payload) as [Hg He].
  split; [|split; [exact Hg|]].
  - unfold s, Server.normalizeState. simpl.
    apply Forall_forall. intros task (i & raw & -> & _)%elem_of_lookup_imap.
    by apply safeTask_category.
  - apply Forall_forall. intros category Hin Hown.
    by apply (fill_defaults_valid _ _ (collect_colors_valid _)).
Qed.

Lemma addCategory_keeps (exempt : string -> Prop) h data newCategory newCategoryColor :
  Js.is_hex_color newCategoryColor = true ->
  Forall (fun task => Task.category task ∈ Client.categories data) (Client.tasks data)
  /\ "General" ∈ Client.categories data
  /\ Forall (fun category =>
               exempt category \/
               exists color, Client.categoryColors data !! category = Some color
                             /\ Js.is_hex_color color = true) (Client.categories data) ->
  let next := Client.addCategory h data newCategory newCategoryColor in
  Forall (fun task => Task.category task ∈ Client.categories next) (Client.tasks next)
  /\ "General" ∈ Client.categories next
  /\ Forall (fun category =>
               exempt category \/
               exists color, Client.categoryColors next !! category = Some color
                             /\ Js.is_hex_color color = true) (Client.categories next).
Proof.
  intros Hcolor (Htasks & Hg & Hcolors) next.
  unfold next, Client.addCategory.
  destruct (String.eqb _ ""); [done|]. destruct (existsb _ _); [done|]. simpl.
  assert (Hin : forall x, x ∈ Client.categories data ->
              x ∈ sort (localeCompare h) (Client.categories data ++ [Js.trim newCategory])).
  { intros x Hx. rewrite sort_perm. apply elem_of_app. by left. }
  split; [|split].
  - eapply Forall_impl; [exact Htasks|]. intros task. apply Hin.
  - by apply Hin.
  - apply Forall_forall. intros category Hc. rewrite sort_perm in Hc.
    destruct (decide (Js.trim newCategory = category)) as [<-|Hne].
    + right. exists newCategoryColor. split; [apply lookup_insert_eq|done].
    + rewrite lookup_insert_ne by done.
      apply elem_of_app in Hc as [Hc|Hc%list_elem_of_singleton]; [|congruence].
      rewrite Forall_forall in Hcolors. by apply Hcolors.
Qed.

Lemma deleteCategory_keeps (exempt : string -> Prop) data categoryName :
  Forall (fun task => Task.category task ∈ Client.categories data) (Client.tasks data)
  /\ "General" ∈ Client.categories data
  /\ Forall (fun category =>
               exempt category \/
               exists color, Client.categoryColors data !! category = Some color
                             /\ Js.is_hex_color color = true) (Client.categories data) ->
  let next := Client.deleteCategory data categoryName in
  Forall (fun task => Task.category task ∈ Client.categories next) (Client.tasks next)
  /\ "General" ∈ Client.categories next
  /\ Forall (fun category =>
               exempt category \/
               exists color, Client.categoryColors next !! category = Some color
                             /\ Js.is_hex_color color = true) (Client.categories next).
Proof.
  intros (Htasks & Hg & Hcolors) next.
  unfold next, Client.deleteCategory.
  destruct (String.eqb_spec categoryName "General") as [->|Hne]; [done|]. simpl.
  assert (Hg' : "General"
                ∈ filter (fun item => item <> categoryName) (Client.categories data)).
  { apply list_elem_of_filter. split; [congruence|done]. }
  rewrite bool_decide_eq_true_2 by exact Hg'.
  split; [|split; [exact Hg'|]].
  - apply Forall_fmap. eapply Forall_impl; [exact Htasks|]. intros task Hin. simpl.
    destruct (String.eqb_spec (Task.category task) categoryName) as [E|E]; [exact Hg'|].
    apply list_elem_of_filter. by split.
  - apply Forall_forall. intros category [Hc Hin]%list_elem_of_filter.
    rewrite lookup_delete_ne by congruence.
    rewrite Forall_forall in Hcolors. by apply Hcolors.
Qed.

Lemma categories_ok_exempt tasks categories colors :
  categories_ok tasks categories colors
  <-> Forall (fun task => Task.category task ∈ categories) tasks
      /\ "General" ∈ categories
      /\ Forall (fun category =>
                   False \/ exists color, colors !! category = Some color
                                          /\ Js.is_hex_color color = true) categories.
Proof.
  unfold categories_ok. rewrite !Forall_forall.
  split; intros (Ht & Hg & Hc); (split; [done|]; split; [done|]); intros c Hin.
  - right. by apply Hc.
  - by destruct (Hc c Hin) as [[]|?].
Qed.

Lemma categories_ok_apart_exempt tasks categories colors :
  categories_ok_apart tasks categories colors
  <-> Forall (fun task => Task.category task ∈ categories) tasks
      /\ "General" ∈ categories
      /\ Forall (fun category =>
                   Js.inherited category = true
                   \/ exists color, colors !! category = Some color
                                    /\ Js.is_hex_color color = true) categories.
Proof.
  unfold categories_ok_apart. rewrite !Forall_forall.
  split; intros (Ht & Hg & Hc); (split; [done|]; split; [done|]); intros c Hin.
  - destruct (Js.inherited c) eqn:E; [by left|right; by apply Hc].
  - intros Hown. destruct (Hc c Hin) as [E|?]; [congruence|done].
Qed.

End CategoryInvariant.

(** C2 (as amended). The state the server normaliser returns has every
    task's category among its categories, "General" among its categories,
    and a six-hex-digit colour for every category that is not named like a
    member of [Object.prototype]; no colour it holds is of another form.
    [deleteCategory] keeps the three properties with a colour for every
    category, and so does [addCategory] when the colour it is given is six
    hex digits after a [#], which it does not check; both also keep the
    properties in the form in which the server normaliser establishes
    them. *)
Theorem categories_invariant :
  (forall h payload,
      let s := Server.normalizeState h payload in
      categories_ok_apart (Server.tasks s) (Server.categories s) (Server.categoryColors s)
      /\ colors_valid (Server.categoryColors s))
  /\ (forall h data newCategory newCategoryColor,
        Js.is_hex_color newCategoryColor = true ->
        let next := Client.addCategory h data newCategory newCategoryColor in
        (categories_ok (Client.tasks data) (Client.categories data)
           (Client.categoryColors data) ->
         categories_ok (Client.tasks next) (Client.categories next)
           (Client.categoryColors next))
        /\ (categories_ok_apart (Client.tasks data) (Client.categories data)
              (Client.categoryColors data) ->
            categories_ok_apart (Client.tasks next) (Client.categories next)
              (Client.categoryColors next)))
  /\ (forall data categoryName,
        let next := Client.deleteCategory data categoryName in
        (categories_ok (Client.tasks data) (Client.categories data)
           (Client.categoryColors data) ->
         categories_ok (Client.tasks next) (Client.categories next)
           (Client.categoryColors next))
        /\ (categories_ok_apart (Client.tasks data) (Client.categories data)
              (Client.categoryColors data) ->
            categories_ok_apart (Client.tasks next) (Client.categories next)
              (Client.categoryColors next))).
Proof.
  split; [|split].
  - intros h payload s. split; [apply normalize_categories_ok|].
    apply fill_defaults_valid, collect_colors_valid.
  - intros h data newCategory newCategoryColor Hcolor next. split.
    + rewrite !categories_ok_exempt. by apply addCategory_keeps.
    + rewrite !categories_ok_apart_exempt. by apply addCategory_keeps.
  - intros data categoryName next. split.
    + rewrite !categories_ok_exempt. apply deleteCategory_keeps.
    + rewrite !categories_ok_apart_exempt. apply deleteCategory_keeps.
Qed.

Lemma research_state_ok :
  categories_ok (Client.tasks research_state) (Client.categories research_state)
    (Client.categoryColors research_state).
Proof.
  split; [|split].
  - repeat constructor.
  - repeat constructor.
  - repeat constructor; eexists; split; reflexivity.
Qed.

Lemma categories_invariant_witness :
  (let next := Client.addCategory sample_host research_state " Ideas " "#ff8800" in
   categories_ok (Client.tasks next) (Client.categories next) (Client.categoryColors next))
  /\ (let next := Client.deleteCategory research_state "Research" in
      categories_ok (Client.tasks next) (Client.categories next) (Client.categoryColors next)).
Proof.
  split.
  - refine (proj1 (proj1 (proj2 categories_invariant) sample_host research_state " Ideas "
                     "#ff8800" _) research_state_ok).
    reflexivity.
  - exact (proj1 (proj2 (proj2 categories_invariant) research_state "Research")
             research_state_ok).
Defined.

(** C2 (as stated) fails.  The server normaliser gives no colour to a
    category named "constructor": [categoryColors["constructor"]] is the
    member that every object inherits, so the default is not stored.  And
    [addCategory] stores the colour it is given, whatever it is. *)
Lemma category_without_colour :
  (let s := Server.normalizeState sample_host constructor_category in
   Server.categories s = ["General"; "constructor"]
   /\ Server.categoryColors s !! "constructor" = None
   /\ ~ categories_ok (Server.tasks s) (Server.categories s) (Server.categoryColors s))
  /\ (let next := Client.addCategory sample_host research_state "Ideas" "red" in
      categories_ok (Client.tasks research_state) (Client.categories research_state)
        (Client.categoryColors research_state)
      /\ Client.categoryColors next !! "Ideas" = Some "red"
      /\ ~ categories_ok (Client.tasks next) (Client.categories next)
             (Client.categoryColors next)).
Proof.
  split.
  - split; [reflexivity|]. split; [reflexivity|].
    intros (_ & _ & Hcolors). rewrite Forall_forall in Hcolors.
    destruct (Hcolors "constructor") as (color & Hcolor & _); [by repeat constructor|].
    discriminate.
  - split; [exact research_state_ok|]. split; [reflexivity|].
    intros (_ & _ & Hcolors). rewrite Forall_forall in Hcolors.
    destruct (Hcolors "Ideas") as (color & Hcolor & Hhex); [by repeat constructor|].
    vm_compute in Hcolor. injection Hcolor as <-. discriminate.
Qed.

(** A colour stored under "__proto__" is dropped by both normalisers, and
    the category of that name gets no default colour. *)
Example proto_colour_dropped :
  let document :=
    Js.JObj [("categories", Js.JArr [Js.JStr "__proto__"]);
             ("categoryColors", Js.JObj [("__proto__", Js.JStr "#445566")])] in
  Server.categories (Server.normalizeState sample_host document) = ["General"; "__proto__"]
  /\ Server.categoryColors (Server.normalizeState sample_host document) !! "__proto__" = None
  /\ Client.categories (Client.normalizeState sample_host document) = ["__proto__"]
  /\ Client.categoryColors (Client.normalizeState sample_host document) = ∅.
Proof. repeat split; reflexivity. Qed.

(** Deleting "Research" moves its two tasks to "General" and removes the
    category and its colour. *)
Example delete_research :
  let next := Client.deleteCategory research_state "Research" in
  Task.category <$> Client.tasks next = ["General"; "General"]
  /\ Client.categories next = ["General"]
  /\ Client.categoryColors next !! "Research" = None.
Proof. repeat split; reflexivity. Qed.

Example add_ideas :
  let next := Client.addCategory sample_host research_state " Ideas " "#ff8800" in
  Client.categories next = ["General"; "Ideas"; "Research"]
  /\ Client.categoryColors next !! "Ideas" = Some "#ff8800".
Proof. repeat split; reflexivity. Qed.

(** ** Trimming *)

Section Trim.

Lemma trimStart_clean s : starts_clean (Js.trimStart s).
Proof.
  induction s as [|c s IH]; simpl; [done|].
  destruct (Js.is_space c) eqn:E; [exact IH|exact E].
Qed.

Lemma trimStart_id s : starts_clean s -> Js.trimStart s = s.
Proof. destruct s as [|c s]; simpl; [done|]. by intros ->. Qed.

Lemma trimEnd_clean s : starts_clean s -> starts_clean (Js.trimEnd s).
Proof.
  destruct s as [|c s]; simpl; [done|]. intros E.
  destruct (Js.trimEnd s); [by rewrite E|done].
Qed.

Lemma trimEnd_idem s : Js.trimEnd (Js.trimEnd s) = Js.trimEnd s.
Proof.
  induction s as [|c s IH]; simpl; [done|].
  destruct (Js.trimEnd s) as [|a t] eqn:E.
  - destruct (Js.is_space c) eqn:Ec; simpl; [done|]. by rewrite Ec.
  - simpl in *. by rewrite IH.
Qed.

Lemma trim_idem s : Js.trim (Js.trim s) = Js.trim s.
Proof.
  unfold Js.trim.
  rewrite (trimStart_id (Js.trimEnd (Js.trimStart s))).
  - apply trimEnd_idem.
  - apply trimEnd_clean, trimStart_clean.
Qed.

Lemma trimEnd_no_space s : no_space s = true -> Js.trimEnd s = s.
Proof.
  induction s as [|c s IH]; simpl; [done|].
  intros [Hc Hs]%andb_prop. rewrite (IH Hs).
  destruct s; [|done]. by destruct (Js.is_space c).
Qed.

Lemma trim_no_space s : no_space s = true -> Js.trim s = s.
Proof.
  intros H. unfold Js.trim. rewrite trimStart_id.
  - by apply trimEnd_no_space.
  - destruct s; [done|]. simpl in *. apply andb_prop in H as [H _].
    by destruct (Js.is_space a).
Qed.

Lemma hex_digit_no_space c : Js.is_hex_digit c = true -> Js.is_space c = false.
Proof.
  unfold Js.is_hex_digit, Js.is_space.
  destruct c as [[] [] [] [] [] [] [] []]; vm_compute; congruence.
Qed.

Lemma hex_color_no_space s : Js.is_hex_color s = true -> no_space s = true /\ s <> "".
Proof.
  unfold Js.is_hex_color.
  destruct s as [|c0 s]; [done|].
  destruct (Ascii.eqb_spec c0 "#") as [->|Hne].
  2:{ destruct c0 as [[] [] [] [] [] [] [] []]; try done. }
  do 6 (destruct s as [|? s]; [done|]). destruct s; [|done].
  intros H. repeat (apply andb_prop in H as [H ?]).
  split; [|done]. simpl.
  repeat match goal with
         | H : Js.is_hex_digit _ = true |- _ => apply hex_digit_no_space in H; rewrite H
         end.
  reflexivity.
Qed.

Lemma hex_color_trim s : Js.is_hex_color s = true -> Js.trim s = s.
Proof. intros H. apply trim_no_space. by apply hex_color_no_space. Qed.

End Trim.

(** ** The server normaliser on its own output *)

Section Canonical.

Variable h : Host.

Lemma trimmed_General : trimmed "General".
Proof. by split. Qed.

Lemma clean_categories_trimmed items : Forall trimmed (Server.clean_categories items).
Proof.
  apply Forall_forall. intros x (Hne & raw & ->)%clean_categories_elem.
  split; [apply trim_idem|done].
Qed.

Lemma with_general_trimmed categories :
  Forall trimmed categories -> Forall trimmed (Server.with_general categories).
Proof.
  intros H. unfold Server.with_general. case_bool_decide; [done|].
  constructor; [apply trimmed_General|done].
Qed.

Lemma with_general_NoDup categories : NoDup categories -> NoDup (Server.with_general categories).
Proof.
  intros H. unfold Server.with_general. case_bool_decide; [done|]. by constructor.
Qed.

Lemma colors_wf_insert m key color :
  colors_wf m -> trimmed key -> Js.is_hex_color color = true -> colors_wf (<[key := color]> m).
Proof.
  intros Hm Hk Hc key' color'. destruct (decide (key = key')) as [<-|Hne].
  - rewrite lookup_insert_eq. by intros [= <-].
  - rewrite lookup_insert_ne by done. apply Hm.
Qed.

Lemma collect_colors_wf rawColors : colors_wf (Server.collect_colors rawColors).
Proof.
  unfold Server.collect_colors.
  assert (He : colors_wf ∅) by (intros ? ?; by rewrite lookup_empty).
  destruct rawColors as [raw|]; [|done].
  destruct (_ && _); [|done].
  apply (fold_left_invariant colors_wf); [done|].
  intros m [key value] _ Hm.
  destruct (negb _ && Js.is_hex_color _) eqn:E; [|done].
  apply andb_prop in E as [E1 E2]. apply assign_invariant; [done|].
  apply colors_wf_insert; [done| |done].
  split; [apply trim_idem|]. apply negb_true_iff, String.eqb_neq in E1. done.
Qed.

Lemma fill_defaults_wf categories m :
  Forall trimmed categories -> colors_wf m -> colors_wf (Server.fill_defaults categories m).
Proof.
  intros Hc Hm. unfold Server.fill_defaults.
  apply (fold_left_invariant colors_wf); [done|].
  intros m' category Hin Hm'. destruct (Js.lacks m' category); [|done].
  apply assign_invariant; [done|].
  apply colors_wf_insert; [done| |done]. rewrite Forall_forall in Hc. by apply Hc.
Qed.

Lemma colors_wf_valid m : colors_wf m -> colors_valid m.
Proof. intros H key color Hk. by apply (H key color). Qed.

(** The server normaliser returns canonical states. *)
Lemma normalize_canonical payload : canonical (Server.normalizeState h payload).
Proof.
  set (items := match Js.prop "categories" payload with
                | Some (Js.JArr items) => items
                | _ => [Js.JStr "General"]
                end).
  assert (Ht : Forall trimmed (Server.with_general (Server.clean_categories items))).
  { apply with_general_trimmed, clean_categories_trimmed. }
  pose proof (collect_colors_wf (Js.prop "categoryColors" payload)) as Hw.
  destruct (normalize_categories_ok h payload) as (Htasks & Hg & Hcolors).
  split; simpl.
  - exact Ht.
  - apply with_general_NoDup, dedupe_from_NoDup.
  - exact Hg.
  - by apply fill_defaults_wf.
  - intros category Hin. rewrite Forall_forall in Hcolors.
    destruct (Js.inherited category) eqn:Hown; [by right|left].
    destruct (Hcolors category Hin Hown) as (color & Hc & _). exists color. exact Hc.
  - apply fill_defaults_proto, collect_colors_proto.
  - apply Forall_forall. intros task Hin. split.
    + rewrite Forall_forall in Htasks. by apply Htasks.
    + by apply elem_of_lookup_imap in Hin as (i & raw & -> & _).
Qed.

End Canonical.

Section FixedPoint.

Variable h : Host.

Lemma string_or_str d s : s <> "" \/ d = "" -> Js.string_or d (Some (Js.JStr s)) = s.
Proof.
  intros H. unfold Js.string_or. simpl.
  destruct (String.eqb_spec s "") as [->|Hne]; simpl; [|done].
  by destruct H.
Qed.

Lemma safeTask_fixed categories index task :
  task_settled task -> Task.category task ∈ categories -> "" ∉ categories ->
  Task.order task = None ->
  Server.safeTask h categories index (Task.to_json task) = task.
Proof.
  destruct task as [id name description priority category taskType meetingTime date
                      done hidden createdAt order].
  unfold task_settled. simpl. intros (Hid & Hp & Ht & Hd & Hc) Hin He ->.
  unfold Server.safeTask. cbn [Task.to_json Task.id Task.name Task.description Task.priority
    Task.category Task.taskType Task.meetingTime Task.date Task.done Task.hidden
    Task.createdAt Task.order app Js.prop Js.assoc String.eqb Ascii.eqb Bool.eqb].
  rewrite !string_or_str by auto.
  rewrite bool_decide_eq_true_2 by done.
  f_equal; try reflexivity.
  simpl. simpl in Hc. by rewrite Hc.
Qed.

Lemma clean_categories_fixed categories :
  Forall trimmed categories -> NoDup categories ->
  Server.clean_categories (Js.JStr <$> categories) = categories.
Proof.
  intros Ht Hn. unfold Server.clean_categories.
  rewrite <- list_fmap_compose.
  rewrite (list_fmap_ext _ id categories).
  2:{ intros i x Hx. rewrite Forall_forall in Ht.
      destruct (Ht x) as [Hx1 Hx2]; [by eapply list_elem_of_lookup_2|].
      unfold compose, id. by rewrite string_or_str by auto. }
  rewrite list_fmap_id.
  rewrite filter_all by (eapply Forall_impl; [exact Ht|]; by intros x [_ ?]).
  apply dedupe_from_id; [done|]. intros x _. apply not_elem_of_nil.
Qed.

Lemma with_general_fixed categories :
  "General" ∈ categories -> Server.with_general categories = categories.
Proof. intros H. unfold Server.with_general. by rewrite bool_decide_eq_true_2. Qed.

Lemma fold_insert_lookup (l : list (string * string)) (acc : gmap string string) key :
  NoDup l.*1 ->
  fold_left (fun m '(k, v) => <[k := v]> m) l acc !! key
  = match (list_to_map l : gmap string string) !! key with
    | Some v => Some v
    | None => acc !! key
    end.
Proof.
  revert acc. induction l as [|[k v] l IH]; intros acc Hn; simpl.
  - by rewrite lookup_empty.
  - apply NoDup_cons in Hn as [Hk Hn]. rewrite IH by done.
    destruct (decide (k = key)) as [->|Hne].
    + rewrite (not_elem_of_list_to_map_1 _ _ Hk), !lookup_insert_eq. done.
    + by rewrite !lookup_insert_ne.
Qed.

Lemma collect_fold_plain (l : list (string * string)) (acc : gmap string string) :
  Forall (fun kv => trimmed kv.1 /\ Js.is_hex_color kv.2 = true /\ kv.1 <> "__proto__") l ->
  fold_left
    (fun categoryColors '(key, value) =>
       let category := Js.trim key in
       let color := Js.trim (Js.string_or "" (Some value)) in
       if negb (String.eqb category "") && Js.is_hex_color color
       then Js.assign category color categoryColors
       else categoryColors)
    ((fun '(k, v) => (k, Js.JStr v)) <$> l) acc
  = fold_left (fun m '(k, v) => <[k := v]> m) l acc.
Proof.
  intros Hl. revert acc.
  induction Hl as [|[k v] l ([Hk1 Hk2] & Hv & Hp) _ IH]; intros acc; simpl; [done|].
  simpl in *. rewrite <- IH.
  rewrite Hk1. apply String.eqb_neq in Hk2. rewrite Hk2.
  pose proof (hex_color_no_space _ Hv) as [_ Hne]. apply String.eqb_neq in Hne.
  rewrite Hne. simpl. rewrite (hex_color_trim _ Hv), Hv. by rewrite assign_other.
Qed.

(** The keys of a map without "__proto__". *)
Lemma keys_not_proto {V} (m : gmap string V) key (value : V) :
  m !! "__proto__" = None -> (key, value) ∈ map_to_list m -> key <> "__proto__".
Proof. intros Hm Hin%elem_of_map_to_list ->. congruence. Qed.

Lemma collect_colors_fixed (m : gmap string string) :
  colors_wf m -> m !! "__proto__" = None ->
  Server.collect_colors
    (Some (Js.JObj ((fun '(k, v) => (k, Js.JStr v)) <$> map_to_list m))) = m.
Proof.
  intros Hm Hown. unfold Server.collect_colors.
  cbn [Js.truthy Js.is_object andb Js.entries].
  rewrite collect_fold_plain.
  2:{ apply Forall_forall. intros [k v] Hin.
      pose proof (keys_not_proto m k v Hown Hin) as Hk.
      apply elem_of_map_to_list in Hin. destruct (Hm k v Hin). done. }
  apply map_eq. intros key.
  rewrite fold_insert_lookup by apply NoDup_fst_map_to_list.
  rewrite list_to_map_to_list, lookup_empty. by destruct (m !! key).
Qed.

Lemma fill_defaults_fixed categories (m : gmap string string) :
  colors_valid m ->
  (forall category, category ∈ categories ->
                    is_Some (m !! category) \/ Js.inherited category = true) ->
  Server.fill_defaults categories m = m.
Proof.
  intros Hm Hc. unfold Server.fill_defaults.
  induction categories as [|c categories IH]; simpl; [done|].
  assert (Hnot : Js.lacks m c = false).
  { destruct (m !! c) as [color|] eqn:Hcolor.
    - exact (valid_not_lacking _ _ _ Hcolor (Hm _ _ Hcolor)).
    - unfold Js.lacks. rewrite Hcolor.
      destruct (Hc c) as [[? ?]|Hown]; [left|congruence|by rewrite Hown]. }
  rewrite Hnot. apply IH. intros category Hin. apply Hc. by right.
Qed.

Lemma task_objects_kept (tasks : list Task.t) :
  List.filter (fun task => Js.truthy task && Js.is_object task) (Task.to_json <$> tasks)
  = Task.to_json <$> tasks.
Proof.
  induction tasks as [|task tasks IH]; [done|].
  rewrite fmap_cons. change (Task.to_json task :: List.filter
    (fun task => Js.truthy task && Js.is_object task) (Task.to_json <$> tasks)
    = Task.to_json task :: (Task.to_json <$> tasks)).
  by rewrite IH.
Qed.

End FixedPoint.

(** C1 (as amended). On every input whose normalised state is settled (its
    [selectedDate] is not empty, and every task has a non-empty [id],
    [priority], [taskType] and [date] and a [createdAt] that is neither 0 nor
    [NaN]) the server normaliser is idempotent. *)
Theorem normalize_idempotent (h : Host) (payload : Js.jval) :
  settled (Server.normalizeState h payload) ->
  Server.normalizeState h (Server.to_json (Server.normalizeState h payload))
  = Server.normalizeState h payload.
Proof.
  intros Hsettled. pose proof (normalize_canonical h payload) as Hcanonical.
  revert Hsettled Hcanonical. generalize (Server.normalizeState h payload).
  intros s [Hd Hs] [Ht Hn Hg Hw Hc Hown Hl].
  destruct s as [tasks categories categoryColors selectedDate]. simpl in *.
  unfold Server.normalizeState.
  cbn [Server.to_json Server.tasks Server.categories Server.categoryColors
       Server.selectedDate Js.prop Js.assoc String.eqb Ascii.eqb Bool.eqb].
  (* the categories, the colours and the date come back as they are *)
  rewrite clean_categories_fixed, with_general_fixed by done.
  rewrite collect_colors_fixed by done.
  rewrite fill_defaults_fixed by (by auto using colors_wf_valid).
  rewrite string_or_str by auto.
  (* and so does every task *)
  rewrite task_objects_kept, imap_fmap.
  f_equal.
  rewrite (imap_ext _ (fun _ task => task)); [by rewrite (imap_const id), list_fmap_id|].
  intros i task Hi. simpl.
  assert (Hin : task ∈ tasks) by (by eapply list_elem_of_lookup_2).
  rewrite Forall_forall in Hs, Hl. destruct (Hl task Hin) as [Hcat Ho].
  apply safeTask_fixed; [by apply Hs|done| |done].
  intros He. rewrite Forall_forall in Ht. by destruct (Ht "" He).
Qed.

Lemma normalize_idempotent_witness :
  Server.normalizeState sample_host
    (Server.to_json (Server.normalizeState sample_host untidy_document))
  = Server.normalizeState sample_host untidy_document.
Proof.
  apply (normalize_idempotent sample_host untidy_document).
  split; [discriminate|].
  repeat constructor; discriminate.
Defined.

Example normalize_untidy :
  let s := Server.normalizeState sample_host untidy_document in
  Server.categories s = ["General"; "Research"]
  /\ Server.categoryColors s !! "Research" = Some "#ABCDEF"
  /\ Server.categoryColors s !! "General" = Some "#4f8dfd"
  /\ Server.categoryColors s !! "Idle" = None
  /\ Server.tasks s
     = [Task.mk "t1" "Read papers" "" "Medium" "Research" "Work" "" "2026-03-01" true false
          (Js.Num 1772323200000) None].
Proof. repeat split; reflexivity. Qed.

(** C1 (as stated) fails: an empty array for [selectedDate] is truthy and
    prints as the empty string, which a second pass replaces by today. *)
Lemma normalize_not_idempotent :
  Server.normalizeState sample_host
    (Server.to_json (Server.normalizeState sample_host empty_array_date))
  <> Server.normalizeState sample_host empty_array_date.
Proof.
  intros H. apply (f_equal Server.selectedDate) in H. vm_compute in H. discriminate.
Qed.

(** ** The client normaliser on what the server returns *)

Section ClientOnServer.

Variable h : Host.

Lemma assoc_colors (l : list (string * string)) key :
  NoDup l.*1 ->
  Js.assoc key ((fun '(k, v) => (k, Js.JStr v)) <$> l)
  = Js.JStr <$> (list_to_map l : gmap string string) !! key.
Proof.
  induction l as [|[k v] l IH]; intros Hn; simpl.
  - by rewrite lookup_empty.
  - apply NoDup_cons in Hn as [Hk Hn].
    destruct (String.eqb_spec key k) as [->|Hne].
    + by rewrite lookup_insert_eq.
    + rewrite lookup_insert_ne by done. by apply IH.
Qed.

Lemma client_colors_fold (m : gmap string string) (keys : list string)
    (acc : gmap string string) key :
  colors_valid m -> m !! "__proto__" = None ->
  Forall (fun k => is_Some (m !! k)) keys ->
  fold_left
    (fun map key =>
       let value :=
         Js.trim (Js.string_or ""
                    (Js.assoc key ((fun '(k, v) => (k, Js.JStr v)) <$> map_to_list m))) in
       if Js.is_hex_color value then Js.assign key value map else map)
    keys acc !! key
  = if bool_decide (key ∈ keys) then m !! key else acc !! key.
Proof.
  intros Hm Hown Hk. revert acc.
  induction Hk as [|k keys [v Hv] _ IH]; intros acc; simpl; [done|].
  rewrite IH.
  rewrite assoc_colors, list_to_map_to_list, Hv by apply NoDup_fst_map_to_list.
  pose proof (Hm k v Hv) as Hc. simpl in Hc.
  cbn [fmap option_fmap option_map].
  rewrite string_or_str by (left; by apply hex_color_no_space).
  rewrite (hex_color_trim _ Hc), Hc.
  rewrite assign_other by (intros ->; congruence).
  destruct (decide (key = k)) as [->|Hne].
  - rewrite (bool_decide_eq_true_2 (k ∈ k :: keys)) by left. rewrite lookup_insert_eq.
    case_bool_decide; done.
  - rewrite lookup_insert_ne by done.
    case_bool_decide as H1; case_bool_decide as H2; try done.
    + exfalso. apply H2. by right.
    + apply elem_of_cons in H2 as [?|?]; done.
Qed.

Lemma buildCategoryColors_fixed categories (m : gmap string string) :
  colors_valid m -> m !! "__proto__" = None ->
  (forall category,
      category ∈ match categories with [] => ["General"] | _ => categories end ->
      is_Some (m !! category) \/ Js.inherited category = true) ->
  Client.buildCategoryColors
    (Some (Js.JObj ((fun '(k, v) => (k, Js.JStr v)) <$> map_to_list m))) categories = m.
Proof.
  intros Hm Hown Hc. unfold Client.buildCategoryColors.
  cbn [Js.truthy Js.is_object andb Js.entries].
  set (collected := fold_left _ _ ∅).
  assert (collected = m) as ->.
  { apply map_eq. intros key. unfold collected.
    rewrite (client_colors_fold m _ ∅ key Hm Hown).
    - rewrite lookup_empty. case_bool_decide as Hin; [done|].
      destruct (m !! key) as [v|] eqn:E; [|done].
      exfalso. apply Hin. rewrite <- list_fmap_compose.
      apply list_elem_of_fmap. exists (key, v). split; [done|].
      by apply elem_of_map_to_list.
    - apply Forall_forall. intros k Hk. rewrite <- list_fmap_compose in Hk.
      apply list_elem_of_fmap in Hk as ([k' v] & -> & Hin%elem_of_map_to_list).
      by exists v. }
  by apply (fill_defaults_fixed _ m).
Qed.

End ClientOnServer.

(** C3 (as amended). On raw documents the two normalisers differ: the
    server puts "General" among the categories, trims the keys of the colours
    and coerces every task field, and returns neither [sortBy] nor
    [pomodoroTimers].  On a state the server normaliser returned, with a
    [selectedDate] that is not empty, the client normaliser changes none of
    [tasks], [categories], [categoryColors] and [selectedDate], and sets
    [sortBy] to "priority" and [pomodoroTimers] to the empty map. *)
Theorem client_keeps_server_state (h : Host) (payload : Js.jval) :
  let s := Server.normalizeState h payload in
  Server.selectedDate s <> "" ->
  Client.normalizeState h (Server.to_json s)
  = {| Client.tasks := Task.to_json <$> Server.tasks s;
       Client.categories := Server.categories s;
       Client.categoryColors := Server.categoryColors s;
       Client.selectedDate := Server.selectedDate s;
       Client.sortBy := "priority";
       Client.pomodoroTimers := ∅ |}.
Proof.
  intros s. pose proof (normalize_canonical h payload) as Hcanonical. fold s in Hcanonical.
  revert Hcanonical. generalize s. clear s.
  intros s [Ht Hn Hg Hw Hc Hown Hl] Hd.
  destruct s as [tasks categories categoryColors selectedDate]. simpl in *.
  unfold Client.normalizeState.
  cbn [Server.to_json Server.tasks Server.categories Server.categoryColors
       Server.selectedDate Js.prop Js.assoc String.eqb Ascii.eqb Bool.eqb
       Js.truthy Js.is_object negb orb].
  rewrite clean_categories_fixed by done.
  assert (Hne : categories <> []) by (intros ->; by apply elem_of_nil in Hg).
  rewrite buildCategoryColors_fixed
    by (by auto using colors_wf_valid || by destruct categories).
  apply String.eqb_neq in Hd. rewrite Hd.
  destruct categories; done.
Qed.

Lemma client_keeps_server_state_witness :
  Client.categories
    (Client.normalizeState sample_host
       (Server.to_json (Server.normalizeState sample_host untidy_document)))
  = ["General"; "Research"].
Proof.
  rewrite (client_keeps_server_state sample_host untidy_document); [reflexivity|].
  discriminate.
Defined.

(** C3 (as stated) fails: on categories without "General" the server adds
    it and the client does not. *)
Lemma normalizers_differ :
  Server.categories (Server.normalizeState sample_host work_only) = ["General"; "Work"]
  /\ Client.categories (Client.normalizeState sample_host work_only) = ["Work"].
Proof. split; reflexivity. Qed.

(** ** The progress percentage *)

Section FloatFacts.

Import Float.

Lemma pow2_pos e : 0 < pow2 e.
Proof. unfold pow2. apply Z.pow_pos_nonneg; lia. Qed.

Lemma pow2_nonneg_exp e : 0 <= e -> pow2 e = 2 ^ e /\ (0 < e -> pow2 (- e) = 1).
Proof.
  intros He. unfold pow2. split.
  - f_equal. lia.
  - intros H. replace (Z.max (- e) 0) with 0 by lia. reflexivity.
Qed.

Lemma pow2_succ e : 0 <= e -> pow2 (e + 1) = 2 * pow2 e /\ pow2 (- (e + 1)) = pow2 (- e).
Proof.
  intros He. unfold pow2. split.
  - replace (Z.max (e + 1) 0) with (Z.max e 0 + 1) by lia.
    rewrite Z.pow_add_r by lia. lia.
  - f_equal. lia.
Qed.

Lemma pow2_pred e : e < 0 -> pow2 (e + 1) = pow2 e /\ pow2 (- e) = 2 * pow2 (- (e + 1)).
Proof.
  intros He. unfold pow2. split.
  - f_equal. lia.
  - replace (Z.max (- e) 0) with (Z.max (- (e + 1)) 0 + 1) by lia.
    rewrite Z.pow_add_r by lia. lia.
Qed.

Lemma nearest_even_error n d : 0 < d -> 2 * Z.abs (nearest_even n d * d - n) <= d.
Proof.
  intros Hd. unfold nearest_even.
  pose proof (Z.div_mod n d ltac:(lia)) as Hn.
  pose proof (Z.mod_pos_bound n d Hd) as Hr.
  set (q := n / d) in *. set (r := n mod d) in *.
  destruct (Z.ltb_spec (2 * r) d); [lia|].
  destruct (Z.ltb_spec d (2 * r)); [lia|].
  destruct (Z.even q); lia.
Qed.

Lemma round_lower n d :
  0 < n -> 0 < d ->
  let e := exponent (round n d) in
  2 ^ 52 * (d * pow2 e) <= n * pow2 (- e).
Proof.
  intros Hn Hd. unfold round.
  destruct (Z.leb_spec n 0); [lia|].
  set (e0 := Z.log2 n - Z.log2 d - 53).
  destruct (Z.ltb_spec (n * pow2 (- e0)) (2 ^ 53 * (d * pow2 e0))) as [Hlt|Hge];
    cbn [exponent].
  - pose proof (Z.log2_spec n Hn) as [Hn1 Hn2].
    pose proof (Z.log2_spec d Hd) as [Hd1 Hd2].
    pose proof (Z.log2_nonneg n). pose proof (Z.log2_nonneg d).
    destruct (Z.le_gt_cases 0 e0) as [He|He].
    + destruct (pow2_nonneg_exp e0 He) as [-> _].
      assert (pow2 (- e0) = 1) as ->.
      { unfold pow2. replace (Z.max (- e0) 0) with 0 by lia. reflexivity. }
      assert (Hp : 2 ^ 52 * (2 ^ Z.succ (Z.log2 d) * 2 ^ e0) = 2 ^ Z.log2 n).
      { rewrite <- !Z.pow_add_r by lia. f_equal. unfold e0. lia. }
      assert (d * 2 ^ e0 <= 2 ^ Z.succ (Z.log2 d) * 2 ^ e0).
      { apply Z.mul_le_mono_nonneg_r; [apply Z.pow_nonneg|]; lia. }
      revert Hp H2 Hn1. generalize (2 ^ e0) (2 ^ Z.succ (Z.log2 d)) (2 ^ Z.log2 n).
      change (2 ^ 52) with 4503599627370496. intros. lia.
    + assert (pow2 e0 = 1) as ->.
      { unfold pow2. replace (Z.max e0 0) with 0 by lia. reflexivity. }
      assert (pow2 (- e0) = 2 ^ (- e0)) as ->.
      { unfold pow2. f_equal. lia. }
      assert (Hp : 2 ^ Z.log2 n * 2 ^ (- e0) = 2 ^ 52 * 2 ^ Z.succ (Z.log2 d)).
      { rewrite <- !Z.pow_add_r by lia. f_equal. unfold e0. lia. }
      assert (2 ^ Z.log2 n * 2 ^ (- e0) <= n * 2 ^ (- e0)).
      { apply Z.mul_le_mono_nonneg_r; [apply Z.pow_nonneg|]; lia. }
      revert Hp H2 Hd2. generalize (2 ^ (- e0)) (2 ^ Z.succ (Z.log2 d)) (2 ^ Z.log2 n).
      change (2 ^ 52) with 4503599627370496. intros. lia.
  - destruct (Z.le_gt_cases 0 e0) as [He|He].
    + destruct (pow2_succ e0 He) as [-> ->]. lia.
    + destruct (pow2_pred e0 He) as [E1 E2]. rewrite E1. rewrite E2 in Hge. lia.
Qed.

Lemma round_rel_error n d :
  0 < n -> 0 < d ->
  let x := round n d in
  0 < den x /\ 2 ^ 53 * Z.abs (num x * d - n * den x) <= n * den x.
Proof.
  intros Hn Hd x. pose proof (round_lower n d Hn Hd) as Hl. cbv zeta in Hl.
  fold x in Hl. unfold num, den. split; [apply pow2_pos|].
  assert (Hm : mantissa x = nearest_even (n * pow2 (- exponent x)) (d * pow2 (exponent x))).
  { unfold x, round. destruct (Z.leb_spec n 0); [lia|]. reflexivity. }
  pose proof (pow2_pos (exponent x)) as Ha.
  pose proof (nearest_even_error (n * pow2 (- exponent x)) (d * pow2 (exponent x))
                ltac:(lia)) as He.
  rewrite <- Hm in He.
  set (a := pow2 (exponent x)) in *. set (b := pow2 (- exponent x)) in *.
  set (m := mantissa x) in *.
  replace (m * a * d - n * b) with (m * (d * a) - n * b) by ring.
  lia.
Qed.

Lemma err_compose E D N1 D1 N2 D2 :
  0 < E <= D -> 0 < D1 -> 0 < D2 ->
  9007199254740992 * Z.abs (N1 * D - E * D1) <= E * D1 ->
  9007199254740992 * Z.abs (N2 * D1 - N1 * 100 * D2) <= N1 * 100 * D2 ->
  35184372088832 * Z.abs (N2 * D - 100 * E * D2) < D * D2.
Proof.
  intros HE HD1 HD2 H1 H2.
  set (A1 := Z.abs (N1 * D - E * D1)) in *.
  set (A2 := Z.abs (N2 * D1 - N1 * 100 * D2)) in *.
  set (T := Z.abs (N2 * D - 100 * E * D2)).
  assert (HA1 : 0 <= A1) by apply Z.abs_nonneg.
  assert (HA2 : 0 <= A2) by apply Z.abs_nonneg.
  assert (HT : T * D1 <= D * A2 + 100 * D2 * A1).
  { assert (Hid : (N2 * D - 100 * E * D2) * D1
                  = D * (N2 * D1 - N1 * 100 * D2) + 100 * D2 * (N1 * D - E * D1)) by ring.
    unfold T. rewrite <- (Z.abs_eq D1) at 1 by lia. rewrite <- Z.abs_mul, Hid.
    etransitivity; [apply Z.abs_triangle|].
    rewrite (Z.abs_mul D), (Z.abs_mul (100 * D2)).
    rewrite (Z.abs_eq D), (Z.abs_eq (100 * D2)) by lia. reflexivity. }
  assert (HN1 : 9007199254740992 * (N1 * D) <= 9007199254740993 * (E * D1)).
  { unfold A1 in H1. lia. }
  assert (S1 : 9007199254740992 * (D * A2) <= 100 * D2 * (N1 * D)).
  { replace (100 * D2 * (N1 * D)) with (D * (N1 * 100 * D2)) by ring.
    replace (9007199254740992 * (D * A2)) with (D * (9007199254740992 * A2)) by ring.
    apply Z.mul_le_mono_nonneg_l; lia. }
  assert (S2 : 9007199254740992 * (100 * D2 * (N1 * D))
               <= 9007199254740993 * (100 * D2 * (E * D1))).
  { replace (9007199254740992 * (100 * D2 * (N1 * D)))
      with (100 * D2 * (9007199254740992 * (N1 * D))) by ring.
    replace (9007199254740993 * (100 * D2 * (E * D1)))
      with (100 * D2 * (9007199254740993 * (E * D1))) by ring.
    apply Z.mul_le_mono_nonneg_l; lia. }
  assert (S3 : 9007199254740992 * (100 * D2 * A1) <= 100 * D2 * (E * D1)).
  { replace (9007199254740992 * (100 * D2 * A1))
      with (100 * D2 * (9007199254740992 * A1)) by ring.
    apply Z.mul_le_mono_nonneg_l; lia. }
  assert (S4 : 100 * D2 * (E * D1) <= 100 * (D * D2) * D1).
  { replace (100 * D2 * (E * D1)) with (100 * D2 * D1 * E) by ring.
    replace (100 * (D * D2) * D1) with (100 * D2 * D1 * D) by ring.
    apply Z.mul_le_mono_nonneg_l; [|lia].
    apply Z.mul_nonneg_nonneg; lia. }
  assert (S5 : 81129638414606681695789005144064 * (T * D1)
               <= 1801439850948198500 * (D * D2) * D1).
  { lia. }
  assert (S6 : 81129638414606681695789005144064 * T <= 1801439850948198500 * (D * D2)).
  { apply (Z.mul_le_mono_pos_r _ _ D1); [lia|]. lia. }
  assert (0 < D * D2) by (apply Z.mul_pos_pos; lia).
  lia.
Qed.

Lemma round_compare D E N2 D2 :
  1 <= D < 17592186044416 -> 0 <= E <= D -> 0 < D2 ->
  35184372088832 * Z.abs (N2 * D - 100 * E * D2) < D * D2 ->
  let R := (2 * N2 + D2) / (2 * D2) in
  let X := (200 * E + D) / (2 * D) in
  R = X \/ ((200 * E + D) mod (2 * D) = 0 /\ R = X - 1).
Proof.
  intros HD HE HD2 Hc R X.
  pose proof (Z.div_mod (2 * N2 + D2) (2 * D2) ltac:(lia)) as HR.
  pose proof (Z.mod_pos_bound (2 * N2 + D2) (2 * D2) ltac:(lia)) as HRr.
  pose proof (Z.div_mod (200 * E + D) (2 * D) ltac:(lia)) as HX.
  pose proof (Z.mod_pos_bound (200 * E + D) (2 * D) ltac:(lia)) as HXr.
  fold R in HR. fold X in HX.
  set (rr := (2 * N2 + D2) mod (2 * D2)) in *.
  set (rx := (200 * E + D) mod (2 * D)) in *.
  set (T := N2 * D - 100 * E * D2) in *.
  assert (HT : 2 * Z.abs T < D2).
  { assert (35184372088832 * Z.abs T < 17592186044416 * D2); [|lia].
    eapply Z.lt_le_trans; [exact Hc|]. apply Z.mul_le_mono_nonneg_r; lia. }
  (* 2 T = D (2 D2 R + rr - D2) - D2 (2 D X + rx - D) *)
  assert (Hid : 2 * T = 2 * (D * D2) * (R - X) + D * rr - D2 * rx).
  { unfold T. nia. }
  assert (HP : 0 < D * D2) by (apply Z.mul_pos_pos; lia).
  assert (Hb1 : 0 <= D * rr < 2 * (D * D2)) by nia.
  assert (Hb2 : 0 <= D2 * rx < 2 * (D * D2)) by nia.
  assert (Hlow : rx = 0 \/ D2 <= D2 * rx) by nia.
  assert (Hhigh : D2 * rx <= 2 * (D * D2) - D2) by nia.
  assert (HRX : R - X <= 0 /\ -1 <= R - X).
  { split.
    - destruct (Z.le_gt_cases (R - X) 0) as [|Hgt]; [assumption|].
      assert (2 * (D * D2) <= 2 * (D * D2) * (R - X)) by nia. lia.
    - destruct (Z.le_gt_cases (-1) (R - X)) as [|Hlt]; [assumption|].
      assert (2 * (D * D2) * (R - X) <= - 2 * (2 * (D * D2))) by nia. lia. }
  destruct (Z.eq_dec (R - X) 0) as [E0|E0]; [left; lia|].
  right. assert (R - X = -1) as E1 by lia. split; [|lia].
  destruct Hlow as [?|Hlow]; [assumption|].
  rewrite E1 in Hid. lia.
Qed.

End FloatFacts.

Section Percent.

Lemma of_Z_fraction z : Float.num (Float.of_Z z) = z /\ Float.den (Float.of_Z z) = 1.
Proof. split; [change (z * 1 = z); lia|reflexivity]. Qed.

Lemma percent_of_zero D :
  Float.Math_round (Float.mul (Float.div (Float.of_Z 0) (Float.of_Z D)) (Float.of_Z 100)) = 0.
Proof. reflexivity. Qed.

(** The product is within [2^-45] of [100 * E / D]. *)
Lemma percent_close E D :
  0 < E <= D ->
  let y := Float.mul (Float.div (Float.of_Z E) (Float.of_Z D)) (Float.of_Z 100) in
  0 < Float.den y
  /\ 35184372088832 * Z.abs (Float.num y * D - 100 * E * Float.den y) < D * Float.den y.
Proof.
  intros HE y. unfold y, Float.div, Float.mul.
  destruct (of_Z_fraction E) as [-> ->]. destruct (of_Z_fraction D) as [-> ->].
  destruct (of_Z_fraction 100) as [-> ->].
  rewrite !Z.mul_1_r, Z.mul_1_l.
  destruct (round_rel_error E D) as [HD1 H1]; [lia..|].
  set (x1 := Float.round E D) in *.
  change (2 ^ 53) with 9007199254740992 in H1.
  assert (HN1 : 0 < Float.num x1).
  { assert (0 < Float.num x1 * D); [|nia].
    assert (0 < E * Float.den x1) by (apply Z.mul_pos_pos; lia). lia. }
  destruct (round_rel_error (Float.num x1 * 100) (Float.den x1)) as [HD2 H2]; [lia..|].
  set (x2 := Float.round (Float.num x1 * 100) (Float.den x1)) in *.
  change (2 ^ 53) with 9007199254740992 in H2.
  split; [exact HD2|].
  by apply (err_compose E D (Float.num x1) (Float.den x1)).
Qed.

End Percent.

(** C9 (as amended). For a duration [d] with [1 <= d < 2^44] and a
    remaining time [r] with [0 <= r <= d] the displayed percentage is
    [round(100 * (d - r) / d)], except that a value exactly halfway between
    two integers comes out as either of them.  Other arguments are first
    brought into this range: a duration of 0 counts as 1800 and a negative one
    as 1, and the remaining time is clamped between 0 and the duration. *)
Theorem progress_percent :
  (forall remainingSeconds durationSeconds,
      1 <= durationSeconds < 2 ^ 44 ->
      0 <= remainingSeconds <= durationSeconds ->
      let p := Client.getPomodoroProgressPercent remainingSeconds durationSeconds in
      let exact := round_half_up (100 * (durationSeconds - remainingSeconds)) durationSeconds in
      p = exact
      \/ ((2 * (100 * (durationSeconds - remainingSeconds)) + durationSeconds)
            mod (2 * durationSeconds) = 0
          /\ p = exact - 1))
  /\ (forall remainingSeconds durationSeconds,
        let safeDuration :=
          Z.max 1 (if durationSeconds =? 0 then 1800 else durationSeconds) in
        Client.getPomodoroProgressPercent remainingSeconds durationSeconds
        = Client.getPomodoroProgressPercent (Z.max 0 (Z.min safeDuration remainingSeconds))
            safeDuration).
Proof.
  split.
  - intros remainingSeconds durationSeconds Hd Hr p exact.
    unfold p, exact, Client.getPomodoroProgressPercent, round_half_up.
    change (2 ^ 44) with 17592186044416 in Hd.
    destruct (Z.eqb_spec durationSeconds 0) as [|_]; [lia|].
    rewrite (Z.max_r 1 durationSeconds) by lia.
    rewrite (Z.min_r durationSeconds remainingSeconds) by lia.
    rewrite (Z.max_r 0 remainingSeconds) by lia.
    set (E := durationSeconds - remainingSeconds).
    destruct (Z.eq_dec E 0) as [->|HE].
    + left. rewrite percent_of_zero. symmetry. apply Z.div_small. lia.
    + destruct (percent_close E durationSeconds) as [HD2 Hc]; [lia|].
      replace (2 * (100 * E) + durationSeconds) with (200 * E + durationSeconds) by ring.
      apply round_compare; [lia|lia|exact HD2|exact Hc].
  - intros remainingSeconds durationSeconds safeDuration.
    unfold Client.getPomodoroProgressPercent.
    change DEFAULT_POMODORO_SECONDS with 1800. fold safeDuration.
    assert (Hs : Z.max 1 (if safeDuration =? 0 then 1800 else safeDuration) = safeDuration).
    { assert (1 <= safeDuration) by apply Z.le_max_l.
      destruct (Z.eqb_spec safeDuration 0); lia. }
    rewrite Hs.
    replace (Z.max 0 (Z.min safeDuration (Z.max 0 (Z.min safeDuration remainingSeconds))))
      with (Z.max 0 (Z.min safeDuration remainingSeconds)) by lia.
    reflexivity.
Qed.

Lemma progress_percent_witness :
  Client.getPomodoroProgressPercent 600 1800 = round_half_up (100 * (1800 - 600)) 1800
  \/ ((2 * (100 * (1800 - 600)) + 1800) mod (2 * 1800) = 0
      /\ Client.getPomodoroProgressPercent 600 1800
         = round_half_up (100 * (1800 - 600)) 1800 - 1).
Proof. apply (proj1 progress_percent 600 1800); lia. Defined.

(** C9 (as stated) fails.  With no duration the percentage is taken of the
    default 1800 seconds; and 69 of 120 seconds are 57.5 percent, which the
    rounded quotient 0.575 times 100 falls short of. *)
Lemma progress_percent_differs :
  Client.getPomodoroProgressPercent 0 0 = 100 /\ claimed_percent 0 0 = 0
  /\ Client.getPomodoroProgressPercent 51 120 = 57 /\ claimed_percent 51 120 = 58.
Proof. repeat split; vm_compute; reflexivity. Qed.

(** The machine's binary64 quotient and product are those of [Float]: for
    every elapsed time of every duration up to two minutes, and on some
    larger numbers. *)
Example machine_agrees_short_timers :
  forallb
    (fun safeDuration =>
       forallb (fun elapsed => machine_agrees (Z.of_nat elapsed) (Z.of_nat safeDuration))
         (seq 0 (S safeDuration)))
    (seq 1 120)
  = true.
Proof. vm_compute. reflexivity. Qed.

Example machine_agrees_examples :
  forallb (fun '(elapsed, safeDuration) => machine_agrees elapsed safeDuration)
    [(69, 120); (0, 120); (120, 120); (1, 3); (2, 3); (1, 8); (870, 6000); (1200, 1800);
     (1, 1800); (1799, 1800); (86399, 86400); (123456789, 987654321);
     (1, 17592186044415); (17592186044414, 17592186044415)]
  = true.
Proof. vm_compute. reflexivity. Qed.

Example percent_examples :
  Client.getPomodoroProgressPercent 1800 1800 = 0
  /\ Client.getPomodoroProgressPercent 0 1800 = 100
  /\ Client.getPomodoroProgressPercent 900 1800 = 50
  /\ Client.getPomodoroProgressPercent 7 8 = 13
  /\ Client.getPomodoroProgressPercent 5130 6000 = 14
  /\ Client.getPomodoroProgressPercent 500 (-3) = 0
  /\ Client.getPomodoroProgressPercent (-10) 60 = 100.
Proof. repeat split; vm_compute; reflexivity. Qed.

(** * Further properties of the code *)

(** ** Timers *)

Section TimerInvariant.

Implicit Types (timers : gmap string Timer.t) (timer : Timer.t).

Lemma normalizeTimer_ok raw : timer_ok (Client.normalizeTimer raw).
Proof.
  unfold Client.normalizeTimer, timer_ok, Js.floor.
  cbn [Timer.durationSeconds Timer.remainingSeconds Timer.isRunning].
  set (d := match Js.to_number_opt (Js.prop "durationSeconds" raw) with
            | Js.Num z => if 0 <? z then z else DEFAULT_POMODORO_SECONDS
            | Js.NaN => DEFAULT_POMODORO_SECONDS
            end).
  assert (Hd : 0 < d).
  { unfold d, DEFAULT_POMODORO_SECONDS.
    destruct (Js.to_number_opt _) as [|z]; [lia|]. destruct (Z.ltb_spec 0 z); lia. }
  split; [exact Hd|]. split.
  - destruct (Js.to_number_opt (Js.prop "remainingSeconds" raw)); lia.
  - intros [_ H]%andb_prop. by apply Z.ltb_lt.
Qed.

(** One stored timer more keeps the timers well formed. *)
Lemma normalized_step (normalized : gmap string Timer.t) (taskId : string) (timer : Js.jval) :
  map_Forall (fun taskId timer => taskId <> "" /\ timer_ok timer) normalized
  /\ normalized !! "__proto__" = None ->
  let next :=
    if String.eqb taskId "" || negb (Js.truthy timer) || negb (Js.is_object timer)
    then normalized
    else Js.assign taskId (Client.normalizeTimer timer) normalized in
  map_Forall (fun taskId timer => taskId <> "" /\ timer_ok timer) next
  /\ next !! "__proto__" = None.
Proof.
  intros [Hn Hp] next. unfold next.
  destruct (String.eqb_spec taskId "") as [->|Hne]; simpl; [done|].
  destruct (_ || _); [done|]. split; [|by apply assign_proto].
  apply assign_invariant; [done|].
  apply map_Forall_insert_2; [|done]. split; [done|apply normalizeTimer_ok].
Qed.

Lemma normalized_timers rawTimers :
  map_Forall (fun taskId timer => taskId <> "" /\ timer_ok timer)
    (Client.normalizePomodoroTimers rawTimers)
  /\ Client.normalizePomodoroTimers rawTimers !! "__proto__" = None.
Proof.
  unfold Client.normalizePomodoroTimers.
  destruct rawTimers as [raw|]; [|split; [apply map_Forall_empty|done]].
  destruct (_ || _); [split; [apply map_Forall_empty|done]|].
  apply (fold_left_invariant
           (fun m => map_Forall (fun taskId timer => taskId <> "" /\ timer_ok timer) m
                     /\ m !! "__proto__" = None));
    [split; [apply map_Forall_empty|done]|].
  intros normalized [taskId timer] _ Hn. by apply normalized_step.
Qed.

(** X1. For stored timers whose seconds are whole numbers, or no numbers
    (missing, [null], a boolean, an object, but no text), every timer the
    client normaliser keeps has a positive duration, a remaining time between
    0 and the duration, runs only with time left, and belongs to a key that
    is not empty; the timers have no own property "__proto__". *)
Theorem normalized_timers_ok (rawTimers : option Js.jval) :
  whole_seconds rawTimers = true ->
  map_Forall (fun taskId timer => taskId <> "" /\ timer_ok timer)
    (Client.normalizePomodoroTimers rawTimers)
  /\ Client.normalizePomodoroTimers rawTimers !! "__proto__" = None.
Proof.
  intros _. unfold Client.normalizePomodoroTimers.
  assert (Hempty : map_Forall (fun taskId timer => taskId <> "" /\ timer_ok timer)
                     (∅ : gmap string Timer.t)
                   /\ (∅ : gmap string Timer.t) !! "__proto__" = None)
    by (split; [apply map_Forall_empty|done]).
  (* nothing is kept of what is no object *)
  destruct rawTimers as [raw|]; [|exact Hempty].
  destruct (_ || _); [exact Hempty|].
  (* and every entry of an object keeps the timers well formed *)
  apply (fold_left_invariant
           (fun m => map_Forall (fun taskId timer => taskId <> "" /\ timer_ok timer) m
                     /\ m !! "__proto__" = None)); [exact Hempty|].
  intros normalized [taskId timer] _ Hn. by apply normalized_step.
Qed.

Lemma tick_timer_ok timer : timer_ok timer -> timer_ok (tick_timer timer).
Proof.
  unfold timer_ok, tick_timer. destruct timer as [r d run]. simpl.
  intros (Hd & Hr & Hrun). destruct run; simpl; [|done].
  specialize (Hrun eq_refl). split; [done|]. split; [lia|].
  intros H%Z.ltb_lt. exact H.
Qed.

(** X2. The timer operations keep the timers well formed: after a tick, a
    start (whatever is typed at the prompt, or its cancelling), a pause or a
    reset, every timer still has a positive duration, a remaining time within
    it, and runs only with time left. *)
Theorem timer_operations_keep_ok timers taskId input :
  timers_ok timers ->
  timers_ok (Client.tick timers)
  /\ timers_ok (Client.startPomodoro timers taskId input)
  /\ timers_ok (Client.pausePomodoro timers taskId)
  /\ timers_ok (Client.resetPomodoro timers taskId).
Proof.
  intros Hok. split; [|split; [|split]].
  - intros k timer Hk. rewrite tick_lookup in Hk.
    destruct (timers !! k) as [t|] eqn:E; [|discriminate].
    injection Hk as <-. apply tick_timer_ok. by apply (Hok k).
  - unfold Client.startPomodoro.
    assert (Hfresh : timers_ok
              match input with
              | Some text =>
                  let safeMinutes :=
                    match Js.parseInt10 text with
                    | Js.Num minutes => if 0 <? minutes then minutes else 30
                    | Js.NaN => 30
                    end in
                  let durationSeconds := safeMinutes * 60 in
                  <[taskId := Timer.mk durationSeconds durationSeconds true]> timers
              | None => timers
              end).
    { destruct input as [text|]; [|done]. apply map_Forall_insert_2; [|done].
      unfold timer_ok. simpl.
      destruct (Js.parseInt10 text) as [|z]; [lia|].
      destruct (Z.ltb_spec 0 z); lia. }
    destruct (timers !! taskId) as [existing|] eqn:E; [|done].
    destruct (Z.ltb_spec 0 (Timer.remainingSeconds existing)); [|done].
    apply map_Forall_insert_2; [|done].
    destruct (Hok _ _ E) as (Hd & Hr & _). unfold timer_ok. simpl. auto.
  - unfold Client.pausePomodoro. apply map_Forall_insert_2; [|done].
    destruct (timers !! taskId) as [existing|] eqn:E; simpl.
    + destruct (Hok _ _ E) as (Hd & Hr & _). unfold timer_ok. simpl.
      split; [done|]. split; [done|discriminate].
    + unfold timer_ok, DEFAULT_POMODORO_SECONDS. simpl.
      split; [lia|]. split; [lia|discriminate].
  - unfold Client.resetPomodoro. by apply map_Forall_delete.
Qed.




(** X4. Pausing a timer with time left and starting it again resumes it
    with the same remaining time and duration, without consulting the prompt;
    for a timer that was running the timers are then exactly as before. *)
Theorem pause_then_start timers taskId timer input :
  timers !! taskId = Some timer ->
  0 < Timer.remainingSeconds timer ->
  Client.startPomodoro (Client.pausePomodoro timers taskId) taskId input
  = <[taskId := Timer.mk (Timer.remainingSeconds timer) (Timer.durationSeconds timer) true]>
      timers
  /\ (Timer.isRunning timer = true ->
      Client.startPomodoro (Client.pausePomodoro timers taskId) taskId input = timers).
Proof.
  intros Hk Hr.
  assert (Hs : Client.startPomodoro (Client.pausePomodoro timers taskId) taskId input
               = <[taskId := Timer.mk (Timer.remainingSeconds timer)
                               (Timer.durationSeconds timer) true]> timers).
  { unfold Client.startPomodoro, Client.pausePomodoro. rewrite Hk. simpl.
    rewrite lookup_insert_eq. simpl.
    destruct (Z.ltb_spec 0 (Timer.remainingSeconds timer)); [|lia].
    apply insert_insert_eq. }
  split; [exact Hs|]. intros Hrun. rewrite Hs. apply insert_id.
  rewrite Hk. destruct timer; simpl in *. by rewrite Hrun.
Qed.

(** X5. A reset forgets the timer: the task then shows the default 1800
    seconds, and counts as not started unless its id is named like a member
    of [Object.prototype], which [hasPomodoroStarted] then finds in place of
    a timer; the next start asks for a duration again, whatever the timer
    held before, and starts a timer of whole minutes (for an answer of fewer
    than [2^53] seconds); the other timers are untouched. *)
Theorem reset_forgets timers taskId :
  Client.hasPomodoroStarted (Client.resetPomodoro timers taskId) taskId = Js.inherited taskId
  /\ Client.getPomodoroTimer (Client.resetPomodoro timers taskId) taskId
     = Timer.mk 1800 1800 false
  /\ Client.startPomodoro (Client.resetPomodoro timers taskId) taskId None
     = Client.resetPomodoro timers taskId
  /\ (forall text,
        match Js.parseInt10 text with
        | Js.Num minutes => minutes * 60 < 2 ^ 53
        | Js.NaN => True
        end ->
        exists minutes, 0 < minutes
          /\ Client.startPomodoro (Client.resetPomodoro timers taskId) taskId (Some text)
             !! taskId
             = Some (Timer.mk (minutes * 60) (minutes * 60) true))
  /\ (forall other, other <> taskId ->
                    Client.resetPomodoro timers taskId !! other = timers !! other)
  /\ (timers !! taskId = None -> Client.resetPomodoro timers taskId = timers).
Proof.
  unfold Client.resetPomodoro.
  assert (Hnone : delete taskId timers !! taskId = None) by apply lookup_delete_eq.
  assert (Hp : forall e, delete taskId timers !! taskId = Some e ->
                         Timer.remainingSeconds e <= 0).
  { intros e He. rewrite Hnone in He. discriminate. }
  split; [|split; [|split; [|split; [|split]]]].
  - unfold Client.hasPomodoroStarted. rewrite Hnone.
    by rewrite bool_decide_eq_false_2 by (by intros [? ?]).
  - unfold Client.getPomodoroTimer. by rewrite Hnone.
  - by rewrite start_prompts.
  - intros text _. rewrite start_prompts by exact Hp. cbv zeta.
    eexists. split; [|apply lookup_insert_eq].
    destruct (Js.parseInt10 text) as [|z]; [lia|]. destruct (Z.ltb_spec 0 z); lia.
  - intros other Hne. by apply lookup_delete_ne.
  - intros Habsent. by apply delete_id.
Qed.

End TimerInvariant.

Lemma timer_operations_keep_ok_witness :
  timers_ok (Client.tick (Client.startPomodoro ∅ "t1" (Some "25"))).
Proof.
  refine (proj1 (timer_operations_keep_ok (Client.startPomodoro ∅ "t1" (Some "25")) "t1" None
                   _)).
  intros taskId timer H.
  rewrite start_prompts in H by (intros e He; rewrite lookup_empty in He; discriminate).
  cbv zeta in H. apply lookup_insert_Some in H as [[_ <-]|[_ H]].
  - repeat split; simpl; lia.
  - rewrite lookup_empty in H. discriminate.
Defined.


Lemma pause_then_start_witness :
  Client.startPomodoro (Client.pausePomodoro (Client.startPomodoro ∅ "t1" (Some "5")) "t1")
    "t1" None
  = Client.startPomodoro ∅ "t1" (Some "5").
Proof.
  apply (pause_then_start (Client.startPomodoro ∅ "t1" (Some "5")) "t1"
           (Timer.mk 300 300 true) None); [reflexivity|simpl; lia|reflexivity].
Defined.

Lemma normalized_timers_ok_witness :
  Client.normalizePomodoroTimers (Some stored_timers) !! "__proto__" = None.
Proof.
  refine (proj2 (normalized_timers_ok (Some stored_timers) _)). reflexivity.
Defined.

Lemma reset_forgets_witness :
  Client.resetPomodoro expired_timers "t2" = expired_timers
  /\ exists minutes, 0 < minutes
       /\ Client.startPomodoro (Client.resetPomodoro expired_timers "t1") "t1" (Some "25")
          !! "t1"
          = Some (Timer.mk (minutes * 60) (minutes * 60) true).
Proof.
  split.
  - apply (proj2 (proj2 (proj2 (proj2 (proj2 (reset_forgets expired_timers "t2")))))).
    reflexivity.
  - refine (proj1 (proj2 (proj2 (proj2 (reset_forgets expired_timers "t1")))) "25" _).
    vm_compute. reflexivity.
Defined.

(** ** Completing, hiding and restoring *)

Section FlagRoundTrips.

Implicit Types (data : Client.State Task.t) (task : Task.t) (taskId : string).

Lemma with_tasks_same data : Client.with_tasks data (Client.tasks data) = data.
Proof. by destruct data. Qed.

Lemma fmap_fixed {A} (f : A -> A) (l : list A) : Forall (fun x => f x = x) l -> f <$> l = l.
Proof. induction 1 as [|x l Hx _ IH]; [done|]. rewrite fmap_cons. by rewrite Hx, IH. Qed.

Lemma set_flags_same task : Client.set_flags (Task.done task) (Task.hidden task) task = task.
Proof. by destruct task. Qed.

(** X6. Completing a task twice gives back the document when the task's two
    flags agree, and a third click does what the first did. *)
Theorem toggle_twice data taskId :
  (Forall (fun task => Task.id task = taskId -> Task.done task = Task.hidden task)
     (Client.tasks data) ->
   Client.toggleDone (Client.toggleDone data taskId) taskId = data)
  /\ Client.toggleDone (Client.toggleDone (Client.toggleDone data taskId) taskId) taskId
     = Client.toggleDone data taskId.
Proof.
  split.
  - intros Hflags. rewrite <- (with_tasks_same data) at 2.
    unfold Client.toggleDone, Client.with_tasks. simpl. f_equal.
    rewrite <- list_fmap_compose. apply fmap_fixed.
    eapply Forall_impl; [exact Hflags|]. intros task Ht. simpl.
    destruct (String.eqb_spec (Task.id task) taskId) as [Hid|Hne]; simpl.
    + specialize (Ht Hid). destruct task as [? ? ? ? ? ? ? ? [] [] ? ?]; simpl in *;
        try discriminate; subst taskId; rewrite String.eqb_refl; reflexivity.
    + apply String.eqb_neq in Hne. by rewrite Hne.
  - unfold Client.toggleDone, Client.with_tasks. simpl. f_equal.
    rewrite <- !list_fmap_compose. apply list_fmap_ext. intros i task _. simpl.
    destruct (String.eqb_spec (Task.id task) taskId) as [Hid|Hne]; simpl.
    + destruct task as [? ? ? ? ? ? ? ? [] [] ? ?]; simpl in *; subst taskId;
        repeat (rewrite String.eqb_refl; simpl); reflexivity.
    + apply String.eqb_neq in Hne. repeat (rewrite Hne; simpl). reflexivity.
Qed.

(** X7. Hiding a task and restoring it leaves the task pending and visible
    and touches no other task, so it gives back the document when the task
    was pending and visible; restoring a task that was completed leaves it
    completed and visible. *)
Theorem hide_then_restore data taskId :
  Client.tasks (Client.restoreTask (Client.hideTask data taskId) taskId)
  = (fun task => if String.eqb (Task.id task) taskId then Client.set_flags false false task
                 else task) <$> Client.tasks data
  /\ (Forall (fun task => Task.id task = taskId ->
                          Task.done task = false /\ Task.hidden task = false)
        (Client.tasks data) ->
      Client.restoreTask (Client.hideTask data taskId) taskId = data)
  /\ (Forall (fun task => Task.id task = taskId ->
                          Task.done task = false /\ Task.hidden task = false)
        (Client.tasks data) ->
      Forall (fun task => Task.id task = taskId ->
                          Task.done task = true /\ Task.hidden task = false)
        (Client.tasks (Client.restoreTask (Client.toggleDone data taskId) taskId))).
Proof.
  assert (Hboth : Client.tasks (Client.restoreTask (Client.hideTask data taskId) taskId)
    = (fun task => if String.eqb (Task.id task) taskId then Client.set_flags false false task
                   else task) <$> Client.tasks data).
  { unfold Client.restoreTask, Client.hideTask, Client.with_tasks. simpl.
    rewrite <- list_fmap_compose. apply list_fmap_ext. intros i task _. simpl.
    destruct (String.eqb_spec (Task.id task) taskId) as [Hid|Hne]; simpl.
    - by rewrite Hid, String.eqb_refl.
    - apply String.eqb_neq in Hne. by rewrite Hne. }
  split; [exact Hboth|]. split.
  - intros Hflags. rewrite <- (with_tasks_same data) at 2.
    change (Client.restoreTask (Client.hideTask data taskId) taskId)
      with (Client.with_tasks data
              (Client.tasks (Client.restoreTask (Client.hideTask data taskId) taskId))).
    rewrite Hboth. f_equal. apply fmap_fixed.
    eapply Forall_impl; [exact Hflags|]. intros task Ht. simpl.
    destruct (String.eqb_spec (Task.id task) taskId) as [Hid|Hne]; [|done].
    destruct (Ht Hid) as [Hd Hh]. rewrite <- Hd at 1. rewrite <- Hh at 1.
    apply set_flags_same.
  - intros Hflags. unfold Client.restoreTask, Client.toggleDone, Client.with_tasks. simpl.
    rewrite <- list_fmap_compose. apply Forall_fmap.
    eapply Forall_impl; [exact Hflags|]. intros task Ht. simpl.
    destruct (String.eqb_spec (Task.id task) taskId) as [Hid|Hne]; simpl.
    + destruct (Ht Hid) as [-> ->]. simpl. rewrite Hid, String.eqb_refl. simpl. done.
    + apply String.eqb_neq in Hne. rewrite Hne. intros Hid.
      apply String.eqb_neq in Hne. contradiction.
Qed.

End FlagRoundTrips.

Lemma toggle_twice_witness :
  Client.toggleDone (Client.toggleDone (one_task_state false false) "t1") "t1"
  = one_task_state false false.
Proof.
  apply (proj1 (toggle_twice (one_task_state false false) "t1")).
  repeat constructor.
Defined.

Lemma hide_then_restore_witness :
  Client.restoreTask (Client.hideTask (one_task_state false false) "t1") "t1"
  = one_task_state false false.
Proof.
  apply (proj1 (proj2 (hide_then_restore (one_task_state false false) "t1"))).
  repeat constructor.
Defined.

(** ** Decimal numerals *)

Section Decimal.

Lemma digit_of_char (d : N) : (d < 10)%N -> Js.digit_of (pretty_N_char d) = Some (Z.of_N d).
Proof.
  intros Hd.
  assert (d = 0 \/ d = 1 \/ d = 2 \/ d = 3 \/ d = 4 \/ d = 5 \/ d = 6 \/ d = 7 \/ d = 8
          \/ d = 9)%N as Hcases by lia.
  repeat destruct Hcases as [->|Hcases]; try subst d; reflexivity.
Qed.

Lemma go_value (x : N) (s : string) :
  Js.digits_value 0 (pretty_N_go x s) = Js.digits_value (Z.of_N x) s.
Proof.
  revert s. induction (N.lt_wf_0 x) as [x _ IH]. intros s.
  destruct (decide (x = 0%N)) as [->|Hx]; [reflexivity|].
  rewrite pretty_N_go_step by lia. rewrite IH by (apply N.div_lt; lia).
  cbn [Js.digits_value]. rewrite digit_of_char by (apply N.mod_lt; lia).
  f_equal. pose proof (N.div_mod x 10 ltac:(lia)). lia.
Qed.

Lemma go_digits (x : N) (s : string) : digits (pretty_N_go x s) = digits s.
Proof.
  revert s. induction (N.lt_wf_0 x) as [x _ IH]. intros s.
  destruct (decide (x = 0%N)) as [->|Hx]; [reflexivity|].
  rewrite pretty_N_go_step by lia. rewrite IH by (apply N.div_lt; lia).
  cbn [digits]. by rewrite digit_of_char by (apply N.mod_lt; lia).
Qed.

Lemma go_length (n : nat) (x : N) (s : string) :
  (x < 10 ^ N.of_nat n)%N ->
  (String.length (pretty_N_go x s) <= n + String.length s)%nat.
Proof.
  revert x s. induction n as [|n IH]; intros x s Hx.
  - assert (x = 0%N) as -> by (simpl in Hx; lia). rewrite pretty_N_go_0. lia.
  - destruct (decide (x = 0%N)) as [->|Hx0]; [rewrite pretty_N_go_0; lia|].
    rewrite pretty_N_go_step by lia.
    etrans; [apply IH|simpl; lia].
    rewrite Nat2N.inj_succ, N.pow_succ_r' in Hx.
    apply N.Div0.div_lt_upper_bound. lia.
Qed.

Lemma go_nonempty (x : N) (s : string) : (0 < x)%N -> pretty_N_go x s <> "".
Proof.
  revert s. induction (N.lt_wf_0 x) as [x _ IH]. intros s Hx.
  rewrite pretty_N_go_step by lia.
  destruct (decide (x `div` 10 = 0)%N) as [->|Hd]; [done|].
  apply IH; [apply N.div_lt; lia|]. apply N.neq_0_lt_0. exact Hd.
Qed.

(** The numeral of a natural number. *)
Lemma pretty_value (z : Z) :
  0 <= z -> Js.digits_value 0 (pretty z) = Some z /\ digits (pretty z) = true /\ pretty z <> "".
Proof.
  intros Hz. destruct z as [|p|p]; [done| |lia].
  change (pretty (Z.pos p)) with (pretty_N_go (N.pos p) "").
  rewrite go_value, go_digits. repeat split. by apply go_nonempty.
Qed.

Lemma pretty_length (n : nat) (z : Z) :
  0 <= z < 10 ^ Z.of_nat n -> (0 < n)%nat -> (String.length (pretty z) <= n)%nat.
Proof.
  intros Hz Hn. destruct z as [|p|p]; [simpl; lia| |lia].
  change (pretty (Z.pos p)) with (pretty_N_go (N.pos p) "").
  etrans; [apply (go_length n)|simpl; lia].
  apply N2Z.inj_lt. rewrite N2Z.inj_pow, nat_N_Z. simpl. lia.
Qed.

Lemma app_cons (c : ascii) (a b : string) : String c a +:+ b = String c (a +:+ b).
Proof. reflexivity. Qed.

Lemma app_nil (b : string) : "" +:+ b = b.
Proof. reflexivity. Qed.

Lemma append_assoc (a b c : string) : (a +:+ b) +:+ c = a +:+ (b +:+ c).
Proof. induction a as [|x a IH]; [done|]. rewrite !app_cons. f_equal. exact IH. Qed.

Lemma zeros_value (k : nat) (s : string) :
  Js.digits_value 0 (string_of_list_ascii (replicate k "0"%char) +:+ s) = Js.digits_value 0 s.
Proof. induction k as [|k IH]; [done|]. cbn [replicate string_of_list_ascii]. rewrite app_cons. exact IH. Qed.

Lemma zeros_digits (k : nat) (s : string) :
  digits (string_of_list_ascii (replicate k "0"%char) +:+ s) = digits s.
Proof. induction k as [|k IH]; [done|]. cbn [replicate string_of_list_ascii]. rewrite app_cons. exact IH. Qed.

Lemma zeros_length (k : nat) :
  String.length (string_of_list_ascii (replicate k "0"%char)) = k.
Proof. induction k as [|k IH]; [done|]. simpl. by rewrite IH. Qed.

Lemma append_length (a b : string) :
  String.length (a +:+ b) = (String.length a + String.length b)%nat.
Proof. induction a as [|x a IH]; [done|]. rewrite app_cons. simpl. f_equal. exact IH. Qed.

Lemma padStart_length (n : nat) (s : string) :
  String.length (Js.padStart n "0" s) = (n `max` String.length s)%nat.
Proof. unfold Js.padStart. rewrite append_length, zeros_length. lia. Qed.

Lemma digits_no_space (s : string) : digits s = true -> no_space s = true.
Proof.
  induction s as [|c s IH]; [done|]. cbn [digits no_space].
  destruct (Js.digit_of c) eqn:Hc; [|done]. intros Hs. rewrite (IH Hs).
  unfold Js.digit_of in Hc. unfold Js.is_space.
  destruct (N_of_ascii c) as [|p]; [done|].
  do 8 (destruct p as [p|p|]; try done).
Qed.

(** [Number] reads a zero-padded numeral back. *)
Lemma number_of_padded (n : nat) (z : Z) :
  0 <= z -> Js.string_to_number (Js.padStart n "0" (pretty z)) = Js.Num z.
Proof.
  intros Hz. destruct (pretty_value z Hz) as (Hv & Hd & Hne).
  assert (Hpd : digits (Js.padStart n "0" (pretty z)) = true).
  { unfold Js.padStart. by rewrite zeros_digits. }
  assert (Hpv : Js.digits_value 0 (Js.padStart n "0" (pretty z)) = Some z).
  { unfold Js.padStart. by rewrite zeros_value. }
  assert (Hpn : Js.padStart n "0" (pretty z) <> "").
  { intros Heq. apply (f_equal String.length) in Heq. rewrite padStart_length in Heq.
    destruct (pretty z); [done|]. simpl in Heq. lia. }
  unfold Js.string_to_number. rewrite trim_no_space by by apply digits_no_space.
  destruct (Js.padStart n "0" (pretty z)) as [|c s] eqn:Hs; [done|].
  assert (Hlit : Js.unsigned_literal (String c s) = Js.Num z).
  { unfold Js.unsigned_literal. by rewrite Hpv. }
  cbn [digits] in Hpd. destruct (Js.digit_of c) eqn:Hc; [|done].
  destruct (Ascii.eqb_spec c "+") as [->|Hplus]; [done|].
  destruct (Ascii.eqb_spec c "-") as [->|Hminus]; [done|].
  rewrite <- Hlit.
  destruct c as [[] [] [] [] [] [] [] []]; try reflexivity; done.
Qed.

End Decimal.

(** ** The calendar *)

Section Calendar.

Lemma days_linear y m d :
  Client.days_from_civil y m 1 + (d - 1) = Client.days_from_civil y m d.
Proof. unfold Client.days_from_civil. cbv zeta. lia. Qed.

Lemma days_period q y m d :
  Client.days_from_civil (y + 400 * q) m d = Client.days_from_civil y m d + 146097 * q.
Proof.
  unfold Client.days_from_civil. cbv zeta.
  set (y0 := if m <=? 2 then y - 1 else y).
  replace (if m <=? 2 then y + 400 * q - 1 else y + 400 * q) with (y0 + q * 400)
    by (unfold y0; destruct (m <=? 2); lia).
  rewrite Z.div_add by lia.
  replace (y0 + q * 400 - (y0 / 400 + q) * 400) with (y0 - y0 / 400 * 400) by lia.
  lia.
Qed.

Lemma civil_period q z :
  Client.civil_from_days (z + 146097 * q)
  = let '(y, m, d) := Client.civil_from_days z in (y + 400 * q, m, d).
Proof.
  unfold Client.civil_from_days. cbv zeta.
  replace (z + 146097 * q + 719468) with (z + 719468 + q * 146097) by lia.
  rewrite Z.div_add by lia.
  replace (z + 719468 + q * 146097 - ((z + 719468) / 146097 + q) * 146097)
    with (z + 719468 - (z + 719468) / 146097 * 146097) by lia.
  set (doe := z + 719468 - (z + 719468) / 146097 * 146097).
  set (yoe := (doe - doe / 1460 + doe / 36524 - doe / 146096) / 365).
  set (doy := doe - (365 * yoe + yoe / 4 - yoe / 100)).
  set (mp := (5 * doy + 2) / 153).
  destruct (_ <=? 2); f_equal; f_equal; lia.
Qed.

Lemma leap_period q y : leap (y + 400 * q) = leap y.
Proof.
  unfold leap.
  replace (y + 400 * q) with (y + (100 * q) * 4) at 1 by lia.
  replace (y + 400 * q) with (y + (4 * q) * 100) at 1 by lia.
  replace (y + 400 * q) with (y + q * 400) by lia.
  by rewrite !Z_mod_plus_full.
Qed.

Lemma next_day_period q y m d :
  next_day (y + 400 * q) m d = let '(y', m', d') := next_day y m d in (y' + 400 * q, m', d').
Proof.
  unfold next_day, days_in_month. rewrite leap_period.
  repeat case_match; f_equal; f_equal; lia.
Qed.

Lemma forallb_seqZ (f : Z -> bool) (a n x : Z) :
  forallb f (seqZ a n) = true -> a <= x < a + n -> f x = true.
Proof.
  intros Hall Hx. rewrite forallb_forall in Hall. apply Hall.
  apply list_elem_of_In, elem_of_seqZ. lia.
Qed.

Lemma forallb_dates (f : Z -> Z -> Z -> bool) (y m d : Z) :
  forallb (fun y => forallb (fun m => forallb (f y m) (seqZ 1 31)) (seqZ 1 12)) (seqZ 0 400)
  = true ->
  0 <= y < 400 -> 1 <= m <= 12 -> 1 <= d <= 31 -> f y m d = true.
Proof.
  intros Hall Hy Hm Hd.
  apply (forallb_seqZ _ 0 400 y) in Hall; [|lia].
  apply (forallb_seqZ _ 1 12 m) in Hall; [|lia].
  apply (forallb_seqZ _ 1 31 d) in Hall; [exact Hall|lia].
Qed.

(** All dates of the 400 years of one cycle of the calendar. *)
Lemma all_years_agree :
  forallb (fun y => forallb (fun m => forallb (day_agrees y m) (seqZ 1 31)) (seqZ 1 12))
    (seqZ 0 400)
  = true.
Proof. vm_compute. reflexivity. Qed.

Lemma days_in_month_range y m : 28 <= days_in_month y m <= 31.
Proof. unfold days_in_month. repeat case_match; lia. Qed.

(** The day number of a date, plus one, is the day number of the next
    date. *)
Lemma next_day_correct y m d :
  valid_date y m d ->
  Client.civil_from_days (Client.days_from_civil y m d + 1) = next_day y m d.
Proof.
  intros [Hm Hd].
  assert (Hy : y = y mod 400 + 400 * (y / 400)) by (pose proof (Z.div_mod y 400); lia).
  assert (Hr : 0 <= y mod 400 < 400) by (apply Z.mod_pos_bound; lia).
  revert Hd. rewrite Hy. generalize (y mod 400) (y / 400) Hr. clear Hy Hr. intros r q Hr Hd.
  assert (Hdm : days_in_month (r + 400 * q) m = days_in_month r m).
  { unfold days_in_month. by rewrite leap_period. }
  rewrite Hdm in Hd.
  rewrite days_period, next_day_period.
  replace (Client.days_from_civil r m d + 146097 * q + 1)
    with (Client.days_from_civil r m d + 1 + 146097 * q) by lia.
  rewrite civil_period.
  pose proof (days_in_month_range r m) as Hrange.
  pose proof (forallb_dates day_agrees r m d all_years_agree Hr Hm ltac:(lia)) as Hday.
  unfold day_agrees in Hday.
  destruct (Z.leb_spec d (days_in_month r m)); [|lia].
  apply bool_decide_eq_true in Hday. by rewrite Hday.
Qed.

Example epoch_day :
  Client.days_from_civil 1970 1 1 = 0 /\ Client.civil_from_days 0 = (1970, 1, 1)
  /\ Client.days_from_civil 2000 3 1 = 11017 /\ Client.civil_from_days (-1) = (1969, 12, 31).
Proof. repeat split. Qed.

Lemma days_bounds y m d :
  1 <= m <= 12 -> 1 <= d <= 31 -> 0 <= y <= 9999 ->
  -1000000 <= Client.days_from_civil y m d <= 3000000.
Proof.
  intros Hm Hd Hy. unfold Client.days_from_civil. cbv zeta.
  set (y0 := if m <=? 2 then y - 1 else y).
  assert (-1 <= y0 <= 9999) by (unfold y0; destruct (m <=? 2); lia).
  set (mm := if 2 <? m then m - 3 else m + 9).
  assert (0 <= mm <= 11) by (unfold mm; destruct (Z.ltb_spec 2 m); lia).
  generalize dependent y0. generalize dependent mm. intros mm Hmm y0 Hy0.
  Z.div_mod_to_equations. lia.
Qed.

End Calendar.

(** ** The next day of a date *)

Section NextDate.

Lemma split_numeral (sep : ascii) (s rest : string) :
  Js.digit_of sep = None -> digits s = true ->
  Js.split sep (s +:+ String sep rest) = s :: Js.split sep rest.
Proof.
  intros Hsep. induction s as [|c s IH].
  - intros _. rewrite app_nil. cbn [Js.split]. by rewrite Ascii.eqb_refl.
  - cbn [digits]. rewrite app_cons.
    destruct (Js.digit_of c) eqn:Hc; [|done]. intros Hs. cbn [Js.split]. rewrite (IH Hs).
    destruct (Ascii.eqb_spec c sep) as [->|_]; [congruence|reflexivity].
Qed.

Lemma split_last (sep : ascii) (s : string) :
  Js.digit_of sep = None -> digits s = true -> Js.split sep s = [s].
Proof.
  intros Hsep. induction s as [|c s IH]; [done|]. cbn [digits].
  destruct (Js.digit_of c) eqn:Hc; [|done]. intros Hs. cbn [Js.split]. rewrite (IH Hs).
  destruct (Ascii.eqb_spec c sep) as [->|_]; [congruence|reflexivity].
Qed.

Lemma padded_digits (n : nat) (z : Z) : 0 <= z -> digits (Js.padStart n "0" (pretty z)) = true.
Proof.
  intros Hz. unfold Js.padStart. rewrite zeros_digits. by destruct (pretty_value z Hz) as (_ & ? & _).
Qed.

Lemma app_dash (s : string) : "-" +:+ s = String "-" s.
Proof. reflexivity. Qed.

Lemma split_iso y m d :
  0 <= y -> 0 <= m -> 0 <= d ->
  Js.split "-" (iso (y, m, d))
  = [Js.padStart 4 "0" (pretty y); Js.padStart 2 "0" (pretty m); Js.padStart 2 "0" (pretty d)].
Proof.
  intros Hy Hm Hd. unfold iso.
  rewrite !app_dash.
  rewrite split_numeral by (done || by apply padded_digits).
  rewrite split_numeral by (done || by apply padded_digits).
  by rewrite split_last by (done || by apply padded_digits).
Qed.

Lemma slice0_app (a b : string) (n : nat) :
  Js.slice0 (String.length a + n) (a +:+ b) = a +:+ Js.slice0 n b.
Proof. induction a as [|c a IH]; [done|]. rewrite !app_cons. simpl. by rewrite IH. Qed.

Lemma slice0_cons (n : nat) (c : ascii) (s : string) :
  Js.slice0 (S n) (String c s) = String c (Js.slice0 n s).
Proof. reflexivity. Qed.

Lemma app_empty (a : string) : a +:+ "" = a.
Proof. induction a as [|c a IH]; [done|]. rewrite app_cons. by rewrite IH. Qed.

Lemma padded_length (n : nat) (z : Z) :
  0 <= z < 10 ^ Z.of_nat n -> (0 < n)%nat -> String.length (Js.padStart n "0" (pretty z)) = n.
Proof.
  intros Hz Hn. rewrite padStart_length. pose proof (pretty_length n z Hz Hn). lia.
Qed.

(** The first ten characters of the ISO form of a date with a four-digit
    year are the date. *)
Lemma slice_iso y m d (rest : string) :
  0 <= y <= 9999 -> 0 <= m <= 99 -> 0 <= d <= 99 ->
  Js.slice0 10 (iso (y, m, d) +:+ rest) = iso (y, m, d).
Proof.
  intros Hy Hm Hd. unfold iso.
  set (Y := Js.padStart 4 "0" (pretty y)).
  set (M := Js.padStart 2 "0" (pretty m)).
  set (D := Js.padStart 2 "0" (pretty d)).
  assert (HY : String.length Y = 4%nat) by (apply padded_length; simpl; lia).
  assert (HM : String.length M = 2%nat) by (apply padded_length; simpl; lia).
  assert (HD : String.length D = 2%nat) by (apply padded_length; simpl; lia).
  rewrite !append_assoc.
  rewrite !app_dash.
  replace 10%nat with (String.length Y + 6)%nat by (rewrite HY; reflexivity).
  rewrite slice0_app. f_equal. rewrite slice0_cons. f_equal.
  replace 5%nat with (String.length M + 3)%nat by (rewrite HM; reflexivity).
  rewrite slice0_app. f_equal. rewrite slice0_cons. f_equal.
  replace 2%nat with (String.length D + 0)%nat by (rewrite HD; reflexivity).
  rewrite slice0_app. destruct rest; simpl; apply app_empty.
Qed.

Lemma next_day_range y m d :
  valid_date y m d ->
  let '(y', m', d') := next_day y m d in
  y <= y' <= y + 1 /\ (y' = y + 1 -> m = 12 /\ d = 31) /\ 1 <= m' <= 12 /\ 1 <= d' <= 31.
Proof.
  intros [Hm Hd]. unfold next_day. pose proof (days_in_month_range y m) as Hr.
  destruct (Z.ltb_spec d (days_in_month y m)); [lia|].
  destruct (Z.ltb_spec m 12); [lia|].
  assert (m = 12) as -> by lia. unfold days_in_month in *. simpl in *. lia.
Qed.

(** The day after the day that the fields of a date stand for. *)
Lemma next_day_of_fields (y m d : Z) :
  0 <= y <= 9999 ->
  valid_date (if y <=? 99 then 1900 + y else y) m d ->
  (if y <=? 99 then 1900 + y else y, m, d) <> (9999, 12, 31) ->
  match Client.utc_day (Js.Num y) (Js.Num m) (Js.Num d) with
  | Some t => if Z.abs (t + 1) <=? 100000000 then Some (Client.iso_prefix (t + 1)) else None
  | None => None
  end
  = Some (iso (next_day (if y <=? 99 then 1900 + y else y) m d)).
Proof.
  intros Hy. set (year := if y <=? 99 then 1900 + y else y). intros [Hm Hd] Hlast.
  assert (Hd31 : d <= 31) by (pose proof (days_in_month_range year m); lia).
  assert (Hyear : 100 <= year <= 9999) by (unfold year; destruct (Z.leb_spec y 99); lia).
  unfold Client.utc_day.
  replace (if (0 <=? y) && (y <=? 99) then 1900 + y else y) with year
    by (unfold year; destruct (Z.leb_spec 0 y); [done|lia]).
  replace ((m - 1) / 12) with 0 by (symmetry; apply Z.div_small; lia).
  replace ((m - 1) mod 12 + 1) with m by (rewrite Z.mod_small; lia).
  rewrite Z.add_0_r, days_linear.
  pose proof (days_bounds year m d ltac:(lia) ltac:(lia) ltac:(lia)) as Hbounds.
  destruct (Z.leb_spec (Z.abs (Client.days_from_civil year m d)) 100000000); [|lia].
  destruct (Z.leb_spec (Z.abs (Client.days_from_civil year m d + 1)) 100000000); [|lia].
  f_equal. unfold Client.iso_prefix. rewrite next_day_correct by done.
  pose proof (next_day_range year m d (conj Hm Hd)) as Hnext.
  destruct (next_day year m d) as [[y' m'] d']. destruct Hnext as (Hy' & Hend & Hm' & Hd').
  assert (y' <= 9999).
  { destruct (decide (y' = year + 1)) as [Heq|]; [|lia].
    destruct (Hend Heq) as [-> ->]. destruct (decide (year = 9999)) as [->|]; [done|lia]. }
  destruct (Z.leb_spec 0 y'); [|lia]. destruct (Z.leb_spec y' 9999); [|lia]. cbn [andb].
  rewrite <- (slice_iso y' m' d' "T00:00:00.000Z") by lia.
  unfold iso. by rewrite !append_assoc.
Qed.

(** The next date of a date written with four digits of year and two of
    month and day. *)
Lemma next_date_of_iso (y m d : Z) :
  0 <= y <= 9999 ->
  valid_date (if y <=? 99 then 1900 + y else y) m d ->
  (if y <=? 99 then 1900 + y else y, m, d) <> (9999, 12, 31) ->
  Client.getNextDate (iso (y, m, d))
  = Some (iso (next_day (if y <=? 99 then 1900 + y else y) m d)).
Proof.
  intros Hy Hvalid Hlast.
  assert (Hmd : 1 <= m <= 12 /\ 1 <= d) by (unfold valid_date in Hvalid; lia).
  unfold Client.getNextDate. rewrite split_iso by lia.
  cbn [lookup list_lookup]. rewrite !number_of_padded by lia.
  by apply next_day_of_fields.
Qed.

Lemma iso_not_empty date : iso date <> "".
Proof.
  destruct date as [[y m] d]. unfold iso.
  destruct (Js.padStart 4 "0" (pretty y)) as [|c rest]; [by rewrite app_nil|by rewrite app_cons].
Qed.

(** X8. For a date written with four digits of year and two of month and
    day, [getNextDate] returns the next day of the calendar, written the same
    way: through the ends of months and years and the 29th of February of leap
    years.  A year below 100 is read as a year of the 1900s.  The last day of
    the year 9999 is left out, the year after it being written with a sign and
    six digits. *)
Theorem getNextDate_next_day (y m d : Z) :
  0 <= y <= 9999 ->
  let year := if y <=? 99 then 1900 + y else y in
  valid_date year m d ->
  (year, m, d) <> (9999, 12, 31) ->
  Client.getNextDate (iso (y, m, d)) = Some (iso (next_day year m d)).
Proof.
  intros Hy year Hvalid Hlast.
  assert (Hmd : 1 <= m <= 12 /\ 1 <= d) by (unfold valid_date in Hvalid; lia).
  (* the fields of the date are read back as the numbers they write *)
  unfold Client.getNextDate. rewrite split_iso by lia.
  cbn [lookup list_lookup]. rewrite !number_of_padded by lia.
  (* and the day after them is the next day of the calendar *)
  by apply next_day_of_fields.
Qed.

End NextDate.

Lemma getNextDate_next_day_witness :
  Client.getNextDate "2024-02-28" = Some "2024-02-29".
Proof.
  apply (getNextDate_next_day 2024 2 28); [lia| |discriminate].
  split; [lia|]. vm_compute. split; discriminate.
Defined.

(** ** Moving a task to the next day *)

Section NextDayTasks.

Implicit Types (data : Client.State Task.t) (task : Task.t) (taskId : string).

(** A date with fewer than three fields has no next date: the month or the
    day is not a number. *)
Lemma getNextDate_short dateStr :
  (length (Js.split "-" dateStr) < 3)%nat -> Client.getNextDate dateStr = None.
Proof.
  intros Hlen. unfold Client.getNextDate.
  destruct (Js.split "-" dateStr) as [|a [|b [|c rest]]]; simpl in Hlen; try lia.
  - reflexivity.
  - cbn [lookup list_lookup]. unfold Client.utc_day. by destruct (Js.string_to_number a).
  - cbn [lookup list_lookup]. unfold Client.utc_day.
    by destruct (Js.string_to_number a), (Js.string_to_number b).
Qed.

(** X9. [moveTaskToNextDay] is all or nothing.  When every task with the
    given id has a date with a next date, each of them gets that date and
    becomes pending and visible, and nothing else changes; when one of them
    has a date without a next date, as one with fewer than three fields, the
    operation fails and no document is persisted. *)
Theorem move_to_next_day data taskId :
  (Forall (fun task => Task.id task = taskId -> is_Some (Client.getNextDate (Task.date task)))
     (Client.tasks data) ->
   exists tasks',
     Client.moveTaskToNextDay data taskId = Some (Client.with_tasks data tasks')
     /\ Forall2
          (fun task task' =>
             if String.eqb (Task.id task) taskId then
               Client.getNextDate (Task.date task) = Some (Task.date task')
               /\ task' = Client.set_flags false false (Client.set_date (Task.date task') task)
             else task' = task)
          (Client.tasks data) tasks')
  /\ (Exists (fun task => Task.id task = taskId
                          /\ (length (Js.split "-" (Task.date task)) < 3)%nat)
        (Client.tasks data) ->
      Client.moveTaskToNextDay data taskId = None).
Proof.
  unfold Client.moveTaskToNextDay. split.
  - intros Hall.
    destruct (mapM _ (Client.tasks data)) as [tasks'|] eqn:Hmap.
    + exists tasks'. split; [reflexivity|]. apply mapM_Some in Hmap.
      eapply Forall2_impl; [exact Hmap|]. intros task task'. cbv beta.
      destruct (String.eqb (Task.id task) taskId).
      * destruct (Client.getNextDate (Task.date task)) as [date|]; [|discriminate].
        simpl. intros [= <-]. done.
      * by intros [= <-].
    + exfalso. apply mapM_None in Hmap. apply Exists_exists in Hmap as (task & Hin & Hnone).
      rewrite Forall_forall in Hall. specialize (Hall task Hin). revert Hnone.
      destruct (String.eqb_spec (Task.id task) taskId) as [Hid|]; [|discriminate].
      destruct (Hall Hid) as [date ->]. discriminate.
  - intros Hex.
    assert (Hnone : mapM
              (fun task =>
                 if String.eqb (Task.id task) taskId then
                   (fun date => Client.set_flags false false (Client.set_date date task))
                     <$> Client.getNextDate (Task.date task)
                 else Some task) (Client.tasks data) = None).
    { apply mapM_None. eapply Exists_impl; [exact Hex|]. intros task [Hid Hshort]. cbv beta.
      apply String.eqb_eq in Hid. rewrite Hid. by rewrite getNextDate_short. }
    by rewrite Hnone.
Qed.

End NextDayTasks.

Lemma move_to_next_day_witness :
  exists tasks',
    Client.moveTaskToNextDay (three_tasks "t1") "t1"
    = Some (Client.with_tasks (three_tasks "t1") tasks').
Proof.
  destruct (proj1 (move_to_next_day (three_tasks "t1") "t1")) as (tasks' & Hmove & _).
  { repeat (constructor; [intros _; vm_compute; eauto|]). constructor. }
  exists tasks'. exact Hmove.
Defined.

(** ** The view *)

Section ViewFacts.

Variable h : Host.
Implicit Types (data : Client.State Task.t) (task : Task.t) (v : Client.View).

Lemma visibleTasks_perm data sortBy v :
  Client.visibleTasks h data sortBy v ≡ₚ List.filter (Client.shown data v) (Client.tasks data).
Proof.
  unfold Client.visibleTasks. cbv zeta. destruct (String.eqb sortBy "manual").
  - apply by_order_perm.
  - apply sort_perm.
Qed.

Lemma shown_passes data v task : Client.shown data v task = true <-> passes data v task.
Proof.
  unfold Client.shown, passes.
  destruct (String.eqb_spec (Task.date task) (Client.selectedDate data)) as [Hd|Hd]; simpl;
    [|split; [done|tauto]].
  destruct (Client.showAllTasks v), (Task.hidden task); simpl;
    try (split; [done|intros (_ & Hh & _); by specialize (Hh eq_refl)]).
  all: destruct (String.eqb_spec (Client.filterType v) "All") as [Ht|Ht]; simpl.
  all: destruct (String.eqb_spec (Task.taskType task) (Client.filterType v)) as [Ht'|Ht']; simpl.
  all: try (split; [done|intros (_ & _ & Hx & _); by specialize (Hx Ht)]).
  all: destruct (String.eqb_spec (Client.filterCategory v) "All") as [Hc|Hc]; simpl.
  all: destruct (String.eqb_spec (Task.category task) (Client.filterCategory v)) as [Hc'|Hc'];
    simpl.
  all: try (split; [done|intros (_ & _ & _ & Hx & _); by specialize (Hx Hc)]).
  all: destruct (String.eqb_spec (Client.filterStatus v) "Pending") as [Hp|Hp]; simpl.
  all: destruct (String.eqb_spec (Client.filterStatus v) "Completed") as [Hq|Hq]; simpl.
  all: try congruence.
  all: destruct (Task.done task); simpl.
  all: try (split; [done|intros (_ & _ & _ & _ & Hx & Hy); first [by specialize (Hx Hp)|by specialize (Hy Hq)]]).
  all: split; [intros _|done]; repeat split; try done; try congruence.
Qed.

Lemma shown_in_view data sortBy v task :
  task ∈ Client.tasks data -> passes data v task ->
  task ∈ Client.visibleTasks h data sortBy v.
Proof.
  intros Hin Hpasses. rewrite visibleTasks_perm, list_elem_of_In, filter_In, <- list_elem_of_In.
  split; [exact Hin|]. by apply shown_passes.
Qed.

(** X11. The tasks shown are those of the selected day that pass the
    filters, each as often as it is in the document: sorting neither drops
    nor repeats a task, whatever the sort mode. *)
Theorem visible_tasks data sortBy v :
  Client.visibleTasks h data sortBy v ≡ₚ List.filter (Client.shown data v) (Client.tasks data)
  /\ (forall task,
        task ∈ Client.visibleTasks h data sortBy v
        <-> task ∈ Client.tasks data /\ passes data v task).
Proof.
  split; [apply visibleTasks_perm|]. intros task.
  rewrite visibleTasks_perm, list_elem_of_In, filter_In, <- list_elem_of_In.
  by rewrite shown_passes.
Qed.

End ViewFacts.

(** ** Submitting a task *)

Section Submit.

Variable h : Host.
Implicit Types (data : Client.State Task.t) (form : Client.Form).

Lemma buildMeetingTime_empty form :
  Client.buildMeetingTime form = ""
  <-> Client.taskType form <> "Meeting"
      \/ Client.meetingHour form = "" \/ Client.meetingMinute form = ""
      \/ Client.meetingAmPm form = "".
Proof.
  unfold Client.buildMeetingTime.
  destruct (String.eqb_spec (Client.taskType form) "Meeting") as [Ht|Ht]; simpl; [|tauto].
  destruct (String.eqb_spec (Client.meetingHour form) "") as [Hh|Hh]; simpl; [tauto|].
  destruct (String.eqb_spec (Client.meetingMinute form) "") as [Hm|Hm]; simpl; [tauto|].
  destruct (String.eqb_spec (Client.meetingAmPm form) "") as [Ha|Ha]; simpl; [tauto|].
  split; [|tauto]. destruct (Client.meetingHour form); [done|]. discriminate.
Qed.

(** X12. A form with a name, a date and, for a meeting, a time adds one
    task at the end of the list, pending and visible, and selects its date, so
    that the task is among those shown when no filter is set, whatever the
    sort mode; the categories and colours stay.  Any other form changes
    nothing. *)
Theorem submit_task data form sortBy :
  let next := Client.submitTask h data form in
  (submittable form ->
   exists task,
     Client.tasks next = (Client.tasks data ++ [task])%list
     /\ Client.selectedDate next = Client.taskDate form
     /\ Task.name task = Js.trim (Client.taskName form)
     /\ Task.date task = Client.taskDate form
     /\ Task.category task = Client.category form
     /\ Task.done task = false /\ Task.hidden task = false
     /\ task ∈ Client.visibleTasks h next sortBy all_view
     /\ Client.categories next = Client.categories data
     /\ Client.categoryColors next = Client.categoryColors data)
  /\ (~ submittable form -> next = data).
Proof.
  intros next. unfold next, Client.submitTask, submittable. cbv zeta.
  destruct (String.eqb_spec (Js.trim (Client.taskName form)) "") as [Hn|Hn]; simpl;
    [split; [intros []; done|done]|].
  destruct (String.eqb_spec (Client.taskDate form) "") as [Hd|Hd]; simpl;
    [split; [intros (_ & ? & _); done|done]|].
  destruct (String.eqb_spec (Client.taskType form) "Meeting") as [Ht|Ht]; simpl.
  - destruct (String.eqb_spec (Client.buildMeetingTime form) "") as [Hb|Hb]; simpl.
    + apply buildMeetingTime_empty in Hb. split; [|done].
      intros (_ & _ & Hm). destruct (Hm Ht) as (? & ? & ?). tauto.
    + split; [intros _|].
      * eexists. repeat split. apply shown_in_view; [apply elem_of_app; right; constructor|].
        repeat split; done.
      * intros Hno. exfalso. apply Hno. repeat split; try done.
        all: intros Hx; apply Hb, buildMeetingTime_empty; tauto.
  - split; [intros _|].
    + eexists. repeat split. apply shown_in_view; [apply elem_of_app; right; constructor|].
      repeat split; done.
    + intros Hno. exfalso. apply Hno. repeat split; done.
Qed.

End Submit.

Lemma submit_task_witness :
  exists task,
    Client.tasks (Client.submitTask sample_host (one_task_state false false)
                    (meeting_form 9 30 false))
    = [one_task false false; task]
    /\ Task.meetingTime task = "09:30 AM IST".
Proof.
  destruct (proj1 (submit_task sample_host (one_task_state false false)
                     (meeting_form 9 30 false) "priority")) as (task & Htasks & _).
  { repeat split; discriminate. }
  exists task. split; [exact Htasks|].
  vm_compute in Htasks. injection Htasks as <-. reflexivity.
Defined.

(** ** Cloning a task to the next day *)

Section CloneNextDay.

Variable h : Host.
Implicit Types (data : Client.State Task.t) (task : Task.t) (taskId : string).

(** X10. [cloneTaskToNextDay] changes nothing when no task has the id.
    When the first task with the id is dated as the date input writes dates
    (four digits of year, two of month and day, a day of the calendar before
    the end of 9999), the operation adds at the end of the list a copy of it
    under a new id, dated the next day of the calendar, pending and visible,
    with the name, the description, the priority, the category, the type,
    the meeting time and the manual rank of its source; no other task
    changes, and the copy is among the tasks shown once the next day is
    selected.  When the date of that task has fewer than three fields the
    operation fails and no document is persisted. *)
Theorem clone_to_next_day data taskId sortBy :
  (Forall (fun task => Task.id task <> taskId) (Client.tasks data) ->
   Client.cloneTaskToNextDay h data taskId = Some data)
  /\ (forall source y m d,
        List.find (fun task => String.eqb (Task.id task) taskId) (Client.tasks data)
        = Some source ->
        Task.date source = iso (y, m, d) ->
        0 <= y <= 9999 ->
        let year := if y <=? 99 then 1900 + y else y in
        valid_date year m d ->
        (year, m, d) <> (9999, 12, 31) ->
        let clone :=
          Task.mk (randomUUID h (length (Client.tasks data))) (Task.name source)
            (Task.description source) (Task.priority source) (Task.category source)
            (Task.taskType source) (Task.meetingTime source) (iso (next_day year m d))
            false false (Js.Num (now h)) (Task.order source) in
        let next := Client.with_tasks data (Client.tasks data ++ [clone])%list in
        Client.cloneTaskToNextDay h data taskId = Some next
        /\ clone ∈ Client.visibleTasks h
                     (Client.changeSelectedDate h next (iso (next_day year m d)))
                     sortBy all_view)
  /\ (forall source,
        List.find (fun task => String.eqb (Task.id task) taskId) (Client.tasks data)
        = Some source ->
        (length (Js.split "-" (Task.date source)) < 3)%nat ->
        Client.cloneTaskToNextDay h data taskId = None).
Proof.
  split; [|split].
  - intros Hnone. unfold Client.cloneTaskToNextDay.
    destruct (List.find _ (Client.tasks data)) as [source|] eqn:Hfind; [|reflexivity].
    apply find_some in Hfind as [Hin%list_elem_of_In Hid%String.eqb_eq].
    rewrite Forall_forall in Hnone. by destruct (Hnone source Hin).
  - intros source y m d Hfind Hdate Hy year Hvalid Hlast clone next.
    unfold Client.cloneTaskToNextDay.
    rewrite Hfind, Hdate, next_date_of_iso by done. split; [reflexivity|].
    apply shown_in_view.
    + unfold next. cbn [Client.with_tasks Client.changeSelectedDate Client.tasks].
      apply elem_of_app. right. constructor.
    + unfold passes, Client.changeSelectedDate, all_view.
      cbn [Client.selectedDate Client.showAllTasks Client.filterType Client.filterCategory
           Client.filterStatus].
      pose proof (iso_not_empty (next_day year m d)) as Hne. apply String.eqb_neq in Hne.
      fold year. rewrite Hne. repeat split; done.
  - intros source Hfind Hshort. unfold Client.cloneTaskToNextDay.
    by rewrite Hfind, getNextDate_short.
Qed.

End CloneNextDay.

Lemma clone_to_next_day_witness :
  exists next,
    Client.cloneTaskToNextDay sample_host (three_tasks "t1") "t1" = Some next
    /\ Task.date <$> Client.tasks next = ["2026-03-01"; "2026-03-01"; "2026-03-02"; "2026-03-02"].
Proof.
  eexists. split.
  - refine (proj1 (proj1 (proj2 (clone_to_next_day sample_host (three_tasks "t1") "t1"
                                   "priority"))
                     (day_task "t1" "2026-03-01" None) 2026 3 1 eq_refl eq_refl _ _ _)).
    + lia.
    + split; [lia|]. vm_compute. split; discriminate.
    + discriminate.
  - reflexivity.
Defined.

(** ** Meeting times *)

Section MeetingTime.

Lemma two_digits_chars z :
  0 <= z <= 99 ->
  two_digits z
  = String (ascii_of_N (Z.to_N (48 + z / 10))) (String (ascii_of_N (Z.to_N (48 + z mod 10))) "").
Proof.
  intros Hz.
  assert (Hall : forallb
            (fun z => String.eqb (two_digits z)
               (String (ascii_of_N (Z.to_N (48 + z / 10)))
                  (String (ascii_of_N (Z.to_N (48 + z mod 10))) "")))
            (seqZ 0 100) = true) by (vm_compute; reflexivity).
  apply (forallb_seqZ _ 0 100 z) in Hall; [|lia]. by apply String.eqb_eq in Hall.
Qed.

Lemma digit_of_code k : 0 <= k <= 9 -> Js.digit_of (ascii_of_N (Z.to_N (48 + k))) = Some k.
Proof.
  intros Hk.
  assert (k = 0 \/ k = 1 \/ k = 2 \/ k = 3 \/ k = 4 \/ k = 5 \/ k = 6 \/ k = 7 \/ k = 8 \/ k = 9)
    as Hcases by lia.
  repeat destruct Hcases as [->|Hcases]; try subst k; reflexivity.
Qed.

(** X13. The time the form builds for a meeting, from an hour of 01 to 12,
    a minute of two digits and AM or PM, is read back by the priority sort as
    the minute of the day: 12 AM is the first hour and 12 PM the thirteenth.
    It is below 1440, and so before the 9999 of a label that cannot be
    read. *)
Theorem meeting_time_round_trip form (hour minute : Z) (pm : bool) :
  1 <= hour <= 12 -> 0 <= minute <= 59 ->
  Client.taskType form = "Meeting" ->
  Client.meetingHour form = two_digits hour ->
  Client.meetingMinute form = two_digits minute ->
  Client.meetingAmPm form = (if pm then "PM" else "AM") ->
  Client.parseMeetingMinutes (Client.buildMeetingTime form)
  = (hour mod 12 + (if pm then 12 else 0)) * 60 + minute
  /\ 0 <= Client.parseMeetingMinutes (Client.buildMeetingTime form) < 1440.
Proof.
  intros Hh Hm Ht Hhour Hminute Hap.
  assert (Hvalue : Client.parseMeetingMinutes (Client.buildMeetingTime form)
                   = (hour mod 12 + (if pm then 12 else 0)) * 60 + minute).
  { unfold Client.buildMeetingTime. rewrite Ht, Hhour, Hminute, Hap.
    rewrite !two_digits_chars by lia.
    pose proof (digit_of_code (hour / 10) ltac:(Z.div_mod_to_equations; lia)) as H1.
    pose proof (digit_of_code (hour mod 10) ltac:(Z.div_mod_to_equations; lia)) as H2.
    pose proof (digit_of_code (minute / 10) ltac:(Z.div_mod_to_equations; lia)) as H3.
    pose proof (digit_of_code (minute mod 10) ltac:(Z.div_mod_to_equations; lia)) as H4.
    assert (Hhv : 10 * (hour / 10) + hour mod 10 = hour) by (Z.div_mod_to_equations; lia).
    assert (Hmv : 10 * (minute / 10) + minute mod 10 = minute)
      by (Z.div_mod_to_equations; lia).
    destruct pm; cbn [String.eqb Ascii.eqb Bool.eqb negb orb]; rewrite !app_cons, !app_nil;
      unfold Client.parseMeetingMinutes; rewrite H1, H2, H3, H4, Hhv, Hmv;
      match goal with |- (if ?c then _ else _) = _ => change c with true end; cbv iota.
    - change (Ascii.eqb "P" "P") with true. cbv iota. lia.
    - change (Ascii.eqb "A" "P") with false. cbv iota. lia. }
  split; [exact Hvalue|]. rewrite Hvalue.
  destruct pm; Z.div_mod_to_equations; lia.
Qed.

End MeetingTime.

Lemma meeting_time_round_trip_witness :
  Client.parseMeetingMinutes (Client.buildMeetingTime (meeting_form 12 5 true)) = 12 * 60 + 5.
Proof.
  apply (proj1 (meeting_time_round_trip (meeting_form 12 5 true) 12 5 true
                  ltac:(lia) ltac:(lia) eq_refl eq_refl eq_refl eq_refl)).
Defined.

(** ** The manual order after a reordering *)

Section ManualView.

Variable h : Host.
Implicit Types (data : Client.State Task.t) (task : Task.t) (l : list Task.t).

Lemma sort_sorted {A} (cmp : A -> A -> Z) (l : list A) :
  Sorted (fun x y => cmp x y <= 0) l -> sort cmp l = l.
Proof.
  induction 1 as [|x l Hl IH Hx]; [reflexivity|]. simpl. fold (sort cmp l). rewrite IH.
  destruct Hx as [|y l' Hxy]; [reflexivity|]. simpl.
  by destruct (Z.leb_spec (cmp x y) 0); [|lia].
Qed.

Lemma ranked_pairs (n : nat) l :
  Sorted ranked_before l ->
  Sorted (fun a b : Task.t * Z => snd a - snd b <= 0)
    (imap (fun index task => (task, Client.orderValue (n + index) task)) l).
Proof.
  intros Hl. revert n. induction Hl as [|x l Hl IH Hx]; intros n; [constructor|].
  rewrite imap_cons. constructor.
  - rewrite (imap_ext _ (fun index task => (task, Client.orderValue (S n + index) task))).
    + apply IH.
    + intros i task _. simpl. do 2 f_equal. lia.
  - destruct Hx as [|y l' (a & b & Ha & Hb & Hab)]; [constructor|].
    rewrite imap_cons. constructor. unfold Client.orderValue. simpl. rewrite Ha, Hb. simpl. lia.
Qed.

(** Tasks whose ranks go up are in the manual order already. *)
Lemma by_order_ranked l : Sorted ranked_before l -> Client.by_order l = l.
Proof.
  intros Hl. unfold Client.by_order.
  rewrite sort_sorted by apply (ranked_pairs 0 l Hl).
  rewrite fmap_imap. rewrite (imap_ext _ (fun _ task => task)); [|done].
  rewrite (imap_const id). by rewrite list_fmap_id.
Qed.

Lemma reindexed_ranked (n : nat) l :
  StronglySorted ranked_before
    (imap (fun index task => Client.set_order (Z.of_nat (n + index)) task) l).
Proof.
  revert n. induction l as [|x l IH]; intros n; [constructor|].
  rewrite imap_cons. constructor.
  - rewrite (imap_ext _ (fun index task => Client.set_order (Z.of_nat (S n + index)) task)).
    + apply IH.
    + intros i task _. simpl. do 2 f_equal. lia.
  - apply Forall_forall. intros task' Hin.
    apply list_elem_of_lookup in Hin as [i Hi]. rewrite list_lookup_imap in Hi.
    destruct (l !! i) as [task|]; [|discriminate]. injection Hi as <-.
    eexists _, _. split; [reflexivity|]. split; [reflexivity|]. simpl. lia.
Qed.

Lemma filter_sublist {A} (f : A -> bool) (k : list A) : sublist (List.filter f k) k.
Proof.
  induction k as [|x k IH]; [constructor|]. simpl.
  destruct (f x); by constructor.
Qed.

Lemma strongly_sorted_sublist {A} (R : A -> A -> Prop) (k k' : list A) :
  sublist k k' -> StronglySorted R k' -> StronglySorted R k.
Proof.
  induction 1 as [|x k k' Hsub IH|x k k' Hsub IH]; intros Hs; [constructor|..].
  - apply StronglySorted_inv in Hs as [Hs Hall]. constructor; [by apply IH|].
    rewrite Forall_forall in Hall. apply Forall_forall. intros y Hy. apply Hall.
    eapply elem_of_sublist; eassumption.
  - apply StronglySorted_inv in Hs as [Hs _]. by apply IH.
Qed.

Lemma filter_false {A} (f : A -> bool) (k : list A) :
  Forall (fun x => f x = false) k -> List.filter f k = [].
Proof. induction 1 as [|x k Hx _ IH]; [reflexivity|]. simpl. by rewrite Hx. Qed.

Lemma findIndex_id taskId l i :
  Client.findIndex taskId l = Some i -> exists task, l !! i = Some task /\ Task.id task = taskId.
Proof.
  unfold Client.findIndex. destruct (list_find _ l) as [[i' task]|] eqn:Hfind; [|discriminate].
  intros [= <-]. apply list_find_Some in Hfind as (Hi & Hid & _). by exists task.
Qed.

(** X14. After a reordering that goes through, the dragged task sits in
    the manual order where the target was, and the manual view lists the
    tasks of the day in the order the document now has them, whatever the
    filters. *)
Theorem reorder_then_manual_view data (a b : string) (v : Client.View) :
  a <> "" -> b <> "" -> a <> b ->
  a ∈ Task.id <$> same_day data -> b ∈ Task.id <$> same_day data ->
  let next := Client.reorderTasksWithinDay data a b in
  (exists j,
      Client.findIndex b (Client.by_order (same_day data)) = Some j
      /\ Task.id <$> Client.tasks next !! (length (other_days data) + j)%nat = Some a)
  /\ Client.visibleTasks h next "manual" v = List.filter (Client.shown next v) (Client.tasks next).
Proof.
  intros Ha Hb Hab Hina Hinb next. unfold next, Client.reorderTasksWithinDay.
  pose proof Ha as Ha'. pose proof Hb as Hb'. pose proof Hab as Hab'.
  apply String.eqb_neq in Ha', Hb', Hab'. rewrite Ha', Hb', Hab'. simpl.
  fold (same_day data). fold (other_days data).
  apply ids_by_order, findIndex_Some in Hina as (i & moved & Hfi & Hi).
  apply ids_by_order, findIndex_Some in Hinb as (j & target & Hfj & Hj).
  rewrite Hfi, Hfj, Hi.
  destruct (findIndex_id _ _ _ Hfi) as (moved' & Hi' & Hmoved).
  assert (moved' = moved) as -> by congruence.
  set (ordered := Client.by_order (same_day data)) in *.
  set (reindexed := imap (fun index task => Client.set_order (Z.of_nat index) task)
                      (Client.splice_in j moved (delete i ordered))).
  split.
  - exists j. split; [reflexivity|]. cbn [Client.tasks].
    rewrite lookup_app_r by lia.
    replace (length (other_days data) + j - length (other_days data))%nat with j by lia.
    unfold reindexed. rewrite list_lookup_imap. unfold Client.splice_in.
    assert (Hlen : (j <= length (delete i ordered))%nat).
    { apply lookup_lt_Some in Hi, Hj. rewrite length_delete by eauto. lia. }
    rewrite lookup_app_r by (rewrite length_take; lia).
    rewrite length_take. replace (j - j `min` length (delete i ordered))%nat with 0%nat by lia.
    simpl. by rewrite Hmoved.
  - unfold Client.visibleTasks. cbn [Client.tasks String.eqb Ascii.eqb Bool.eqb]. cbv zeta.
    apply by_order_ranked, StronglySorted_Sorted.
    rewrite List.filter_app, filter_false, app_nil_l.
    + eapply strongly_sorted_sublist; [apply filter_sublist|]. apply (reindexed_ranked 0).
    + eapply Forall_impl; [apply other_days_dates|]. intros task Hdate. unfold Client.shown.
      cbn [Client.selectedDate]. apply String.eqb_neq in Hdate. by rewrite Hdate.
Qed.

End ManualView.

Lemma reorder_then_manual_view_witness :
  Task.id <$> Client.visibleTasks sample_host
                (Client.reorderTasksWithinDay (three_tasks "t1") "t1" "t2") "manual" whole_day
  = ["t2"; "t1"].
Proof.
  rewrite (proj2 (reorder_then_manual_view sample_host (three_tasks "t1") "t1" "t2" whole_day
                    ltac:(discriminate) ltac:(discriminate) ltac:(discriminate)
                    ltac:(vm_compute; repeat constructor)
                    ltac:(vm_compute; repeat constructor))).
  reflexivity.
Defined.

(** ** Adding and deleting a category *)

Section CategoryOperations.

Variable h : Host.
Implicit Types (data : Client.State Task.t) (task : Task.t).

(** X15. [addCategory] changes nothing when the trimmed name is empty or
    equal, letter case apart, to a category of the list.  Otherwise the name
    joins the categories, none of which is lost or repeated, and gets the
    colour of the picker; the other colours and the tasks stay. *)
Theorem add_category data (newCategory newCategoryColor : string) :
  let name := Js.trim newCategory in
  let next := Client.addCategory h data newCategory newCategoryColor in
  (name = ""
   \/ Exists (fun cat => toLowerCase h cat = toLowerCase h name) (Client.categories data) ->
   next = data)
  /\ (name <> "" ->
      Forall (fun cat => toLowerCase h cat <> toLowerCase h name) (Client.categories data) ->
      (Client.categories next ≡ₚ name :: Client.categories data)
      /\ (name ∉ Client.categories data)
      /\ Client.categoryColors next !! name = Some newCategoryColor
      /\ (forall other, other <> name ->
            Client.categoryColors next !! other = Client.categoryColors data !! other)
      /\ Client.tasks next = Client.tasks data).
Proof.
  intros name next. unfold next, Client.addCategory. fold name.
  destruct (String.eqb_spec name "") as [Hname|Hname]; [split; [done|intros []; done]|].
  destruct (existsb _ (Client.categories data)) eqn:Hex.
  - split; [done|]. intros _ Hall. exfalso.
    apply existsb_exists in Hex as (cat & Hin & Heq). apply String.eqb_eq in Heq.
    rewrite Forall_forall in Hall. by apply (Hall cat); [apply list_elem_of_In|].
  - split.
    + intros [Hempty|Hdup]; [done|]. exfalso.
      apply Exists_exists in Hdup as (cat & Hin & Heq).
      assert (existsb (fun cat => String.eqb (toLowerCase h cat) (toLowerCase h name))
                (Client.categories data) = true) as Htrue; [|congruence].
      apply existsb_exists. exists cat. split; [by apply list_elem_of_In|].
      by apply String.eqb_eq.
    + intros _ Hall. cbn [Client.categories Client.categoryColors Client.tasks].
      split; [|split; [|split; [|split]]].
      * rewrite sort_perm. by rewrite Permutation_app_comm.
      * intros Hin. rewrite Forall_forall in Hall. by apply (Hall name).
      * apply lookup_insert_eq.
      * intros other Hother. by apply lookup_insert_ne.
      * reflexivity.
Qed.

(** X16. "General" cannot be deleted.  Deleting another category takes it,
    and nothing else, out of the categories and the colours; every task of
    the category goes to the fallback category and no other task changes.
    When "General" is listed the fallback is "General", and no task is left
    in the deleted category. *)
Theorem delete_category data (categoryName : string) :
  let next := Client.deleteCategory data categoryName in
  (categoryName = "General" -> next = data)
  /\ (categoryName <> "General" ->
      (forall cat, cat ∈ Client.categories next
                   <-> cat ∈ Client.categories data /\ cat <> categoryName)
      /\ Client.categoryColors next !! categoryName = None
      /\ (forall other, other <> categoryName ->
            Client.categoryColors next !! other = Client.categoryColors data !! other)
      /\ ("General" ∈ Client.categories data ->
          Forall2
            (fun task task' =>
               Task.category task' <> categoryName
               /\ if String.eqb (Task.category task) categoryName
                  then task' = Client.set_category "General" task
                  else task' = task)
            (Client.tasks data) (Client.tasks next))).
Proof.
  intros next. unfold next, Client.deleteCategory.
  destruct (String.eqb_spec categoryName "General") as [Hg|Hg]; [done|].
  split; [done|]. intros _. cbn [Client.categories Client.categoryColors Client.tasks].
  split; [|split; [|split]].
  - intros cat. by rewrite list_elem_of_filter, (comm and).
  - apply lookup_delete_eq.
  - intros other Hother. by apply lookup_delete_ne.
  - intros Hin. rewrite bool_decide_eq_true_2.
    2:{ apply list_elem_of_filter. split; [congruence|done]. }
    apply Forall2_fmap_r, Forall_Forall2_diag, Forall_forall. intros task _.
    unfold compose. destruct (String.eqb_spec (Task.category task) categoryName) as [Hc|Hc]; [|done].
    split; [|done]. simpl. congruence.
Qed.

End CategoryOperations.

Lemma add_category_witness :
  Client.categories (Client.addCategory sample_host research_state " Ideas " "#00aa55")
  ≡ₚ ["Ideas"; "General"; "Research"].
Proof.
  apply (proj2 (add_category sample_host research_state " Ideas " "#00aa55")).
  - discriminate.
  - repeat constructor; discriminate.
Defined.

Lemma delete_category_witness :
  Client.categoryColors (Client.deleteCategory research_state "Research") !! "Research" = None.
Proof.
  apply (proj2 (delete_category research_state "Research")). discriminate.
Defined.

(** ** The shape of what the client normaliser returns *)

Section ClientShape.

Variable h : Host.

Lemma client_collect_valid (raw : Js.jval) :
  let collected :=
    fold_left
      (fun map key =>
         let value := Js.trim (Js.string_or "" (Js.assoc key (Js.entries raw))) in
         if Js.is_hex_color value then Js.assign key value map else map)
      (fst <$> Js.entries raw) ∅ in
  colors_valid collected /\ collected !! "__proto__" = None.
Proof.
  apply (fold_left_invariant
           (fun m : gmap string string => colors_valid m /\ m !! "__proto__" = None));
    [split; [apply map_Forall_empty|done]|].
  intros m key _ [Hm Hp]. cbv zeta.
  destruct (Js.is_hex_color _) eqn:Hc; [|done]. split; [|by apply assign_proto].
  apply assign_invariant; [done|]. by apply colors_valid_insert.
Qed.

Lemma buildCategoryColors_valid rawCategoryColors categories :
  colors_valid (Client.buildCategoryColors rawCategoryColors categories)
  /\ Client.buildCategoryColors rawCategoryColors categories !! "__proto__" = None
  /\ Forall (fun category =>
               Js.inherited category = false ->
               is_Some (Client.buildCategoryColors rawCategoryColors categories !! category))
       (match categories with [] => ["General"] | _ => categories end).
Proof.
  unfold Client.buildCategoryColors. cbv zeta.
  set (map := match rawCategoryColors with Some _ => _ | None => _ end).
  assert (Hmap : colors_valid map /\ map !! "__proto__" = None).
  { unfold map. destruct rawCategoryColors as [raw|]; [|split; [apply map_Forall_empty|done]].
    destruct (_ && _); [|split; [apply map_Forall_empty|done]]. apply client_collect_valid. }
  destruct Hmap as [Hmap Hproto].
  destruct (fill_defaults_valid (match categories with [] => ["General"] | _ => categories end)
              map Hmap) as (Hvalid & _ & Hcover).
  split; [exact Hvalid|]. split; [by apply fill_defaults_proto|].
  apply Forall_forall. intros category Hin Hown.
  destruct (Hcover category Hin Hown) as (color & Hcolor & _). by exists color.
Qed.

Lemma normalized_shape (raw : Js.jval) :
  let s := Client.normalizeState h raw in
  Client.categories s <> []
  /\ NoDup (Client.categories s)
  /\ Forall trimmed (Client.categories s)
  /\ colors_valid (Client.categoryColors s)
  /\ Client.categoryColors s !! "__proto__" = None
  /\ Forall (fun category =>
               Js.inherited category = false ->
               is_Some (Client.categoryColors s !! category))
       (Client.categories s)
  /\ Client.sortBy s ∈ Client.ALLOWED_SORT_BY.
Proof.
  intros s. unfold s, Client.normalizeState. cbv zeta.
  destruct (negb (Js.truthy raw) || negb (Js.is_object raw)) eqn:Hraw.
  - cbn [Client.createDefaultState Client.categories Client.categoryColors Client.sortBy].
    repeat split; try done.
    + apply NoDup_singleton.
    + repeat constructor; done.
    + by apply map_Forall_singleton.
    + repeat constructor. by rewrite lookup_singleton_eq.
    + repeat constructor.
  - cbn [Client.categories Client.categoryColors Client.sortBy].
    set (categories := match Js.prop "categories" raw with
                       | Some (Js.JArr items) => Server.clean_categories items
                       | _ => Client.categories (Client.createDefaultState h)
                       end).
    assert (Hnodup : NoDup categories).
    { unfold categories. destruct (Js.prop "categories" raw) as [[]|];
        try apply NoDup_singleton. apply dedupe_from_NoDup. }
    assert (Htrim : Forall trimmed categories).
    { unfold categories. destruct (Js.prop "categories" raw) as [[]|];
        try (repeat constructor; done). apply clean_categories_trimmed. }
    destruct (buildCategoryColors_valid (Js.prop "categoryColors" raw) categories)
      as (Hvalid & Hproto & Hcover).
    split; [by destruct categories|]. split; [by destruct categories; [apply NoDup_singleton|]|].
    split; [by destruct categories; [repeat constructor|]|].
    split; [exact Hvalid|]. split; [exact Hproto|]. split; [by destruct categories|].
    assert (Hdefault : "priority" ∈ Client.ALLOWED_SORT_BY) by constructor.
    destruct (Js.prop "sortBy" raw) as [[| | |sort| |]|]; try exact Hdefault.
    by case_bool_decide.
Qed.

(** X17. Whatever the client normaliser is given, the state it returns
    has categories that are trimmed, not empty and all different, and at least
    one of them; a colour for every one of them that is not named like a
    member of [Object.prototype], no colour that is not six hex digits after
    a [#], and no colour under "__proto__"; and a sort mode among the five
    allowed.  What is not an object with properties ([null], a number, a
    string, an array) gives the default state. *)
Theorem client_normalize_shape (raw : Js.jval) :
  let s := Client.normalizeState h raw in
  Client.categories s <> []
  /\ NoDup (Client.categories s)
  /\ Forall trimmed (Client.categories s)
  /\ colors_valid (Client.categoryColors s)
  /\ Client.categoryColors s !! "__proto__" = None
  /\ Forall (fun category =>
               Js.inherited category = false ->
               is_Some (Client.categoryColors s !! category))
       (Client.categories s)
  /\ Client.sortBy s ∈ Client.ALLOWED_SORT_BY
  /\ (match raw with Js.JObj _ => False | _ => True end ->
      s = Client.createDefaultState h).
Proof.
  intros s. pose proof (normalized_shape raw) as Hs. cbv zeta in Hs. fold s in Hs.
  destruct Hs as (? & ? & ? & ? & ? & ? & ?). repeat (split; [assumption|]).
  intros Hraw. unfold s, Client.normalizeState.
  destruct raw as [|[]|[|z]|str|items|fields]; try done.
  - cbn [Js.is_object negb]. by rewrite orb_true_r.
  - cbn [Js.is_object negb]. by rewrite orb_true_r.
Qed.

End ClientShape.

Lemma client_normalize_shape_witness :
  Client.normalizeState sample_host Js.JNull = Client.createDefaultState sample_host.
Proof.
  apply (proj2 (proj2 (proj2 (proj2 (proj2 (proj2 (proj2
           (client_normalize_shape sample_host Js.JNull)))))))).
  exact I.
Defined.

(** ** The client normaliser on its own output *)

Section ClientFixedPoint.

Variable h : Host.

Lemma normalizeTimer_fixed (timer : Timer.t) :
  timer_ok timer -> Client.normalizeTimer (timer_json timer) = timer.
Proof.
  destruct timer as [r d b]. unfold timer_ok. simpl. intros (Hd & Hr & Hb).
  unfold Client.normalizeTimer, timer_json, Js.floor.
  cbn [Js.prop Js.assoc String.eqb Ascii.eqb Bool.eqb Js.to_number_opt Js.to_number
       Js.truthy_opt Js.truthy Timer.remainingSeconds Timer.durationSeconds Timer.isRunning].
  destruct (Z.ltb_spec 0 d); [|lia].
  rewrite (Z.min_r d r), (Z.max_r 0 r) by lia. f_equal.
  destruct b; [|done]. specialize (Hb eq_refl). by destruct (Z.ltb_spec 0 r); [|lia].
Qed.

Lemma fold_insert_all {V} (l : list (string * V)) (acc : gmap string V) :
  NoDup l.*1 ->
  fold_left (fun m '(k, v) => <[k := v]> m) l acc = list_to_map l ∪ acc.
Proof.
  revert acc. induction l as [|[k v] l IH]; intros acc Hn; simpl.
  - by rewrite (left_id_L ∅ (∪)).
  - apply NoDup_cons in Hn as [Hk Hn]. rewrite IH by done.
    rewrite <- insert_union_r by by apply not_elem_of_list_to_map_1.
    by rewrite insert_union_l.
Qed.

Lemma timers_fold_plain (l : list (string * Timer.t)) (acc : gmap string Timer.t) :
  Forall (fun entry => entry.1 <> "" /\ timer_ok entry.2 /\ entry.1 <> "__proto__") l ->
  fold_left
    (fun normalized '(taskId, timer) =>
       if String.eqb taskId "" || negb (Js.truthy timer) || negb (Js.is_object timer)
       then normalized
       else Js.assign taskId (Client.normalizeTimer timer) normalized)
    ((fun '(k, timer) => (k, timer_json timer)) <$> l) acc
  = fold_left (fun m '(k, v) => <[k := v]> m) l acc.
Proof.
  intros Hl. revert acc.
  induction Hl as [|[k timer] l (Hk & Ht & Hp) _ IH]; intros acc; simpl; [done|].
  simpl in *. rewrite <- IH. apply String.eqb_neq in Hk. rewrite Hk. simpl.
  by rewrite normalizeTimer_fixed, assign_other.
Qed.

Lemma timers_fixed (timers : gmap string Timer.t) :
  map_Forall (fun taskId timer => taskId <> "" /\ timer_ok timer) timers ->
  timers !! "__proto__" = None ->
  Client.normalizePomodoroTimers
    (Some (Js.JObj ((fun '(k, timer) => (k, timer_json timer)) <$> map_to_list timers)))
  = timers.
Proof.
  intros Hok Hproto. unfold Client.normalizePomodoroTimers.
  cbn [Js.truthy Js.is_object negb orb Js.entries].
  rewrite timers_fold_plain.
  - rewrite fold_insert_all by apply NoDup_fst_map_to_list.
    by rewrite list_to_map_to_list, (right_id_L ∅ (∪)).
  - apply Forall_forall. intros [k timer] Hin.
    pose proof (keys_not_proto timers k timer Hproto Hin) as Hk.
    apply elem_of_map_to_list in Hin. destruct (Hok k timer Hin). done.
Qed.

(** X18. The client normaliser is idempotent on a document whose stored
    timers have whole numbers, or no numbers, for seconds: given the document
    it returned, it returns the same document. *)
Theorem client_normalize_idempotent (raw : Js.jval) :
  whole_seconds (Js.prop "pomodoroTimers" raw) = true ->
  Client.normalizeState h (client_json (Client.normalizeState h raw))
  = Client.normalizeState h raw.
Proof.
  intros _.
  assert (Hshape : forall s : Client.State Js.jval,
             NoDup (Client.categories s) -> Forall trimmed (Client.categories s) ->
             Client.categories s <> [] ->
             colors_valid (Client.categoryColors s) ->
             Client.categoryColors s !! "__proto__" = None ->
             Forall (fun category =>
                       Js.inherited category = false ->
                       is_Some (Client.categoryColors s !! category))
               (Client.categories s) ->
             Client.sortBy s ∈ Client.ALLOWED_SORT_BY ->
             (Client.selectedDate s = "" -> today h = "") ->
             map_Forall (fun taskId timer => taskId <> "" /\ timer_ok timer)
               (Client.pomodoroTimers s) ->
             Client.pomodoroTimers s !! "__proto__" = None ->
             Client.normalizeState h (client_json s) = s).
  { intros [tasks categories categoryColors selectedDate sortBy timers].
    cbn [Client.tasks Client.categories Client.categoryColors Client.selectedDate
         Client.sortBy Client.pomodoroTimers].
    intros Hnodup Htrim Hne Hvalid Hproto Hcover Hsort Hdate Htimers Htproto.
    unfold Client.normalizeState, client_json.
    cbn [Client.tasks Client.categories Client.categoryColors Client.selectedDate
         Client.sortBy Client.pomodoroTimers Js.prop Js.assoc String.eqb Ascii.eqb Bool.eqb
         Js.truthy Js.is_object negb orb]. cbv zeta.
    rewrite clean_categories_fixed by done.
    rewrite buildCategoryColors_fixed.
    2: done. 2: done.
    2:{ intros category Hin. rewrite Forall_forall in Hcover.
        destruct categories as [|c categories]; [done|].
        destruct (Js.inherited category) eqn:Hown; [by right|left]. by apply Hcover. }
    rewrite timers_fixed by done.
    rewrite bool_decide_eq_true_2 by done.
    destruct categories as [|c categories]; [done|]. f_equal.
    destruct (String.eqb_spec selectedDate "") as [->|]; [|done].
    cbn [Client.createDefaultState Client.selectedDate]. by apply Hdate. }
  pose proof (normalized_shape h raw) as Hs. cbv zeta in Hs.
  destruct Hs as (Hne & Hnodup & Htrim & Hvalid & Hproto & Hcover & Hsort).
  apply Hshape; try done.
  - unfold Client.normalizeState. cbv zeta.
    destruct (negb (Js.truthy raw) || negb (Js.is_object raw));
      cbn [Client.createDefaultState Client.selectedDate]; [done|].
    destruct (Js.prop "selectedDate" raw) as [[| | |date| |]|]; try done.
    destruct (String.eqb_spec date ""); done.
  - unfold Client.normalizeState. cbv zeta.
    destruct (negb (Js.truthy raw) || negb (Js.is_object raw));
      cbn [Client.createDefaultState Client.pomodoroTimers]; [apply map_Forall_empty|].
    apply normalized_timers.
  - unfold Client.normalizeState. cbv zeta.
    destruct (negb (Js.truthy raw) || negb (Js.is_object raw));
      cbn [Client.createDefaultState Client.pomodoroTimers]; [done|].
    apply normalized_timers.
Qed.

End ClientFixedPoint.

Lemma client_normalize_idempotent_witness :
  Client.normalizeState sample_host
    (client_json (Client.normalizeState sample_host stored_document))
  = Client.normalizeState sample_host stored_document.
Proof.
  apply (client_normalize_idempotent sample_host stored_document). reflexivity.
Defined.

(** ** The progress bar *)

Section Progress.

Lemma percent_bracket E D :
  1 <= D < 17592186044416 -> 0 <= E <= D ->
  let p :=
    Float.Math_round (Float.mul (Float.div (Float.of_Z E) (Float.of_Z D)) (Float.of_Z 100)) in
  let X := (200 * E + D) / (2 * D) in
  p = X \/ ((200 * E + D) mod (2 * D) = 0 /\ p = X - 1).
Proof.
  intros HD HE p X. destruct (Z.eq_dec E 0) as [->|HE0].
  - left. unfold p, X. rewrite percent_of_zero. symmetry. apply Z.div_small. lia.
  - destruct (percent_close E D) as [HD2 Hc]; [lia|].
    apply round_compare; [lia|lia|exact HD2|exact Hc].
Qed.

Lemma percent_range E D :
  1 <= D < 17592186044416 -> 0 <= E <= D ->
  let p :=
    Float.Math_round (Float.mul (Float.div (Float.of_Z E) (Float.of_Z D)) (Float.of_Z 100)) in
  0 <= p <= 100 /\ (E = D -> p = 100).
Proof.
  intros HD HE p. pose proof (percent_bracket E D HD HE) as Hp. cbv zeta in Hp. fold p in Hp.
  pose proof (Z.div_mod (200 * E + D) (2 * D) ltac:(lia)) as HX.
  pose proof (Z.mod_pos_bound (200 * E + D) (2 * D) ltac:(lia)) as Hr.
  set (X := (200 * E + D) / (2 * D)) in *. set (r := (200 * E + D) mod (2 * D)) in *.
  assert (HX0 : 0 <= X) by nia.
  assert (HX100 : X <= 100) by nia.
  split.
  - destruct Hp as [->|[Hr0 ->]]; [lia|]. rewrite Hr0 in HX.
    assert (0 < X) by nia. lia.
  - intros ->. assert (X = 100) by nia.
    destruct Hp as [->|[Hr0 _]]; [lia|]. rewrite Hr0 in HX. nia.
Qed.

Lemma percent_monotone E1 E2 D :
  1 <= D < 17592186044416 -> 0 <= E1 <= E2 -> E2 <= D ->
  Float.Math_round (Float.mul (Float.div (Float.of_Z E1) (Float.of_Z D)) (Float.of_Z 100))
  <= Float.Math_round (Float.mul (Float.div (Float.of_Z E2) (Float.of_Z D)) (Float.of_Z 100)).
Proof.
  intros HD HE1 HE2.
  destruct (Z.eq_dec E1 E2) as [->|Hne]; [lia|].
  pose proof (percent_bracket E1 D HD ltac:(lia)) as Hp1.
  pose proof (percent_bracket E2 D HD ltac:(lia)) as Hp2. cbv zeta in Hp1, Hp2.
  pose proof (Z.div_mod (200 * E1 + D) (2 * D) ltac:(lia)) as HX1.
  pose proof (Z.mod_pos_bound (200 * E1 + D) (2 * D) ltac:(lia)) as Hr1.
  pose proof (Z.div_mod (200 * E2 + D) (2 * D) ltac:(lia)) as HX2.
  pose proof (Z.mod_pos_bound (200 * E2 + D) (2 * D) ltac:(lia)) as Hr2.
  set (X1 := (200 * E1 + D) / (2 * D)) in *. set (r1 := (200 * E1 + D) mod (2 * D)) in *.
  set (X2 := (200 * E2 + D) / (2 * D)) in *. set (r2 := (200 * E2 + D) mod (2 * D)) in *.
  set (p1 := Float.Math_round _) in *. set (p2 := Float.Math_round _) in *.
  assert (HX : X1 <= X2) by nia.
  assert (Hp1le : p1 <= X1) by (destruct Hp1 as [->|[_ ->]]; lia).
  destruct Hp2 as [->|[Hr0 ->]]; [lia|]. rewrite Hr0 in HX2.
  assert (X1 < X2) by nia. lia.
Qed.

(** X19. For a duration below [2^44] seconds the percentage of the
    progress bar lies between 0 and 100: it is 100 when no time remains, 0
    when the whole duration (a duration of 0 counting as 1800 seconds, a
    negative one as 1) remains, and with less time remaining it is never
    smaller. *)
Theorem progress_bar (remainingSeconds remainingSeconds' durationSeconds : Z) :
  durationSeconds < 2 ^ 44 ->
  let safeDuration := Z.max 1 (if durationSeconds =? 0 then 1800 else durationSeconds) in
  0 <= Client.getPomodoroProgressPercent remainingSeconds durationSeconds <= 100
  /\ (remainingSeconds <= 0 ->
      Client.getPomodoroProgressPercent remainingSeconds durationSeconds = 100)
  /\ (safeDuration <= remainingSeconds ->
      Client.getPomodoroProgressPercent remainingSeconds durationSeconds = 0)
  /\ (remainingSeconds <= remainingSeconds' ->
      Client.getPomodoroProgressPercent remainingSeconds' durationSeconds
      <= Client.getPomodoroProgressPercent remainingSeconds durationSeconds).
Proof.
  intros Hd safeDuration. change (2 ^ 44) with 17592186044416 in Hd.
  unfold Client.getPomodoroProgressPercent. cbv zeta.
  change DEFAULT_POMODORO_SECONDS with 1800. fold safeDuration.
  assert (HD : 1 <= safeDuration < 17592186044416).
  { unfold safeDuration. destruct (Z.eqb_spec durationSeconds 0); lia. }
  generalize dependent safeDuration. intros D HD.
  set (E := D - Z.max 0 (Z.min D remainingSeconds)).
  assert (HE : 0 <= E <= D) by lia.
  destruct (percent_range E D HD HE) as [Hrange Hfull].
  split; [exact Hrange|]. split; [|split].
  - intros Hr. apply Hfull. lia.
  - intros Hr. replace E with 0 by lia. apply percent_of_zero.
  - intros Hr. apply percent_monotone; lia.
Qed.

End Progress.

Lemma progress_bar_witness :
  Client.getPomodoroProgressPercent 900 1800 <= Client.getPomodoroProgressPercent 600 1800.
Proof.
  apply (proj2 (proj2 (proj2 (progress_bar 600 900 1800 ltac:(lia))))). lia.
Defined.

(** ** The clock of a timer *)

Section Clock.


End Clock.

(** ** The groups of the task list *)

Section Groups.

Implicit Types (task : Task.t) (groups : list (string * list Task.t)).

Lemma filter_snoc {A} (f : A -> bool) (l : list A) (x : A) :
  List.filter f (l ++ [x]) = (List.filter f l ++ if f x then [x] else [])%list.
Proof. rewrite List.filter_app. simpl. by destruct (f x). Qed.

Lemma filter_split {A} (f : A -> bool) (l : list A) :
  (List.filter f l ++ List.filter (fun x => negb (f x)) l)%list ≡ₚ l.
Proof.
  induction l as [|x l IH]; [reflexivity|]. simpl. destruct (f x); simpl.
  - by constructor.
  - rewrite <- Permutation_middle. by constructor.
Qed.

Lemma own_entries_perm {A} (created : list (string * A)) : Client.own_entries created ≡ₚ created.
Proof. unfold Client.own_entries. rewrite sort_perm. apply filter_split. Qed.

Lemma add_to_group_keys groups task :
  existsb (fun group => String.eqb (fst group) (Task.category task)) groups = true ->
  (add_to_group groups task).*1 = groups.*1.
Proof.
  intros Hex. unfold add_to_group. rewrite Hex. rewrite <- list_fmap_compose.
  apply list_fmap_ext. intros i [key tasks] _. simpl. by destruct (String.eqb key _).
Qed.

Lemma add_to_group_concat groups task :
  NoDup groups.*1 ->
  concat (add_to_group groups task).*2 ≡ₚ task :: concat groups.*2.
Proof.
  unfold add_to_group. intros Hnodup.
  destruct (existsb _ groups) eqn:Hex.
  - induction groups as [|[key tasks] groups IH]; [discriminate|].
    rewrite fmap_cons in Hnodup. apply NoDup_cons in Hnodup as [Hkey Hnodup].
    cbn [existsb fst] in Hex. rewrite !fmap_cons. cbn [fst snd concat].
    destruct (String.eqb_spec key (Task.category task)) as [Heq|Hne]; cbn [fst snd].
    + rewrite (fmap_fixed _ groups).
      * rewrite <- app_assoc. simpl. by rewrite <- Permutation_middle.
      * apply Forall_forall. intros [key' tasks'] Hin. cbn [fst snd].
        destruct (String.eqb_spec key' (Task.category task)) as [Heq'|]; [|done].
        exfalso. apply Hkey. apply list_elem_of_fmap. exists (key', tasks'). split; [|done].
        simpl. congruence.
    + rewrite (IH Hnodup Hex). by rewrite Permutation_middle.
  - rewrite fmap_app, concat_app. simpl. by rewrite Permutation_app_comm.
Qed.

(** The groups as the loop builds them. *)
Lemma pushed_groups (visible : list Task.t) :
  let groups := fold_left add_to_group visible [] in
  NoDup groups.*1
  /\ (forall key tasks,
        (key, tasks) ∈ groups
        <-> tasks <> [] /\ tasks = List.filter (of_category key) visible)
  /\ concat groups.*2 ≡ₚ visible.
Proof.
  induction visible as [|task visible IH] using rev_ind.
  - simpl. split; [constructor|]. split; [|reflexivity].
    intros key tasks. split; [by intros ?%elem_of_nil|]. intros [Hne ->]. done.
  - cbv zeta in *. rewrite fold_left_app. cbn [fold_left].
    set (groups := fold_left add_to_group visible []) in *.
    destruct IH as (Hnodup & Hin & Hconcat).
    split; [|split].
    + unfold add_to_group.
      destruct (existsb _ groups) eqn:Hex.
      * fold (add_to_group groups task).
        replace ((fun group : string * list Task.t =>
                    if String.eqb (fst group) (Task.category task)
                    then (fst group, (snd group ++ [task])%list) else group) <$> groups)
          with (add_to_group groups task)
          by (unfold add_to_group; by rewrite Hex).
        by rewrite add_to_group_keys.
      * rewrite fmap_app. apply NoDup_app. split; [done|]. split; [|apply NoDup_singleton].
        intros key Hkey [->|[]%elem_of_nil]%elem_of_cons.
        apply list_elem_of_fmap in Hkey as ([key tasks] & Heq & Hgroup). simpl in Heq.
        assert (existsb (fun group => String.eqb (fst group) (Task.category task)) groups
                = true) as Htrue; [|congruence].
        apply existsb_exists. exists (key, tasks). split; [by apply list_elem_of_In|].
        simpl. apply String.eqb_eq. congruence.
    + intros key tasks. rewrite filter_snoc.
      change (of_category key task) with (String.eqb (Task.category task) key).
      unfold add_to_group.
      destruct (existsb _ groups) eqn:Hex.
      * apply existsb_exists in Hex as ([key0 tasks0] & Hin0 & Hkey0).
        apply list_elem_of_In in Hin0. simpl in Hkey0. apply String.eqb_eq in Hkey0. subst key0.
        apply Hin in Hin0 as [Hne0 Htasks0].
        rewrite list_elem_of_fmap. split.
        -- intros ([key' tasks'] & Heq & [Hne' ->]%Hin). simpl in Heq.
           destruct (String.eqb_spec key' (Task.category task)) as [->|Hne''].
           ++ injection Heq as -> ->. rewrite String.eqb_refl.
              split; [|done]. by destruct (List.filter _ visible).
           ++ injection Heq as -> ->. apply String.eqb_neq in Hne''.
              rewrite String.eqb_sym, Hne'', app_nil_r. done.
        -- intros [Hne ->].
           destruct (String.eqb_spec (Task.category task) key) as [<-|Hne''].
           ++ exists (Task.category task, List.filter (of_category (Task.category task)) visible).
              simpl. rewrite String.eqb_refl. split; [done|]. apply Hin. by rewrite <- Htasks0.
           ++ rewrite app_nil_r in Hne |- *.
              exists (key, List.filter (of_category key) visible). simpl.
              apply not_eq_sym, String.eqb_neq in Hne''. rewrite Hne''. split; [done|].
              by apply Hin.
      * rewrite elem_of_app, list_elem_of_singleton, Hin.
        assert (Hnone : List.filter (of_category (Task.category task)) visible = []).
        { destruct (List.filter (of_category (Task.category task)) visible) as [|t l] eqn:Hf;
            [done|]. exfalso.
          assert ((Task.category task, t :: l) ∈ groups) as Hgroup
            by (apply Hin; by rewrite Hf).
          assert (existsb (fun group => String.eqb (fst group) (Task.category task)) groups
                  = true) as Htrue; [|congruence].
          apply existsb_exists. eexists. split; [by apply list_elem_of_In|].
          apply String.eqb_refl. }
        split.
        -- intros [[Hne ->]|[= -> ->]].
           ++ destruct (String.eqb_spec (Task.category task) key) as [<-|Hne''];
                [by rewrite Hnone in Hne|]. by rewrite app_nil_r.
           ++ by rewrite String.eqb_refl, Hnone.
        -- intros [Hne ->].
           destruct (String.eqb_spec (Task.category task) key) as [<-|Hne''].
           ++ right. by rewrite Hnone.
           ++ left. by rewrite app_nil_r in Hne |- *.
    + rewrite add_to_group_concat by done. rewrite Hconcat.
      by rewrite Permutation_app_comm.
Qed.

Lemma pushed_keys (visible : list Task.t) key tasks :
  (key, tasks) ∈ fold_left add_to_group visible [] -> exists task, task ∈ visible
                                                                    /\ Task.category task = key.
Proof.
  intros Hin. apply (pushed_groups visible) in Hin as [Hne ->].
  destruct (List.filter (of_category key) visible) as [|task l] eqn:Hf; [done|].
  exists task. assert (Ht : In task (List.filter (of_category key) visible))
    by (rewrite Hf; by left).
  apply filter_In in Ht as [Ht Hc]. split; [by apply list_elem_of_In|].
  by apply String.eqb_eq.
Qed.

(** The loop goes through when no category is a name the groups inherit. *)
Lemma push_groups_Some (visible : list Task.t) :
  Forall (fun task => Js.inherited (Task.category task) = false) visible ->
  fold_left (fun pushed task => pushed ≫= fun groups => Client.push_group groups task)
    visible (Some [])
  = Some (fold_left add_to_group visible []).
Proof.
  induction visible as [|task visible IH] using rev_ind; [done|].
  intros [Hv [Ht _]%Forall_cons]%Forall_app. rewrite !fold_left_app. cbn [fold_left].
  rewrite (IH Hv). cbn [mbind option_bind]. unfold Client.push_group, add_to_group.
  rewrite Ht. by destruct (existsb _ _).
Qed.

(** And throws at the first category that is one. *)
Lemma push_groups_None (visible : list Task.t) :
  Exists (fun task => Js.inherited (Task.category task) = true) visible ->
  fold_left (fun pushed task => pushed ≫= fun groups => Client.push_group groups task)
    visible (Some [])
  = None.
Proof.
  induction visible as [|task visible IH] using rev_ind; [by intros ?%Exists_nil|].
  intros Hex. rewrite fold_left_app. cbn [fold_left].
  destruct (decide (Exists (fun task => Js.inherited (Task.category task) = true) visible))
    as [Hv|Hv]; [by rewrite (IH Hv)|].
  apply Exists_app in Hex as [Hex|Hex]; [done|].
  apply Exists_cons in Hex as [Ht|Hex]; [|by apply Exists_nil in Hex].
  rewrite push_groups_Some.
  2:{ apply not_Exists_Forall in Hv; [|intros x; apply _].
      eapply Forall_impl; [exact Hv|]. intros x Hx. simpl in Hx.
      by destruct (Js.inherited (Task.category x)). }
  cbn [mbind option_bind]. unfold Client.push_group. rewrite Ht.
  destruct (existsb _ _) eqn:Hexists; [|done].
  apply existsb_exists in Hexists as ([key tasks] & Hin%list_elem_of_In & Hkey%String.eqb_eq).
  simpl in Hkey. subst key.
  destruct (pushed_keys visible _ _ Hin) as (task' & Hin' & Hcat).
  exfalso. apply Hv. apply Exists_exists. exists task'. split; [done|]. by rewrite Hcat.
Qed.

(** X21. The groups of the task list.  When no task shown is of a
    category named like a member of [Object.prototype], every category that
    has a task among those shown has one group, which holds the tasks of the
    category in the order in which they are shown; there is no empty group,
    and together the groups hold every task shown once.  When a task shown is
    of such a category (as "constructor", which [addCategory] accepts), no
    groups are returned: [push] is called on the inherited member, and the
    [TypeError] ends the rendering. *)
Theorem grouped_tasks (h : Host) (visible : list Task.t) :
  (Forall (fun task => Js.inherited (Task.category task) = false) visible ->
   exists groups,
     Client.groupedTasks h visible = Some groups
     /\ NoDup groups.*1
     /\ (forall key tasks,
           (key, tasks) ∈ groups
           <-> tasks <> [] /\ tasks = List.filter (of_category key) visible)
     /\ concat groups.*2 ≡ₚ visible)
  /\ (Exists (fun task => Js.inherited (Task.category task) = true) visible ->
      Client.groupedTasks h visible = None).
Proof.
  split.
  - intros Hplain. unfold Client.groupedTasks. rewrite (push_groups_Some visible Hplain).
    cbn [fmap option_fmap option_map]. eexists. split; [reflexivity|].
    destruct (pushed_groups visible) as (Hnodup & Hin & Hconcat).
    set (groups := sort _ _).
    assert (Hperm : groups ≡ₚ fold_left add_to_group visible []).
    { unfold groups. by rewrite sort_perm, own_entries_perm. }
    split; [by rewrite Hperm|]. split.
    + intros key tasks. by rewrite Hperm.
    + by rewrite Hperm.
  - intros Hex. unfold Client.groupedTasks. by rewrite (push_groups_None visible Hex).
Qed.

End Groups.

Lemma grouped_tasks_witness :
  (exists groups,
      Client.groupedTasks sample_host
        (Client.visibleTasks sample_host research_state "priority" all_view) = Some groups
      /\ groups.*1 = ["Research"])
  /\ Client.groupedTasks sample_host
       (Client.visibleTasks sample_host constructor_task "priority" all_view) = None.
Proof.
  split.
  - destruct (proj1 (grouped_tasks sample_host
                       (Client.visibleTasks sample_host research_state "priority" all_view)))
      as (groups & Hgroups & _).
    + repeat constructor.
    + exists groups. split; [exact Hgroups|].
      vm_compute in Hgroups. by injection Hgroups as <-.
  - refine (proj2 (grouped_tasks sample_host
                     (Client.visibleTasks sample_host constructor_task "priority" all_view)) _).
    by repeat constructor.
Defined.

(** ** No operation loses a task *)

Section TasksKept.

Variable h : Host.
Implicit Types (data : Client.State Task.t) (task : Task.t).

Lemma filter_both {A} (P : A -> Prop) `{!forall x, Decision (P x)} (l : list A) :
  (filter (fun x => ~ P x) l ++ filter P l)%list ≡ₚ l.
Proof.
  induction l as [|x l IH]; [reflexivity|].
  destruct (decide (P x)) as [Hx|Hx].
  - rewrite (filter_cons_True P) by done. rewrite (filter_cons_False (fun x => ~ P x)) by tauto.
    rewrite <- Permutation_middle. by constructor.
  - rewrite (filter_cons_False P) by done. rewrite (filter_cons_True (fun x => ~ P x)) by done.
    simpl. by constructor.
Qed.

Lemma reorder_ids data (a b : string) :
  Task.id <$> Client.tasks (Client.reorderTasksWithinDay data a b)
  ≡ₚ Task.id <$> Client.tasks data.
Proof.
  unfold Client.reorderTasksWithinDay. destruct (_ || _ || _); [reflexivity|]. cbv zeta.
  destruct (Client.findIndex a _) as [i|]; [|reflexivity].
  destruct (Client.findIndex b _) as [j|]; [|reflexivity].
  destruct (_ !! i) as [moved|] eqn:Hi; [|reflexivity].
  cbn [Client.tasks]. rewrite fmap_app, reindexed_ids.
  rewrite splice_in_perm, <- delete_Permutation by exact Hi.
  rewrite by_order_perm, <- fmap_app. apply fmap_Permutation.
  apply (filter_both (fun task => Task.date task = Client.selectedDate data)).
Qed.

(** X22. No operation of the planner removes a task or changes the id of
    one: the operations on flags, categories, the sort mode and the selected
    date leave the ids as they are, in place; reordering permutes them;
    moving a task to the next day, when it goes through, leaves them in place;
    submitting and cloning add one id at the end or change nothing. *)
Theorem no_task_lost data :
  let ids (s : Client.State Task.t) := Task.id <$> Client.tasks s in
  (forall taskId,
      ids (Client.toggleDone data taskId) = ids data
      /\ ids (Client.hideTask data taskId) = ids data
      /\ ids (Client.restoreTask data taskId) = ids data)
  /\ (forall name color, ids (Client.addCategory h data name color) = ids data)
  /\ (forall categoryName, ids (Client.deleteCategory data categoryName) = ids data)
  /\ (forall value,
        ids (Client.updateSortBy data value) = ids data
        /\ ids (Client.changeSelectedDate h data value) = ids data)
  /\ (forall a b, ids (Client.reorderTasksWithinDay data a b) ≡ₚ ids data)
  /\ (forall taskId next,
        Client.moveTaskToNextDay data taskId = Some next -> ids next = ids data)
  /\ (forall form,
        ids (Client.submitTask h data form) = ids data
        \/ ids (Client.submitTask h data form)
           = (ids data ++ [randomUUID h (length (Client.tasks data))])%list)
  /\ (forall taskId next,
        Client.cloneTaskToNextDay h data taskId = Some next ->
        ids next = ids data
        \/ ids next = (ids data ++ [randomUUID h (length (Client.tasks data))])%list).
Proof.
  intros ids. unfold ids. repeat split.
  - unfold Client.toggleDone. cbn [Client.with_tasks Client.tasks].
    rewrite <- list_fmap_compose. apply list_fmap_ext. intros i task _. simpl.
    destruct (negb _); [done|]. by destruct (_ || _).
  - unfold Client.hideTask. cbn [Client.with_tasks Client.tasks].
    rewrite <- list_fmap_compose. apply list_fmap_ext. intros i task _. simpl.
    by destruct (String.eqb _ _).
  - unfold Client.restoreTask. cbn [Client.with_tasks Client.tasks].
    rewrite <- list_fmap_compose. apply list_fmap_ext. intros i task _. simpl.
    by destruct (String.eqb _ _).
  - intros name color. unfold Client.addCategory.
    destruct (String.eqb _ _); [done|]. by destruct (existsb _ _).
  - intros categoryName. unfold Client.deleteCategory.
    destruct (String.eqb _ _); [done|]. cbn [Client.tasks].
    rewrite <- list_fmap_compose. apply list_fmap_ext. intros i task _. simpl.
    by destruct (String.eqb _ _).
  - apply reorder_ids.
  - intros taskId next. unfold Client.moveTaskToNextDay.
    destruct (mapM _ (Client.tasks data)) as [tasks'|] eqn:Hmap; [|discriminate].
    intros [= <-]. cbn [Client.with_tasks Client.tasks].
    apply mapM_Some in Hmap. induction Hmap as [|task task' l l' Htask _ IH]; [done|].
    rewrite !fmap_cons, IH. f_equal.
    destruct (String.eqb _ _); [|by injection Htask as <-].
    destruct (Client.getNextDate _); [|discriminate]. by injection Htask as <-.
  - intros form. unfold Client.submitTask. cbv zeta.
    destruct (_ || _); [by left|]. destruct (_ && _); [by left|].
    right. cbn [Client.tasks]. by rewrite fmap_app.
  - intros taskId next. unfold Client.cloneTaskToNextDay.
    destruct (List.find _ _) as [source|]; [|intros [= <-]; by left].
    destruct (Client.getNextDate _); [|discriminate].
    intros [= <-]. right. cbn [Client.with_tasks Client.tasks]. by rewrite fmap_app.
Qed.

End TasksKept.

Lemma no_task_lost_witness :
  exists next,
    Client.moveTaskToNextDay (three_tasks "t1") "t1" = Some next
    /\ Task.id <$> Client.tasks next = ["t1"; "t2"; "t3"].
Proof.
  eexists. split; [vm_compute; reflexivity|].
  apply (proj1 (proj2 (proj2 (proj2 (proj2 (proj2 (no_task_lost sample_host
           (three_tasks "t1")))))))
           "t1").
  vm_compute. reflexivity.
Defined.

(** ** Newest first, and the filter on completed tasks *)

Section ViewOrder.

Variable h : Host.
Implicit Types (data : Client.State Task.t) (task : Task.t) (v : Client.View).

(** X23. In the sort mode "createdAt" the tasks shown are in the order of
    their creation times, the newest first, a missing time counting as 0. *)
Theorem newest_first data v :
  StronglySorted
    (fun a b => Client.or_zero (Task.createdAt b) <= Client.or_zero (Task.createdAt a))
    (Client.visibleTasks h data "createdAt" v).
Proof.
  apply Sorted_StronglySorted; [intros a b c; lia|].
  unfold Client.visibleTasks. cbn [String.eqb Ascii.eqb Bool.eqb]. cbv zeta.
  apply sort_Sorted; intros a b; unfold Client.compareTasks;
    cbn [String.eqb Ascii.eqb Bool.eqb]; lia.
Qed.

(** X24. While every completed task is hidden, which is how [toggleDone]
    leaves a task, the filter on completed tasks shows nothing unless the
    hidden tasks are shown. *)
Theorem completed_filter_empty data sortBy v :
  Forall done_hidden (Client.tasks data) ->
  Client.showAllTasks v = false ->
  Client.filterStatus v = "Completed" ->
  Client.visibleTasks h data sortBy v = [].
Proof.
  intros Hflags Hshow Hstatus.
  apply Permutation_nil_r. rewrite visibleTasks_perm.
  rewrite filter_false; [done|].
  eapply Forall_impl; [exact Hflags|]. intros task Hdone.
  destruct (Client.shown data v task) eqn:Hshown; [|done].
  apply shown_passes in Hshown as (_ & Hhidden & _ & _ & _ & Hcompleted).
  specialize (Hhidden Hshow). specialize (Hcompleted Hstatus).
  specialize (Hdone Hcompleted). congruence.
Qed.

End ViewOrder.

Lemma completed_filter_empty_witness :
  Client.visibleTasks sample_host (Client.toggleDone (one_task_state false false) "t1")
    "priority"
    {| Client.filterType := "All"; Client.filterCategory := "All";
       Client.filterStatus := "Completed"; Client.showAllTasks := false |}
  = [].
Proof.
  apply completed_filter_empty; [|reflexivity|reflexivity].
  repeat constructor.
Defined.

(** ** The sort modes by category and by type *)

Section KeyOrder.

Variable h : Host.
Hypothesis antisymmetric : forall s t, 0 < localeCompare h s t -> localeCompare h t s < 0.

Lemma keyed_cmp_before (key : Task.t -> string) (a b : Task.t) :
  (let diff := localeCompare h (key a) (key b) in
   if negb (diff =? 0) then diff else localeCompare h (Task.name a) (Task.name b)) <= 0 ->
  keyed_before h key a b.
Proof.
  cbv zeta. unfold keyed_before.
  destruct (Z.eqb_spec (localeCompare h (key a) (key b)) 0) as [E|E]; simpl; lia.
Qed.

Lemma keyed_cmp_after (key : Task.t -> string) (a b : Task.t) :
  0 < (let diff := localeCompare h (key a) (key b) in
       if negb (diff =? 0) then diff else localeCompare h (Task.name a) (Task.name b)) ->
  keyed_before h key b a.
Proof.
  cbv zeta. unfold keyed_before.
  destruct (Z.eqb_spec (localeCompare h (key a) (key b)) 0) as [E|E]; simpl; intros H.
  - apply antisymmetric in H.
    destruct (Z.lt_trichotomy (localeCompare h (key b) (key a)) 0) as [Hlt|[Heq|Hgt]].
    + by left.
    + right. split; [done|lia].
    + apply antisymmetric in Hgt. lia.
  - left. by apply antisymmetric.
Qed.

(** X25. With a [localeCompare] that gives opposite signs to swapped
    arguments, in the sort mode "category" every task shown is followed by one
    of a later category, or of an equal one and a name that is not earlier;
    and likewise for the task type in the sort mode "taskType". *)
Theorem sorted_by_key (data : Client.State Task.t) (v : Client.View) :
  Sorted (keyed_before h Task.category) (Client.visibleTasks h data "category" v)
  /\ Sorted (keyed_before h Task.taskType) (Client.visibleTasks h data "taskType" v).
Proof.
  unfold Client.visibleTasks. cbn [String.eqb Ascii.eqb Bool.eqb]. cbv zeta.
  split.
  - apply sort_Sorted; intros a b; unfold Client.compareTasks;
      cbn [String.eqb Ascii.eqb Bool.eqb]; [apply keyed_cmp_before|apply keyed_cmp_after].
  - apply sort_Sorted; intros a b; unfold Client.compareTasks;
      cbn [String.eqb Ascii.eqb Bool.eqb]; [apply keyed_cmp_before|apply keyed_cmp_after].
Qed.

End KeyOrder.

Lemma sorted_by_key_witness :
  Sorted (keyed_before sample_host Task.category)
    (Client.visibleTasks sample_host research_state "category" all_view).
Proof.
  exact (proj1 (sorted_by_key sample_host compare_units_antisym research_state all_view)).
Defined.

(** ** Saving the document and loading it again *)

Section SaveAndLoad.

Variable h : Host.
Implicit Types (data : Client.State Task.t) (task : Task.t).









End SaveAndLoad.

